(** * polymarket-nonce-guard: the manipulation detector and the alert bus

    A shallow embedding of [manipulation_detector.py] (snapshot history,
    detector bank, cooldown gate, poll loop) and of [signal.py] (the
    [AlertBus] fan-out), with the properties of the design document stated
    and settled against it; then of [nonce_monitor.py] (window
    arithmetic, statistics, event logging), of [blacklist.py] and of the
    emergency sell of [blacklist_watchdog.py], with properties read off
    the code.

    Python [float] is IEEE-754 binary64.  It is modelled by the Standard
    Library's executable specification of binary floating point
    ([SpecFloat], precision 53, emax 1024), so that every comparison and
    every subtraction below rounds exactly as the interpreter does.
    Exceptions are explicit: a computation either returns a value and a
    state, or raises and leaves the state it reached. *)

From Stdlib Require Import ZArith Bool List String Lia.
From Stdlib Require Import Floats.SpecFloat.
From stdpp Require Import base option list gmap strings pretty.
Import ListNotations.

Set Warnings "-register-all".

Local Open Scope string_scope.
Local Open Scope Z_scope.

(* ===================================================================== *)
(** ** Python floats *)
(* ===================================================================== *)

Module Float64.

Abbreviation float := spec_float.

Definition prec : Z := 53.
Definition emax : Z := 1024.

(** An integer as a float ([float(n)], or the coercion of an [int]
    operand of a float operation). *)
Definition of_Z (z : Z) : float := binary_normalize prec emax z 0 false.

Definition zero : float := S754_zero false.

Definition add : float -> float -> float := SFadd prec emax.
Definition sub : float -> float -> float := SFsub prec emax.
Definition mul : float -> float -> float := SFmul prec emax.
(** The IEEE quotient.  Python's [/] is [truediv] below, which raises on a
    zero divisor before this is reached. *)
Definition quot : float -> float -> float := SFdiv prec emax.
Definition abs : float -> float := SFabs.

(** The decimal literal [n/d] with [d] a power of ten: the double nearest
    to it, obtained by one correctly rounded division of two exactly
    representable integers. *)
Definition decimal (n d : Z) : float := quot (of_Z n) (of_Z d).

Definition eqb : float -> float -> bool := SFeqb.
Definition ltb : float -> float -> bool := SFltb.
Definition leb : float -> float -> bool := SFleb.
(** [a > b] and [a >= b]. *)
Definition gtb (a b : float) : bool := SFltb b a.
Definition geb (a b : float) : bool := SFleb b a.

(** Truth value of a float: [bool(x)] is [x != 0.0] (a NaN is true). *)
Definition truthy (x : float) : bool := negb (eqb x zero).

(** [a or b] on floats. *)
Definition or_else (a b : float) : float := if truthy a then a else b.

(** Neither an infinity nor a NaN. *)
Definition is_finite (x : float) : bool :=
  match x with
  | S754_zero _ | S754_finite _ _ _ => true
  | _ => false
  end.

(** [round(x, ndigits)] for [ndigits >= 0]: the decimal value of [x]
    rounded half-to-even to [ndigits] places, then the double nearest to
    that decimal.  Infinities and NaN are returned unchanged. *)
Definition round_half_even (num den : Z) : Z :=
  let q := num / den in
  let r := num mod den in
  match Z.compare (2 * r) den with
  | Lt => q
  | Gt => q + 1
  | Eq => if Z.even q then q else q + 1
  end.

Definition round (x : float) (ndigits : nat) : float :=
  match x with
  | S754_finite s m e =>
      let scale := 10 ^ Z.of_nat ndigits in
      let n :=
        if 0 <=? e then Zpos m * 2 ^ e * scale
        else round_half_even (Zpos m * scale) (2 ^ (- e)) in
      match n with
      | Zpos p => SFdiv prec emax (S754_finite s p 0) (of_Z scale)
      | _ => S754_zero s
      end
  | _ => x
  end.

End Float64.

Import Float64.

(* ===================================================================== *)
(** ** Python values, exceptions, and computations that may raise *)
(* ===================================================================== *)

(** A key of a [dict].  Strings, integers, booleans and [None] are the keys
    [json.dumps] accepts besides floats; [KBytes] stands for a hashable key
    it refuses.  Float and tuple keys are not represented. *)
Inductive pykey : Type :=
| KStr (s : string)
| KInt (z : Z)
| KBool (b : bool)
| KNone
| KBytes (b : string).

#[global] Instance pykey_eq_dec : EqDecision pykey.
Proof. solve_decision. Defined.

(** The values an alert's [data] mapping can hold.  [PTuple] and [PBytes]
    are there because a [dict] is not restricted to JSON's own types. *)
Inductive pyval : Type :=
| PNone
| PBool (b : bool)
| PInt (z : Z)
| PFloat (x : float)
| PStr (s : string)
| PList (l : list pyval)
| PTuple (l : list pyval)
| PDict (kv : list (pykey * pyval))
| PBytes (b : string).

(** Induction on values through the lists they hold. *)
Section pyval_nested_ind.

Variable P : pyval -> Prop.
Hypothesis HNone : P PNone.
Hypothesis HBool : forall b, P (PBool b).
Hypothesis HInt : forall z, P (PInt z).
Hypothesis HFloat : forall x, P (PFloat x).
Hypothesis HStr : forall s, P (PStr s).
Hypothesis HList : forall l, Forall P l -> P (PList l).
Hypothesis HTuple : forall l, Forall P l -> P (PTuple l).
Hypothesis HDict : forall kv, Forall (fun p => P (snd p)) kv -> P (PDict kv).
Hypothesis HBytes : forall b, P (PBytes b).


End pyval_nested_ind.

Inductive exn : Type :=
| ZeroDivisionError
| IndexError
| TypeError
| ValueError
| OSError.

(** The result of running a statement from state [s]: a value and the new
    state, or an exception and the state reached when it was raised. *)
Inductive outcome (S A : Type) : Type :=
| Ok (a : A) (s : S)
| Raise (e : exn) (s : S).
Arguments Ok {S A} a s.
Arguments Raise {S A} e s.

(** The state a run ended in, returned or raised. *)
Definition final {S A} (r : outcome S A) : S :=
  match r with
  | Ok _ s => s
  | Raise _ s => s
  end.

Definition M (S A : Type) : Type := S -> outcome S A.

Definition ret {S A} (a : A) : M S A := fun s => Ok a s.
Definition raise {S A} (e : exn) : M S A := fun s => Raise e s.
Definition bind {S A B} (c : M S A) (k : A -> M S B) : M S B :=
  fun s => match c s with
           | Ok a s' => k a s'
           | Raise e s' => Raise e s'
           end.
Definition gets {S A} (f : S -> A) : M S A := fun s => Ok (f s) s.
Definition modify {S} (f : S -> S) : M S unit := fun s => Ok tt (f s).

(** [try: c  except Exception: h]. *)
Definition try_except {S A} (c : M S A) (h : exn -> M S A) : M S A :=
  fun s => match c s with
           | Ok a s' => Ok a s'
           | Raise e s' => h e s'
           end.

Notation "x <- c ;; k" := (bind c (fun x => k))
  (at level 100, c at next level, right associativity).
Notation "c ;; k" := (bind c (fun _ => k))
  (at level 100, right associativity).

(** [for x in xs: body x]. *)
Fixpoint for_each {S A} (xs : list A) (body : A -> M S unit) : M S unit :=
  match xs with
  | [] => ret tt
  | x :: rest => body x ;; for_each rest body
  end.

(** [a / b] on floats. *)
Definition truediv {S} (a b : float) : M S float :=
  if Float64.eqb b zero then raise ZeroDivisionError else ret (quot a b).

(** An f-string, kept as its pieces: literal text and formatted values
    ([Fmt ".3f" x] is [{x:.3f}]). *)
Inductive frag : Type :=
| Txt (s : string)
| Fmt (spec : string) (v : pyval).

Definition text : Type := list frag.

(* ===================================================================== *)
(** ** The json module *)
(* ===================================================================== *)

Module Json.

(** A JSON document.  A line of a [.jsonl] file is identified with the
    document it spells: [json.loads] re-reads exactly the document
    [json.dumps] wrote (numbers are printed with [repr], which determines
    the float). *)
Inductive json : Type :=
| JNull
| JBool (b : bool)
| JInt (z : Z)
| JFloat (x : float)
| JStr (s : string)
| JArr (l : list json)
| JObj (kv : list (string * json)).

(** The member name written for a key: strings as they are, [int], [bool]
    and [None] keys through their JSON spelling, anything else is a
    [TypeError] ([skipkeys] is off). *)
Definition key_name (k : pykey) : option string :=
  match k with
  | KStr s => Some s
  | KInt z => Some (pretty z)
  | KBool true => Some "true"
  | KBool false => Some "false"
  | KNone => Some "null"
  | KBytes _ => None
  end.

(** The encoder.  [fallback] is the [default=] hook applied to a value of no
    JSON type ([None] here when no hook is given, so that such a value is a
    [TypeError]).  Lists and tuples both become arrays. *)
Fixpoint encode (fallback : string -> option json) (v : pyval) : option json :=
  match v with
  | PNone => Some JNull
  | PBool b => Some (JBool b)
  | PInt z => Some (JInt z)
  | PFloat x => Some (JFloat x)
  | PStr s => Some (JStr s)
  | PList l | PTuple l =>
      JArr <$>
        (fix items (l : list pyval) : option (list json) :=
           match l with
           | [] => Some []
           | x :: rest =>
               match encode fallback x, items rest with
               | Some j, Some js => Some (j :: js)
               | _, _ => None
               end
           end) l
  | PDict kv =>
      JObj <$>
        (fix members (kv : list (pykey * pyval)) : option (list (string * json)) :=
           match kv with
           | [] => Some []
           | (k, x) :: rest =>
               match key_name k, encode fallback x, members rest with
               | Some n, Some j, Some js => Some ((n, j) :: js)
               | _, _, _ => None
               end
           end) kv
  | PBytes b => fallback b
  end.

(** [json.dumps(v)]. *)
Definition to_json : pyval -> option json := encode (fun _ => None).

(** [json.dumps(v, default=str)]: [str(b)] of a bytes object is its literal. *)
Definition to_json_default_str : pyval -> option json :=
  encode (fun b => Some (JStr ("b'" +:+ b +:+ "'"))).

(** [d[k] = v] on a dict kept as its items in insertion order. *)
Fixpoint dict_set (k : pykey) (v : pyval) (d : list (pykey * pyval))
  : list (pykey * pyval) :=
  match d with
  | [] => [(k, v)]
  | (k', v') :: rest =>
      if decide (k' = k) then (k', v) :: rest else (k', v') :: dict_set k v rest
  end.

(** [d.get(k)]. *)
Fixpoint dict_get (k : pykey) (d : list (pykey * pyval)) : option pyval :=
  match d with
  | [] => None
  | (k', v) :: rest => if decide (k' = k) then Some v else dict_get k rest
  end.

(** [json.loads]: arrays become lists, objects become dicts with [str]
    keys, a repeated member name keeping its last value. *)
Fixpoint of_json (j : json) : pyval :=
  match j with
  | JNull => PNone
  | JBool b => PBool b
  | JInt z => PInt z
  | JFloat x => PFloat x
  | JStr s => PStr s
  | JArr l => PList (map of_json l)
  | JObj kv =>
      PDict
        ((fix members (kv : list (string * json)) (acc : list (pykey * pyval)) :=
            match kv with
            | [] => acc
            | (n, x) :: rest => members rest (dict_set (KStr n) (of_json x) acc)
            end) kv [])
  end.






End Json.

(* ===================================================================== *)
(** ** manipulation_detector.py *)
(* ===================================================================== *)

Module Detector.

(** *** Config *)

Definition POLL_INTERVAL : float := of_Z 2.
Definition ALERT_COOLDOWN : float := of_Z 15.
Definition HISTORY_SIZE : nat := 60.

Definition PRICE_JUMP_THRESHOLD : float := decimal 10 100.
Definition BTC_MOVE_THRESHOLD_PCT : float := decimal 5 100.
Definition DEPTH_DROP_PCT : float := decimal 40 100.
Definition DEPTH_DROP_WINDOW : nat := 3.
Definition DIVERGENCE_THRESHOLD : float := decimal 15 100.
Definition VOLUME_VANISH_THRESHOLD : float := of_Z 50.

Definition COUNTER_TRADE_SIZE : float := of_Z 5.
Definition COUNTER_TRADE_EDGE : float := decimal 8 100.

(** *** Data structures *)

Record BookSnapshot : Type := {
  ts : float;
  bid_up : float;
  ask_up : float;
  bid_down : float;
  ask_down : float;
  depth_up_bids : float;
  depth_up_asks : float;
  depth_down_bids : float;
  depth_down_asks : float;
  btc_price : float
}.

Definition mid_up (s : BookSnapshot) : float :=
  if truthy (bid_up s) && truthy (ask_up s)
  then quot (add (bid_up s) (ask_up s)) (of_Z 2)
  else or_else (bid_up s) (or_else (ask_up s) zero).

Definition mid_down (s : BookSnapshot) : float :=
  if truthy (bid_down s) && truthy (ask_down s)
  then quot (add (bid_down s) (ask_down s)) (of_Z 2)
  else or_else (bid_down s) (or_else (ask_down s) zero).

Definition total_depth (s : BookSnapshot) : float :=
  add (add (add (depth_up_bids s) (depth_up_asks s)) (depth_down_bids s))
      (depth_down_asks s).

Record Alert : Type := {
  alert_ts : float;
  alert_type : string;
  severity : string;
  message : text;
  data : list (string * pyval)
}.

(** [market.Window] is imported, not defined here: the fields this file
    reads.  Its time-dependent properties ([is_expired], [is_active],
    [tau]) are observations, see [Oracle]. *)
Record Window : Type := {
  slug : string;
  token_id_up : string;
  token_id_down : string
}.

(** One line of [ALERT_LOG]: the object [_fire_alert] serialises.  [ll_ts]
    stands for the ISO-8601 rendering of that instant. *)
Record LogLine : Type := {
  ll_ts : float;
  ll_type : string;
  ll_severity : string;
  ll_message : text;
  ll_data : list (string * pyval)
}.

(** A [place_limit_buy(token_id, price, size)] call. *)
Record Order : Type := {
  order_token : string;
  order_price : float;
  order_size : float
}.

(** What the surroundings answer.  Each answer is indexed by the number of
    interactions made so far ([steps]), so that two reads of the clock may
    differ.  [market.py] and [price_feed.py] are not part of the sources,
    so what they compute is an answer here:
    - [time_time]: [time.time()];
    - [alert_log_write]: whether the [try] block appending to [ALERT_LOG]
      runs to its end;
    - [place_limit_buy]: the order id the venue client returns, or [None]
      (the client is taken to return, not to raise);
    - [get_price]: [feed.get_price()];
    - [_get_full_book]: the snapshot [_get_full_book(window)] returns, or
      [None]; the method (read the feed, fetch both books, take the best
      quotes and sum the volumes, 0 for an empty side) is taken whole;
    - [fetch_window]: [client.fetch_window(current_window_timestamp())];
    - [is_expired], [is_active], [tau]: the properties of the window
      object at that moment;
    - [next_window_timestamp]: the function of that name. *)
Record Oracle : Type := {
  time_time : nat -> float;
  alert_log_write : nat -> bool;
  place_limit_buy : nat -> option string;
  get_price : nat -> option float;
  _get_full_book : nat -> option BookSnapshot;
  fetch_window : nat -> option Window;
  is_expired : nat -> bool;
  is_active : nat -> bool;
  tau : nat -> float;
  next_window_timestamp : nat -> float
}.

(** The detector object ([self]) together with what it acts on. *)
Record State : Type := {
  (* attributes of ManipulationDetector *)
  trade_enabled : bool;
  history : list BookSnapshot;          (* deque, newest last *)
  alerts : list Alert;
  last_alert_time : gmap string float;
  window : option Window;
  start_price : option float;
  alert_count : nat;
  trade_count : nat;
  (* surroundings *)
  env : Oracle;
  steps : nat;
  logger : list (string * text);        (* level, message *)
  alert_log : list LogLine;             (* contents of ALERT_LOG *)
  orders : list Order;
  sleeps : list float;
  (* history variable, not program state: every alert handed to
     _fire_alert, fired or suppressed *)
  candidates : list Alert
}.

Definition set_history (h : list BookSnapshot) (s : State) : State :=
  {| trade_enabled := trade_enabled s; history := h; alerts := alerts s;
     last_alert_time := last_alert_time s; window := window s;
     start_price := start_price s; alert_count := alert_count s;
     trade_count := trade_count s; env := env s; steps := steps s;
     logger := logger s; alert_log := alert_log s; orders := orders s;
     sleeps := sleeps s; candidates := candidates s |}.

Definition set_alerts (a : list Alert) (s : State) : State :=
  {| trade_enabled := trade_enabled s; history := history s; alerts := a;
     last_alert_time := last_alert_time s; window := window s;
     start_price := start_price s; alert_count := alert_count s;
     trade_count := trade_count s; env := env s; steps := steps s;
     logger := logger s; alert_log := alert_log s; orders := orders s;
     sleeps := sleeps s; candidates := candidates s |}.

Definition set_last_alert_time (m : gmap string float) (s : State) : State :=
  {| trade_enabled := trade_enabled s; history := history s;
     alerts := alerts s; last_alert_time := m; window := window s;
     start_price := start_price s; alert_count := alert_count s;
     trade_count := trade_count s; env := env s; steps := steps s;
     logger := logger s; alert_log := alert_log s; orders := orders s;
     sleeps := sleeps s; candidates := candidates s |}.

Definition set_window (w : option Window) (s : State) : State :=
  {| trade_enabled := trade_enabled s; history := history s;
     alerts := alerts s; last_alert_time := last_alert_time s; window := w;
     start_price := start_price s; alert_count := alert_count s;
     trade_count := trade_count s; env := env s; steps := steps s;
     logger := logger s; alert_log := alert_log s; orders := orders s;
     sleeps := sleeps s; candidates := candidates s |}.

Definition set_start_price (p : option float) (s : State) : State :=
  {| trade_enabled := trade_enabled s; history := history s;
     alerts := alerts s; last_alert_time := last_alert_time s;
     window := window s; start_price := p; alert_count := alert_count s;
     trade_count := trade_count s; env := env s; steps := steps s;
     logger := logger s; alert_log := alert_log s; orders := orders s;
     sleeps := sleeps s; candidates := candidates s |}.

Definition set_alert_count (n : nat) (s : State) : State :=
  {| trade_enabled := trade_enabled s; history := history s;
     alerts := alerts s; last_alert_time := last_alert_time s;
     window := window s; start_price := start_price s; alert_count := n;
     trade_count := trade_count s; env := env s; steps := steps s;
     logger := logger s; alert_log := alert_log s; orders := orders s;
     sleeps := sleeps s; candidates := candidates s |}.

Definition set_trade_count (n : nat) (s : State) : State :=
  {| trade_enabled := trade_enabled s; history := history s;
     alerts := alerts s; last_alert_time := last_alert_time s;
     window := window s; start_price := start_price s;
     alert_count := alert_count s; trade_count := n; env := env s;
     steps := steps s; logger := logger s; alert_log := alert_log s;
     orders := orders s; sleeps := sleeps s; candidates := candidates s |}.

Definition set_steps (n : nat) (s : State) : State :=
  {| trade_enabled := trade_enabled s; history := history s;
     alerts := alerts s; last_alert_time := last_alert_time s;
     window := window s; start_price := start_price s;
     alert_count := alert_count s; trade_count := trade_count s;
     env := env s; steps := n; logger := logger s;
     alert_log := alert_log s; orders := orders s; sleeps := sleeps s;
     candidates := candidates s |}.

Definition set_logger (l : list (string * text)) (s : State) : State :=
  {| trade_enabled := trade_enabled s; history := history s;
     alerts := alerts s; last_alert_time := last_alert_time s;
     window := window s; start_price := start_price s;
     alert_count := alert_count s; trade_count := trade_count s;
     env := env s; steps := steps s; logger := l;
     alert_log := alert_log s; orders := orders s; sleeps := sleeps s;
     candidates := candidates s |}.

Definition set_alert_log (l : list LogLine) (s : State) : State :=
  {| trade_enabled := trade_enabled s; history := history s;
     alerts := alerts s; last_alert_time := last_alert_time s;
     window := window s; start_price := start_price s;
     alert_count := alert_count s; trade_count := trade_count s;
     env := env s; steps := steps s; logger := logger s; alert_log := l;
     orders := orders s; sleeps := sleeps s; candidates := candidates s |}.

Definition set_orders (l : list Order) (s : State) : State :=
  {| trade_enabled := trade_enabled s; history := history s;
     alerts := alerts s; last_alert_time := last_alert_time s;
     window := window s; start_price := start_price s;
     alert_count := alert_count s; trade_count := trade_count s;
     env := env s; steps := steps s; logger := logger s;
     alert_log := alert_log s; orders := l; sleeps := sleeps s;
     candidates := candidates s |}.

Definition set_sleeps (l : list float) (s : State) : State :=
  {| trade_enabled := trade_enabled s; history := history s;
     alerts := alerts s; last_alert_time := last_alert_time s;
     window := window s; start_price := start_price s;
     alert_count := alert_count s; trade_count := trade_count s;
     env := env s; steps := steps s; logger := logger s;
     alert_log := alert_log s; orders := orders s; sleeps := l;
     candidates := candidates s |}.

Definition set_candidates (l : list Alert) (s : State) : State :=
  {| trade_enabled := trade_enabled s; history := history s;
     alerts := alerts s; last_alert_time := last_alert_time s;
     window := window s; start_price := start_price s;
     alert_count := alert_count s; trade_count := trade_count s;
     env := env s; steps := steps s; logger := logger s;
     alert_log := alert_log s; orders := orders s; sleeps := sleeps s;
     candidates := l |}.

(** *** Interactions *)

(** Put a question to the surroundings: the answer for the current
    interaction count, which then advances. *)
Definition ask {A} (f : Oracle -> nat -> A) : M State A :=
  fun s => Ok (f (env s) (steps s)) (set_steps (S (steps s)) s).

(** [logger.<level>(msg)]. *)
Definition log (level : string) (msg : text) : M State unit :=
  modify (fun s => set_logger (logger s ++ [(level, msg)]) s).

(** [await asyncio.sleep(d)]: only the requested duration is kept. *)
Definition sleep (d : float) : M State unit :=
  modify (fun s => set_sleeps (sleeps s ++ [d]) s).

(** [seq[-k]] for [k >= 1]. *)
Definition index_from_end {A} (l : list A) (k : nat) : M State A :=
  if (Nat.leb 1 k && Nat.leb k (length l))%bool
  then match l !! (length l - k)%nat with
       | Some x => ret x
       | None => raise IndexError
       end
  else raise IndexError.

(** A detector's [data] as the dict it is. *)
Definition as_dict (d : list (string * pyval)) : pyval :=
  PDict (map (fun '(k, v) => (KStr k, v)) d).

(** *** The cooldown gate *)

Definition _can_alert (alert_type : string) : M State bool :=
  last <- gets (fun s => default zero (last_alert_time s !! alert_type)) ;;
  now <- ask time_time ;;
  ret (geb (sub now last) ALERT_COOLDOWN).

Definition icon (severity : string) : string :=
  if String.eqb severity "LOW" then "🟡"
  else if String.eqb severity "MEDIUM" then "🟠"
  else if String.eqb severity "HIGH" then "🔴"
  else if String.eqb severity "CRITICAL" then "🚨"
  else "⚠️".

(** The [try] block that appends to [ALERT_LOG]: whether it runs to its end
    (file opened, timestamp rendered, line written) is an answer of the
    surroundings; [except Exception: pass] otherwise. *)
Definition append_alert_log (alert : Alert) : M State unit :=
  written <- ask alert_log_write ;;
  if written : bool
  then modify (fun s =>
         set_alert_log
           (alert_log s ++
              [{| ll_ts := alert_ts alert; ll_type := alert_type alert;
                  ll_severity := severity alert; ll_message := message alert;
                  ll_data := data alert |}]) s)
  else ret tt.

Definition _fire_alert (alert : Alert) : M State unit :=
  modify (fun s => set_candidates (candidates s ++ [alert]) s) ;;
  can <- _can_alert (alert_type alert) ;;
  if negb can then ret tt
  else
    modify (fun s =>
      set_last_alert_time
        (<[alert_type alert := alert_ts alert]> (last_alert_time s)) s) ;;
    modify (fun s => set_alert_count (S (alert_count s)) s) ;;
    modify (fun s => set_alerts (alerts s ++ [alert]) s) ;;
    log "WARNING"
      ([Txt (icon (severity alert)); Txt " ["; Txt (severity alert); Txt "] ";
        Txt (alert_type alert); Txt ": "] ++ message alert)%list ;;
    match data alert with
    | [] => ret tt
    | _ :: _ =>
        match Json.to_json_default_str (as_dict (data alert)) with
        | Some _ => log "INFO" [Txt "   Data: "; Fmt "json" (as_dict (data alert))]
        | None => raise TypeError
        end
    end ;;
    append_alert_log alert.

(** *** Counter-trade *)

(** [client.place_limit_buy(token_id, price, size)]; the order id is
    truthy when it is a non-empty string. *)
Definition place_order (token_id : string) (price size : float) : M State unit :=
  modify (fun s =>
    set_orders (orders s ++ [{| order_token := token_id; order_price := price;
                                order_size := size |}]) s) ;;
  order_id <- ask place_limit_buy ;;
  match order_id with
  | Some (String c id) =>
      modify (fun s => set_trade_count (S (trade_count s)) s) ;;
      log "INFO" [Txt "  ✅ Counter-trade placed: "; Fmt "" (PStr (String c id))]
  | _ => ret tt
  end.

Definition _counter_trade (snap : BookSnapshot) (token_label : string)
    (mid_now mid_prev : float) : M State unit :=
  w <- gets window ;;
  match w with
  | None => ret tt
  | Some w =>
      let cent := decimal 1 100 in
      if ltb mid_now mid_prev then
        (* Token got cheaper: buy it *)
        let '(token_id, buy_price) :=
          if String.eqb token_label "UP"
          then (token_id_up w,
                round (if truthy (ask_up snap) then ask_up snap
                       else add mid_now cent) 2)
          else (token_id_down w,
                round (if truthy (ask_down snap) then ask_down snap
                       else add mid_now cent) 2) in
        if leb buy_price cent || geb buy_price (decimal 99 100) then ret tt
        else
          q <- truediv COUNTER_TRADE_SIZE buy_price ;;
          let size := round q 1 in
          if ltb size (of_Z 1) then ret tt
          else
            log "INFO"
              [Txt "  💰 COUNTER-TRADE: BUY "; Txt token_label; Txt " @ $";
               Fmt ".2f" (PFloat buy_price); Txt " x"; Fmt ".1f" (PFloat size);
               Txt " (manipulation pushed price down $";
               Fmt ".3f" (PFloat mid_prev); Txt "→$";
               Fmt ".3f" (PFloat mid_now); Txt ")"] ;;
            place_order token_id buy_price size
      else
        (* Token got more expensive: buy the other side *)
        let '(token_id, buy_price) :=
          if String.eqb token_label "UP"
          then (token_id_down w,
                round (if truthy (ask_down snap) then ask_down snap
                       else add (mid_down snap) cent) 2)
          else (token_id_up w,
                round (if truthy (ask_up snap) then ask_up snap
                       else add (mid_up snap) cent) 2) in
        if leb buy_price cent || geb buy_price (decimal 99 100) then ret tt
        else
          q <- truediv COUNTER_TRADE_SIZE buy_price ;;
          let size := round q 1 in
          if ltb size (of_Z 1) then ret tt
          else
            let other := if String.eqb token_label "UP" then "DOWN" else "UP" in
            log "INFO"
              [Txt "  💰 COUNTER-TRADE: BUY "; Txt other; Txt " @ $";
               Fmt ".2f" (PFloat buy_price); Txt " x"; Fmt ".1f" (PFloat size);
               Txt " (manipulation inflated "; Txt token_label; Txt " $";
               Fmt ".3f" (PFloat mid_prev); Txt "→$";
               Fmt ".3f" (PFloat mid_now); Txt ")"] ;;
            place_order token_id buy_price size
  end.

(** *** Detectors *)

(** A number that is a float, or the [int] literal a conditional expression
    fell back to. *)
Definition as_float (v : pyval) : float :=
  match v with
  | PFloat x => x
  | PInt z => of_Z z
  | _ => zero
  end.

(** [abs(snap.btc_price - prev.btc_price) / prev.btc_price * 100
     if prev.btc_price else 0]. *)
Definition btc_pct_move (snap prev : BookSnapshot) : M State pyval :=
  if truthy (btc_price prev)
  then q <- truediv (abs (sub (btc_price snap) (btc_price prev))) (btc_price prev) ;;
       ret (PFloat (mul q (of_Z 100)))
  else ret (PInt 0).

Definition price_jump_severity (delta : float) : string :=
  if geb delta (decimal 20 100) then "CRITICAL"
  else if geb delta (decimal 15 100) then "HIGH"
  else "MEDIUM".

(** The test guarding the alert of [_check_price_jump]. *)
Definition price_jump_fires (delta : float) (btc_pct : pyval) : bool :=
  geb delta PRICE_JUMP_THRESHOLD && ltb (as_float btc_pct) BTC_MOVE_THRESHOLD_PCT.

(** The [Alert(...)] built by [_check_price_jump]. *)
Definition price_jump_alert (snap : BookSnapshot) (label : string)
    (mid_now mid_prev : float) (btc_pct : pyval) : Alert :=
  let delta := abs (sub mid_now mid_prev) in
  let direction := if gtb mid_now mid_prev then "↑" else "↓" in
  {| alert_ts := ts snap;
     alert_type := "PRICE_JUMP_" +:+ label;
     severity := price_jump_severity delta;
     message :=
       [Txt label; Txt " mid "; Txt direction; Txt " $";
        Fmt ".3f" (PFloat mid_prev); Txt " → $"; Fmt ".3f" (PFloat mid_now);
        Txt " (Δ="; Fmt ".3f" (PFloat delta); Txt ") but BTC only moved ";
        Fmt ".4f" btc_pct; Txt "%"];
     data :=
       [("token", PStr label); ("mid_prev", PFloat mid_prev);
        ("mid_now", PFloat mid_now); ("delta", PFloat delta);
        ("btc_pct_move", btc_pct); ("btc", PFloat (btc_price snap));
        ("direction", PStr direction)] |}.

Definition _check_price_jump (snap prev : BookSnapshot) : M State unit :=
  btc_pct <- btc_pct_move snap prev ;;
  for_each
    [("UP", mid_up snap, mid_up prev); ("DOWN", mid_down snap, mid_down prev)]
    (fun '(label, mid_now, mid_prev) =>
       if negb (truthy mid_now) || negb (truthy mid_prev) then ret tt
       else
         let delta := abs (sub mid_now mid_prev) in
         if price_jump_fires delta btc_pct then
           _fire_alert (price_jump_alert snap label mid_now mid_prev btc_pct) ;;
           (* Counter-trade opportunity *)
           enabled <- gets trade_enabled ;;
           if enabled && geb delta COUNTER_TRADE_EDGE
           then _counter_trade snap label mid_now mid_prev
           else ret tt
         else ret tt).

Definition depth_drop_alert (snap ref : BookSnapshot) (drop_pct : float) : Alert :=
  {| alert_ts := ts snap;
     alert_type := "DEPTH_DROP";
     severity :=
       if geb drop_pct (decimal 70 100) then "CRITICAL"
       else if geb drop_pct (decimal 55 100) then "HIGH" else "MEDIUM";
     message :=
       [Txt "Orderbook depth dropped "; Fmt ".0%" (PFloat drop_pct); Txt ": ";
        Fmt ".0f" (PFloat (total_depth ref)); Txt " → ";
        Fmt ".0f" (PFloat (total_depth snap)); Txt " shares (over ";
        Fmt ".0f" (PFloat (mul (of_Z (Z.of_nat DEPTH_DROP_WINDOW)) POLL_INTERVAL));
        Txt "s)"];
     data :=
       [("depth_before", PFloat (total_depth ref));
        ("depth_after", PFloat (total_depth snap));
        ("drop_pct", PFloat drop_pct)] |}.

Definition _check_depth_drop (snap : BookSnapshot) : M State unit :=
  h <- gets history ;;
  if Nat.ltb (length h) DEPTH_DROP_WINDOW then ret tt
  else
    ref <- index_from_end h DEPTH_DROP_WINDOW ;;
    if ltb (total_depth ref) (of_Z 1) then ret tt
    else
      drop_pct <- truediv (sub (total_depth ref) (total_depth snap)) (total_depth ref) ;;
      if geb drop_pct DEPTH_DROP_PCT
      then _fire_alert (depth_drop_alert snap ref drop_pct)
      else ret tt.

Definition volume_vanish_alert (snap : BookSnapshot) (label : string)
    (now_v prev_v : float) : Alert :=
  let vanished := sub prev_v now_v in
  {| alert_ts := ts snap;
     alert_type := "VOLUME_VANISH_" +:+ label;
     severity := if geb vanished (of_Z 100) then "HIGH" else "MEDIUM";
     message :=
       [Txt label; Txt ": "; Fmt ".0f" (PFloat vanished);
        Txt " shares vanished ("; Fmt ".0f" (PFloat prev_v); Txt " → ";
        Fmt ".0f" (PFloat now_v); Txt ")"];
     data :=
       [("side", PStr label); ("before", PFloat prev_v);
        ("after", PFloat now_v); ("vanished", PFloat vanished)] |}.

Definition _check_volume_vanish (snap prev : BookSnapshot) : M State unit :=
  for_each
    [("UP_BIDS", depth_up_bids snap, depth_up_bids prev);
     ("UP_ASKS", depth_up_asks snap, depth_up_asks prev);
     ("DOWN_BIDS", depth_down_bids snap, depth_down_bids prev);
     ("DOWN_ASKS", depth_down_asks snap, depth_down_asks prev)]
    (fun '(label, now_v, prev_v) =>
       let vanished := sub prev_v now_v in
       if geb vanished VOLUME_VANISH_THRESHOLD
       then _fire_alert (volume_vanish_alert snap label now_v prev_v)
       else ret tt).

Definition divergence_alert (snap : BookSnapshot) (up : bool)
    (btc_delta_pct : float) : Alert :=
  let side := if up then "UP" else "DOWN" in
  let mid := if up then mid_up snap else mid_down snap in
  {| alert_ts := ts snap;
     alert_type := "DIVERGENCE_" +:+ side +:+ "_CHEAP";
     severity := "HIGH";
     message :=
       [Txt "BTC "; Txt (if up then "up" else "down"); Txt " ";
        Fmt "+.4f" (PFloat btc_delta_pct); Txt "% but "; Txt side;
        Txt " mid only $"; Fmt ".3f" (PFloat mid); Txt " — "; Txt side;
        Txt " token underpriced vs BTC reality"];
     data :=
       [("btc_delta_pct", PFloat btc_delta_pct);
        (if up then "mid_up" else "mid_down", PFloat mid);
        ("btc", PFloat (btc_price snap))] |}.

Definition _check_divergence (snap : BookSnapshot) : M State unit :=
  start <- gets start_price ;;
  match start with
  | None => ret tt
  | Some start_price =>
      if negb (truthy start_price) || negb (truthy (btc_price snap)) then ret tt
      else
        q <- truediv (sub (btc_price snap) start_price) start_price ;;
        let btc_delta_pct := mul q (of_Z 100) in
        let cheap := sub (decimal 50 100) DIVERGENCE_THRESHOLD in
        if gtb btc_delta_pct (decimal 3 100) && truthy (mid_up snap)
           && ltb (mid_up snap) cheap
        then _fire_alert (divergence_alert snap true btc_delta_pct)
        else if ltb btc_delta_pct (SFopp (decimal 3 100)) && truthy (mid_down snap)
                && ltb (mid_down snap) cheap
        then _fire_alert (divergence_alert snap false btc_delta_pct)
        else ret tt
  end.

Definition spread_alert (snap : BookSnapshot) (label : string)
    (spread_prev spread_now spread_expansion : float) : Alert :=
  {| alert_ts := ts snap;
     alert_type := "SPREAD_BLOWOUT_" +:+ label;
     severity := if geb spread_expansion (of_Z 5) then "HIGH" else "MEDIUM";
     message :=
       [Txt label; Txt " spread "; Fmt ".1f" (PFloat spread_expansion);
        Txt "x wider: $"; Fmt ".3f" (PFloat spread_prev); Txt " → $";
        Fmt ".3f" (PFloat spread_now)];
     data :=
       [("token", PStr label); ("spread_prev", PFloat spread_prev);
        ("spread_now", PFloat spread_now); ("expansion", PFloat spread_expansion)] |}.

Definition _check_spread (snap prev : BookSnapshot) : M State unit :=
  for_each
    [("UP", bid_up snap, ask_up snap, bid_up prev, ask_up prev);
     ("DOWN", bid_down snap, ask_down snap, bid_down prev, ask_down prev)]
    (fun '(label, bid, ask, prev_bid, prev_ask) =>
       if negb (truthy bid && truthy ask && truthy prev_bid && truthy prev_ask)
       then ret tt
       else
         let spread_now := sub ask bid in
         let spread_prev := sub prev_ask prev_bid in
         if gtb spread_prev zero then
           spread_expansion <- truediv spread_now spread_prev ;;
           if geb spread_expansion (of_Z 3) && geb spread_now (decimal 10 100)
           then _fire_alert (spread_alert snap label spread_prev spread_now
                               spread_expansion)
           else ret tt
         else ret tt).

(** Run all detectors on the new snapshot. *)
Definition analyze (snap : BookSnapshot) : M State unit :=
  h <- gets history ;;
  if Nat.ltb (length h) 2 then ret tt
  else
    prev <- index_from_end h 1 ;;
    _check_price_jump snap prev ;;
    _check_depth_drop snap ;;
    _check_volume_vanish snap prev ;;
    _check_divergence snap ;;
    _check_spread snap prev.

(** *** Snapshot history *)

(** [deque(maxlen=n).append(x)]: the item is added on the right and, if the
    deque is then longer than [maxlen], one item is discarded from the
    left. *)
Definition deque_append {A} (maxlen : nat) (x : A) (d : list A) : list A :=
  let d' := (d ++ [x])%list in
  if Nat.ltb maxlen (length d') then drop 1 d' else d'.

(** [self.history] is [deque(maxlen=HISTORY_SIZE)]. *)
Definition history_append (snap : BookSnapshot) : M State unit :=
  modify (fun s => set_history (deque_append HISTORY_SIZE snap (history s)) s).

Definition history_clear : M State unit :=
  modify (set_history []).


(** *** Main loop *)

(** The local variables of [run] that live across iterations. *)
Record Locals : Type := {
  loop_window : option Window;
  last_status : float
}.

(** What the window check at the top of an iteration did. *)
Inductive refresh : Type :=
| Kept                      (* a window is loaded and has not expired *)
| Replaced (w : Window)     (* a fetched, active window was installed *)
| Waiting.                  (* nothing active yet: sleep and [continue] *)

(** [min(a, b)]. *)
Definition py_min (a b : float) : float := if ltb b a then b else a.

(** [if window is None or window.is_expired: ...], the first half of the
    loop body. *)
Definition refresh_window (l : Locals) : M State (refresh * Locals) :=
  stale <- match loop_window l with
           | None => ret true
           | Some _ => ask is_expired
           end ;;
  if negb stale then ret (Kept, l)
  else
    w <- ask fetch_window ;;
    active <- match w with
              | Some _ => ask is_active
              | None => ret false
              end ;;
    match w with
    | Some w =>
        if active : bool then
          modify (set_window (Some w)) ;;
          btc <- ask get_price ;;
          modify (set_start_price btc) ;;
          history_clear ;;
          match btc with
          | None => raise TypeError      (* [f"{btc:.2f}"] of [None] *)
          | Some p =>
              t <- ask tau ;;
              log "INFO" [Txt "📊 Window "; Txt (slug w); Txt " | S0=$";
                          Fmt ".2f" (PFloat p); Txt " | tau=";
                          Fmt ".0f" (PFloat t); Txt "s"] ;;
              ret (Replaced w,
                   {| loop_window := Some w; last_status := last_status l |})
          end
        else ret (Waiting, l)
    | None => ret (Waiting, l)
    end.

(** The [else] branch: try next window. *)
Definition wait_for_next_window (l : Locals) : M State Locals :=
  nxt <- ask next_window_timestamp ;;
  now <- ask time_time ;;
  let wait := sub nxt now in
  if gtb wait zero then
    now <- ask time_time ;;
    l' <- (if gtb (sub now (last_status l)) (of_Z 30) then
             log "INFO" [Txt "⏳ Next window in "; Fmt ".0f" (PFloat wait); Txt "s"] ;;
             now <- ask time_time ;;
             ret {| loop_window := loop_window l; last_status := now |}
           else ret l) ;;
    sleep (py_min (add wait (of_Z 1)) (of_Z 10)) ;;
    ret l'
  else
    sleep (of_Z 5) ;;
    ret l.

(** Poll the orderbook, run the analysis, report. *)
Definition poll (verbose : bool) (l : Locals) : M State Locals :=
  snap <- ask _get_full_book ;;
  match snap with
  | None => sleep POLL_INTERVAL ;; ret l
  | Some snap =>
      analyze snap ;;
      history_append snap ;;
      now <- ask time_time ;;
      l' <- (if geb (sub now (last_status l)) (of_Z 30) then
               t <- ask tau ;;
               n_alerts <- gets alert_count ;;
               n_trades <- gets trade_count ;;
               log "INFO"
                 [Txt "📈 BTC=$"; Fmt ".2f" (PFloat (btc_price snap));
                  Txt " | UP mid=$"; Fmt ".3f" (PFloat (mid_up snap));
                  Txt " DOWN mid=$"; Fmt ".3f" (PFloat (mid_down snap));
                  Txt " | depth="; Fmt ".0f" (PFloat (total_depth snap));
                  Txt " | alerts="; Fmt "" (PInt (Z.of_nat n_alerts));
                  Txt " | trades="; Fmt "" (PInt (Z.of_nat n_trades));
                  Txt " | tau="; Fmt ".0f" (PFloat t); Txt "s"] ;;
               ret {| loop_window := loop_window l; last_status := now |}
             else ret l) ;;
      (if verbose : bool then
         log "DEBUG"
           [Txt "  📖 UP: "; Fmt ".3f" (PFloat (bid_up snap)); Txt "/";
            Fmt ".3f" (PFloat (ask_up snap)); Txt " (";
            Fmt ".0f" (PFloat (depth_up_bids snap)); Txt "/";
            Fmt ".0f" (PFloat (depth_up_asks snap)); Txt ") DOWN: ";
            Fmt ".3f" (PFloat (bid_down snap)); Txt "/";
            Fmt ".3f" (PFloat (ask_down snap)); Txt " (";
            Fmt ".0f" (PFloat (depth_down_bids snap)); Txt "/";
            Fmt ".0f" (PFloat (depth_down_asks snap)); Txt ")"]
       else ret tt) ;;
      sleep POLL_INTERVAL ;;
      ret l'
  end.

(** One pass through the body of [while True]. *)
Definition iteration (verbose : bool) (l : Locals) : M State Locals :=
  r <- refresh_window l ;;
  match r with
  | (Waiting, l') => wait_for_next_window l'
  | (_, l') => poll verbose l'
  end.

(** *** Notions used to state the properties *)

(** [s'] is [s] after some detector ran: the alerts [new] were handed to
    [_fire_alert], nothing a detector reads has changed, and the count of
    interactions has not gone back. *)
Definition extends (s s' : State) (new : list Alert) : Prop :=
  candidates s' = (candidates s ++ new)%list /\
  history s' = history s /\
  window s' = window s /\
  start_price s' = start_price s /\
  trade_enabled s' = trade_enabled s /\
  env s' = env s /\
  (steps s <= steps s')%nat.

(** [x] is a snapshot the order-book fetch answered at interaction [n] or
    later. *)
Definition polled_since (e : Oracle) (n : nat) (x : BookSnapshot) : Prop :=
  exists m, (n <= m)%nat /\ _get_full_book e m = Some x.

(** The surroundings are [e], the interaction count has reached [n], and
    the history holds at most [HISTORY_SIZE] snapshots, all polled since
    [n]. *)
Definition settled (e : Oracle) (n : nat) (s : State) : Prop :=
  env s = e /\ (n <= steps s)%nat /\
  Forall (polled_since e n) (history s) /\
  (length (history s) <= HISTORY_SIZE)%nat.

(** [k] passes through the loop body, stopping at the first that raises. *)
Fixpoint iterations (verbose : bool) (k : nat) (l : Locals) : M State Locals :=
  match k with
  | O => ret l
  | S k' => l' <- iteration verbose l ;; iterations verbose k' l'
  end.

(** The value of [btc_pct] in [_check_price_jump]. *)
Definition btc_pct_value (snap prev : BookSnapshot) : pyval :=
  if truthy (btc_price prev)
  then PFloat (mul (quot (abs (sub (btc_price snap) (btc_price prev)))
                         (btc_price prev)) (of_Z 100))
  else PInt 0.

(** The price-jump candidate for one instrument, if there is one. *)
Definition price_jump_candidate (snap : BookSnapshot) (btc_pct : pyval)
    (label : string) (mid_now mid_prev : float) : list Alert :=
  if truthy mid_now && truthy mid_prev
     && price_jump_fires (abs (sub mid_now mid_prev)) btc_pct
  then [price_jump_alert snap label mid_now mid_prev btc_pct]
  else [].

(** The price-jump candidates of a pair of snapshots, UP first. *)
Definition price_jump_candidates (snap prev : BookSnapshot) : list Alert :=
  (price_jump_candidate snap (btc_pct_value snap prev) "UP"
     (mid_up snap) (mid_up prev) ++
   price_jump_candidate snap (btc_pct_value snap prev) "DOWN"
     (mid_down snap) (mid_down prev))%list.

(** [alert.data[k]]. *)
Fixpoint field (k : string) (d : list (string * pyval)) : option pyval :=
  match d with
  | [] => None
  | (k', v) :: rest => if String.eqb k' k then Some v else field k rest
  end.

(** The data of a detector's alert: numbers and strings. *)
Definition plain (v : pyval) : bool :=
  match v with
  | PFloat _ | PInt _ | PStr _ => true
  | _ => false
  end.

(** The interaction at which [refresh_window] puts its fetch: after the
    expiry question, if a window is loaded. *)
Definition fetch_step (l : Locals) (s : State) : nat :=
  match loop_window l with
  | None => steps s
  | Some _ => S (steps s)
  end.

(** No window loaded, or the loaded one answers that it expired. *)
Definition stale (l : Locals) (s : State) : bool :=
  match loop_window l with
  | None => true
  | Some _ => is_expired (env s) (steps s)
  end.

(** The double [abs(0.55 - 0.40)] evaluates to: 0x1.3333333333334p-3,
    printed 0.15000000000000002. *)
Definition delta_0_55_0_40 : float := S754_finite false 5404319552844596 (-55).

(** *** Sample surroundings and inputs *)

(** Surroundings in which every write succeeds and the venue answers
    nothing; only the clock is chosen. *)
Definition quiet (clock : nat -> float) : Oracle :=
  {| time_time := clock;
     alert_log_write := fun _ => true;
     place_limit_buy := fun _ => None;
     get_price := fun _ => None;
     _get_full_book := fun _ => None;
     fetch_window := fun _ => None;
     is_expired := fun _ => false;
     is_active := fun _ => false;
     tau := fun _ => zero;
     next_window_timestamp := fun _ => zero |}.

(** [ManipulationDetector.__init__]. *)
Definition init (e : Oracle) (trade : bool) : State :=
  {| trade_enabled := trade; history := []; alerts := [];
     last_alert_time := ∅; window := None; start_price := None;
     alert_count := 0; trade_count := 0; env := e; steps := 0;
     logger := []; alert_log := []; orders := []; sleeps := [];
     candidates := [] |}.

(** A bare alert of a given type and timestamp. *)
Definition bare_alert (type : string) (t : float) : Alert :=
  {| alert_ts := t; alert_type := type; severity := "MEDIUM";
     message := []; data := [] |}.

(** A clock that reads [a] for the first two interactions and [b] after. *)
Definition two_readings (a b : float) (n : nat) : float :=
  if Nat.ltb n 2 then a else b.

(** 2^-10 seconds: the time between taking a snapshot and gating its alert. *)
Definition lag : float := decimal 1 1024.

(** A snapshot taken at [t] with UP quoted at [mid] on both sides, nothing
    on DOWN, empty books, and the reference price [btc]. *)
Definition quoted (t mid btc : float) : BookSnapshot :=
  {| ts := t; bid_up := mid; ask_up := mid; bid_down := zero; ask_down := zero;
     depth_up_bids := zero; depth_up_asks := zero;
     depth_down_bids := zero; depth_down_asks := zero; btc_price := btc |}.

(** A snapshot with every field zero. *)
Definition blank : BookSnapshot := quoted zero zero zero.

Definition sample_window : Window :=
  {| slug := "btc-updown-5m-1700000100"; token_id_up := "up";
     token_id_down := "down" |}.

(** Surroundings in which the loaded window has expired and the next one is
    ready. *)
Definition rollover : Oracle :=
  {| time_time := fun _ => of_Z 1700000100;
     alert_log_write := fun _ => true;
     place_limit_buy := fun _ => None;
     get_price := fun _ => Some (of_Z 65000);
     _get_full_book :=
       fun _ => Some (quoted (of_Z 1700000100) (decimal 55 100) (of_Z 65000));
     fetch_window := fun _ => Some sample_window;
     is_expired := fun _ => true;
     is_active := fun _ => true;
     tau := fun _ => of_Z 300;
     next_window_timestamp := fun _ => of_Z 1700000400 |}.

(** The book at rest, read at [t]: UP at 0.39/0.41, DOWN at 0.59/0.61, a
    hundred shares on every side, the reference price at 65000. *)
Definition calm (t : float) : BookSnapshot :=
  {| ts := t; bid_up := decimal 39 100; ask_up := decimal 41 100;
     bid_down := decimal 59 100; ask_down := decimal 61 100;
     depth_up_bids := of_Z 100; depth_up_asks := of_Z 100;
     depth_down_bids := of_Z 100; depth_down_asks := of_Z 100;
     btc_price := of_Z 65000 |}.

(** The same book with UP pushed to 0.54/0.56 and DOWN to 0.44/0.46, the
    reference price unmoved. *)
Definition pushed (t : float) : BookSnapshot :=
  {| ts := t; bid_up := decimal 54 100; ask_up := decimal 56 100;
     bid_down := decimal 44 100; ask_down := decimal 46 100;
     depth_up_bids := of_Z 100; depth_up_asks := of_Z 100;
     depth_down_bids := of_Z 100; depth_down_asks := of_Z 100;
     btc_price := of_Z 65000 |}.

(** Surroundings in which a window is open and ten seconds pass per
    interaction; the book is at rest, is pushed from interaction 10 to
    interaction 18, and is at rest again afterwards.  The venue accepts the
    orders placed at even interactions and refuses the others, and the
    alert log can be written at even interactions only. *)
Definition squeeze : Oracle :=
  {| time_time := fun n => of_Z (1700000100 + 10 * Z.of_nat n);
     alert_log_write := Nat.even;
     place_limit_buy :=
       fun n => if Nat.even n then Some ("order-" +:+ pretty n) else None;
     get_price := fun _ => Some (of_Z 65000);
     _get_full_book :=
       fun n =>
         let t := of_Z (1700000100 + 10 * Z.of_nat n) in
         Some (if Nat.leb 10 n && Nat.leb n 18 then pushed t else calm t);
     fetch_window := fun _ => Some sample_window;
     is_expired := fun _ => false;
     is_active := fun _ => true;
     tau := fun _ => of_Z 300;
     next_window_timestamp := fun _ => of_Z 1700000400 |}.

(** The local variables of [run] before the first pass. *)
Definition no_window : Locals := {| loop_window := None; last_status := zero |}.

(** A detector three passes into [squeeze], when the push has just been
    seen, and the local variables of [run] at that point. *)
Definition midway (trade : bool) : State :=
  final (iterations false 3 no_window (init squeeze trade)).

Definition watching (trade : bool) : Locals :=
  match iterations false 3 no_window (init squeeze trade) with
  | Ok l _ => l
  | Raise _ _ => no_window
  end.

(** *** Notions used to state the properties of the detectors and the loop *)

(** [P] holds where [c] ends, returned or raised, if it held where [c]
    started. *)
Definition maintains {A} (P : State -> Prop) (c : M State A) : Prop :=
  forall s, P s -> P (final (c s)).

(** The line of [ALERT_LOG] an alert is written as. *)
Definition log_line (a : Alert) : LogLine :=
  {| ll_ts := alert_ts a; ll_type := alert_type a; ll_severity := severity a;
     ll_message := message a; ll_data := data a |}.

Definition is_nan (x : float) : bool :=
  match x with
  | S754_nan => true
  | _ => false
  end.

(** [drop_pct] of [_check_depth_drop], once the reference depth is known
    not to be zero. *)
Definition drop_pct_value (snap ref : BookSnapshot) : float :=
  quot (sub (total_depth ref) (total_depth snap)) (total_depth ref).

(** The depth-drop candidate of a snapshot against a history, if any. *)
Definition depth_drop_candidates (h : list BookSnapshot) (snap : BookSnapshot)
  : list Alert :=
  if Nat.ltb (length h) DEPTH_DROP_WINDOW then []
  else match h !! (length h - DEPTH_DROP_WINDOW)%nat with
       | Some ref =>
           if ltb (total_depth ref) (of_Z 1) then []
           else if geb (drop_pct_value snap ref) DEPTH_DROP_PCT
           then [depth_drop_alert snap ref (drop_pct_value snap ref)]
           else []
       | None => []
       end.

(** The volume-vanish candidate of one side of one book. *)
Definition volume_vanish_candidate (snap : BookSnapshot) (label : string)
    (now_v prev_v : float) : list Alert :=
  if geb (sub prev_v now_v) VOLUME_VANISH_THRESHOLD
  then [volume_vanish_alert snap label now_v prev_v]
  else [].

Definition volume_vanish_candidates (snap prev : BookSnapshot) : list Alert :=
  (volume_vanish_candidate snap "UP_BIDS" (depth_up_bids snap) (depth_up_bids prev) ++
   volume_vanish_candidate snap "UP_ASKS" (depth_up_asks snap) (depth_up_asks prev) ++
   volume_vanish_candidate snap "DOWN_BIDS" (depth_down_bids snap) (depth_down_bids prev) ++
   volume_vanish_candidate snap "DOWN_ASKS" (depth_down_asks snap) (depth_down_asks prev))%list.

(** [btc_delta_pct] of [_check_divergence]. *)
Definition btc_delta_pct_value (start : float) (snap : BookSnapshot) : float :=
  mul (quot (sub (btc_price snap) start) start) (of_Z 100).

(** [0.50 - DIVERGENCE_THRESHOLD]. *)
Definition cheap : float := sub (decimal 50 100) DIVERGENCE_THRESHOLD.

(** The divergence candidate of a snapshot against the window's start
    price, if any. *)
Definition divergence_candidates (start : option float) (snap : BookSnapshot)
  : list Alert :=
  match start with
  | None => []
  | Some p =>
      if negb (truthy p) || negb (truthy (btc_price snap)) then []
      else if gtb (btc_delta_pct_value p snap) (decimal 3 100)
              && truthy (mid_up snap) && ltb (mid_up snap) cheap
      then [divergence_alert snap true (btc_delta_pct_value p snap)]
      else if ltb (btc_delta_pct_value p snap) (SFopp (decimal 3 100))
              && truthy (mid_down snap) && ltb (mid_down snap) cheap
      then [divergence_alert snap false (btc_delta_pct_value p snap)]
      else []
  end.

(** The spread-blowout candidate of one instrument. *)
Definition spread_candidate (snap : BookSnapshot) (label : string)
    (bid ask prev_bid prev_ask : float) : list Alert :=
  if truthy bid && truthy ask && truthy prev_bid && truthy prev_ask
     && gtb (sub prev_ask prev_bid) zero
     && geb (quot (sub ask bid) (sub prev_ask prev_bid)) (of_Z 3)
     && geb (sub ask bid) (decimal 10 100)
  then [spread_alert snap label (sub prev_ask prev_bid) (sub ask bid)
          (quot (sub ask bid) (sub prev_ask prev_bid))]
  else [].

Definition spread_candidates (snap prev : BookSnapshot) : list Alert :=
  (spread_candidate snap "UP" (bid_up snap) (ask_up snap) (bid_up prev) (ask_up prev) ++
   spread_candidate snap "DOWN" (bid_down snap) (ask_down snap)
     (bid_down prev) (ask_down prev))%list.

(** Everything one analysis pass hands to the gate, in the order the
    detectors run. *)
Definition analyze_candidates (h : list BookSnapshot) (start : option float)
    (snap : BookSnapshot) : list Alert :=
  if Nat.ltb (length h) 2 then []
  else match h !! (length h - 1)%nat with
       | Some prev =>
           (price_jump_candidates snap prev ++ depth_drop_candidates h snap ++
            volume_vanish_candidates snap prev ++ divergence_candidates start snap ++
            spread_candidates snap prev)%list
       | None => []
       end.

(** Whether an order id is truthy: a non-empty string. *)
Definition accepted (order_id : option string) : bool :=
  match order_id with
  | Some (String _ _) => true
  | _ => false
  end.

End Detector.



(* ===================================================================== *)
(** ** signal.py *)
(* ===================================================================== *)

Module Signal.

Import Json.

Definition ALERT_VERSION : Z := 1.

(** The constructor arguments of [AlertBus]. *)
Record Config : Type := {
  file : bool;
  file_path : string;
  socket_enabled : bool;
  socket_path : string;
  webhook_url : option string;
  stdout : bool
}.

(** What the surroundings answer, by interaction count: the rendered
    current time, and whether an output operation completes.  Subscriber
    callbacks and socket clients are named by numbers. *)
Record Oracle : Type := {
  now_isoformat : nat -> string;
  file_write : nat -> bool;
  stdout_write : nat -> bool;
  callback_returns : nat -> nat -> bool;
  sendall : nat -> nat -> bool;
  requests_post : nat -> bool
}.

(** One delivery and what was handed over. *)
Inductive delivery : Type :=
| ToFile (doc : json)
| ToStdout (doc : json)
| ToSubscriber (cb : nat) (alert : pyval)
| ToSocket (client : nat) (doc : json)
| ToWebhook (url : string) (alert : pyval).

(** A delivery as it happened: whether it completed, and whether
    [self._lock] was held while it ran. *)
Record event : Type := {
  what : delivery;
  completed : bool;
  locked : bool
}.

Record State : Type := {
  config : Config;
  _subscribers : list nat;
  _socket_clients : list nat;
  _lock : bool;                      (* held? *)
  env : Oracle;
  steps : nat;
  file_lines : list json;            (* contents of file_path *)
  logger : list text;                (* logger.error *)
  trace : list event
}.

Definition set_subscribers (l : list nat) (s : State) : State :=
  {| config := config s; _subscribers := l;
     _socket_clients := _socket_clients s; _lock := _lock s; env := env s;
     steps := steps s; file_lines := file_lines s; logger := logger s;
     trace := trace s |}.

Definition set_socket_clients (l : list nat) (s : State) : State :=
  {| config := config s; _subscribers := _subscribers s;
     _socket_clients := l; _lock := _lock s; env := env s;
     steps := steps s; file_lines := file_lines s; logger := logger s;
     trace := trace s |}.

Definition set_lock (b : bool) (s : State) : State :=
  {| config := config s; _subscribers := _subscribers s;
     _socket_clients := _socket_clients s; _lock := b; env := env s;
     steps := steps s; file_lines := file_lines s; logger := logger s;
     trace := trace s |}.

Definition set_steps (n : nat) (s : State) : State :=
  {| config := config s; _subscribers := _subscribers s;
     _socket_clients := _socket_clients s; _lock := _lock s; env := env s;
     steps := n; file_lines := file_lines s; logger := logger s;
     trace := trace s |}.

Definition set_file_lines (l : list json) (s : State) : State :=
  {| config := config s; _subscribers := _subscribers s;
     _socket_clients := _socket_clients s; _lock := _lock s; env := env s;
     steps := steps s; file_lines := l; logger := logger s;
     trace := trace s |}.

Definition set_logger (l : list text) (s : State) : State :=
  {| config := config s; _subscribers := _subscribers s;
     _socket_clients := _socket_clients s; _lock := _lock s; env := env s;
     steps := steps s; file_lines := file_lines s; logger := l;
     trace := trace s |}.

Definition set_trace (l : list event) (s : State) : State :=
  {| config := config s; _subscribers := _subscribers s;
     _socket_clients := _socket_clients s; _lock := _lock s; env := env s;
     steps := steps s; file_lines := file_lines s; logger := logger s;
     trace := l |}.

Definition ask {A} (f : Oracle -> nat -> A) : M State A :=
  fun s => Ok (f (env s) (steps s)) (set_steps (S (steps s)) s).

Definition log_error (msg : text) : M State unit :=
  modify (fun s => set_logger (logger s ++ [msg]) s).

(** Note a delivery in the trace, with the lock as it is now. *)
Definition record (d : delivery) (ok : bool) : M State unit :=
  modify (fun s =>
    set_trace (trace s ++ [{| what := d; completed := ok; locked := _lock s |}]) s).

(** [with self._lock: c]: released on the way out, also by an exception.
    The lock is a [threading.Lock], which is not re-entrant: taking it
    while it is held never returns.  This is the run of a caller that
    finds the lock free; the properties that rely on it say so
    ([_lock s = false]). *)
Definition with_lock {A} (c : M State A) : M State A :=
  fun s => match c (set_lock true s) with
           | Ok a s' => Ok a (set_lock false s')
           | Raise e s' => Raise e (set_lock false s')
           end.

(** [json.dumps(v)]. *)
Definition dumps (v : pyval) : M State json :=
  match to_json v with
  | Some doc => ret doc
  | None => raise TypeError
  end.

(** Create a standardized alert dict. *)
Definition make_alert (code severity source : string)
    (data : list (pykey * pyval)) : M State pyval :=
  timestamp <- ask now_isoformat ;;
  ret (PDict [(KStr "version", PInt ALERT_VERSION);
              (KStr "timestamp", PStr timestamp);
              (KStr "code", PStr code);
              (KStr "severity", PStr severity);
              (KStr "source", PStr source);
              (KStr "data", PDict data)]).


Definition unsubscribe (callback : nat) : M State unit :=
  with_lock (modify (fun s =>
    set_subscribers (filter (fun c => c <> callback) (_subscribers s)) s)).

(** The accept loop of [_start_socket_server], one connection. *)
Definition accept (client : nat) : M State unit :=
  with_lock (modify (fun s =>
    set_socket_clients (_socket_clients s ++ [client]) s)).

(** The [try] body of the file output:
    [with open(self.file_path, "a") as f: f.write(json.dumps(alert) + "\n")]. *)
Definition write_file (alert : pyval) : M State unit :=
  ok <- ask file_write ;;
  if negb ok then raise OSError
  else
    doc <- dumps alert ;;
    modify (fun s => set_file_lines (file_lines s ++ [doc]) s) ;;
    record (ToFile doc) true.

(** [print(json.dumps(alert), flush=True)]. *)
Definition print_alert (alert : pyval) : M State unit :=
  doc <- dumps alert ;;
  ok <- ask stdout_write ;;
  record (ToStdout doc) ok ;;
  if ok : bool then ret tt else raise OSError.

(** [try: cb(alert)  except Exception as e: logger.error(...)], for a
    callback that returns or raises an [Exception] and leaves the bus
    alone.  (A callback runs under the lock: one that calls [subscribe],
    [unsubscribe] or [emit] never returns; and what is no [Exception], a
    [KeyboardInterrupt] say, escapes the [except].) *)
Definition call_subscriber (alert : pyval) (cb : nat) : M State unit :=
  ok <- ask (fun o n => callback_returns o n cb) ;;
  record (ToSubscriber cb alert) ok ;;
  if ok : bool then ret tt else log_error [Txt "Subscriber error: "].

(** [list.remove(x)]: the first occurrence, [ValueError] if there is none. *)
Fixpoint list_remove (x : nat) (l : list nat) : option (list nat) :=
  match l with
  | [] => None
  | y :: rest =>
      if decide (y = x) then Some rest
      else cons y <$> list_remove x rest
  end.

Definition remove_client (d : nat) : M State unit :=
  cs <- gets _socket_clients ;;
  match list_remove d cs with
  | Some cs' => modify (set_socket_clients cs')
  | None => raise ValueError
  end.

(** The loop [for client in self._socket_clients: try: client.sendall(msg)
    except Exception: dead.append(client)], returning [dead]. *)
Fixpoint send_to_clients (doc : json) (clients dead : list nat)
  : M State (list nat) :=
  match clients with
  | [] => ret dead
  | client :: rest =>
      ok <- ask (fun o n => sendall o n client) ;;
      record (ToSocket client doc) ok ;;
      send_to_clients doc rest (if ok : bool then dead else dead ++ [client])%list
  end.

(** Send alert to all connected socket clients. *)
Definition _broadcast_socket (alert : pyval) : M State unit :=
  clients <- gets _socket_clients ;;
  match clients with
  | [] => ret tt
  | _ :: _ =>
      msg <- dumps alert ;;
      with_lock
        (clients <- gets _socket_clients ;;
         dead <- send_to_clients msg clients [] ;;
         for_each dead remove_client)
  end.

(** POST alert to webhook URL.  [requests] serialises the alert itself,
    inside the [try]. *)
Definition _send_webhook (url : string) (alert : pyval) : M State unit :=
  try_except
    (ok <- ask requests_post ;;
     let sent := (ok && bool_decide (is_Some (to_json alert)))%bool in
     record (ToWebhook url alert) sent ;;
     if sent then ret tt else raise OSError)
    (fun _ => log_error [Txt "Webhook error: "]).

(** Emit an alert to all configured outputs.  This is the run of one
    thread with the bus to itself: the accept thread of
    [_start_socket_server] ([accept] above) and other callers of the bus
    are not interleaved with it. *)
Definition emit (code severity source : string) (data : list (pykey * pyval))
  : M State pyval :=
  alert <- make_alert code severity source data ;;
  cfg <- gets config ;;
  (* File output *)
  (if file cfg
   then try_except (write_file alert)
          (fun _ => log_error [Txt "Failed to write alert to file: "])
   else ret tt) ;;
  (* Stdout *)
  (if stdout cfg then print_alert alert else ret tt) ;;
  (* In-process subscribers *)
  with_lock (subs <- gets _subscribers ;;
             for_each subs (call_subscriber alert)) ;;
  (* Unix socket clients *)
  _broadcast_socket alert ;;
  (* Webhook *)
  match webhook_url cfg with
  | Some (String c u) => _send_webhook (String c u) alert
  | _ => ret tt
  end ;;
  ret alert.

(** *** Notions used to state the properties *)

(** Where the lock stands in the code for each kind of delivery:
    subscriber callbacks and socket writes run inside [with self._lock],
    the file append, the print and the webhook POST outside it. *)
Definition lock_discipline (e : event) : bool :=
  match what e with
  | ToSubscriber _ _ | ToSocket _ _ => locked e
  | ToFile _ | ToStdout _ | ToWebhook _ _ => negb (locked e)
  end.

(** [c], started with the lock in state [b], ends with the lock in state
    [b] and adds to the trace only deliveries that obey [lock_discipline]. *)
Definition keeps {A} (b : bool) (c : M State A) : Prop :=
  forall s, _lock s = b ->
    _lock (final (c s)) = b /\
    exists new, trace (final (c s)) = (trace s ++ new)%list /\
                forallb lock_discipline new = true.




(** The alert [make_alert] builds from this state. *)
Definition alert_of (s : State) (code severity source : string)
    (data : list (pykey * pyval)) : pyval :=
  PDict [(KStr "version", PInt ALERT_VERSION);
         (KStr "timestamp", PStr (now_isoformat (env s) (steps s)));
         (KStr "code", PStr code);
         (KStr "severity", PStr severity);
         (KStr "source", PStr source);
         (KStr "data", PDict data)].

(** *** Notions used to state the properties of the subscribers and clients *)

(** The clients still connected after a broadcast that starts at
    interaction [n]: those whose [sendall] completed (the clients are
    written one interaction apart, in list order). *)
Fixpoint survivors (e : Oracle) (n : nat) (clients : list nat) : list nat :=
  match clients with
  | [] => []
  | c :: rest =>
      if sendall e n c then c :: survivors e (S n) rest
      else survivors e (S n) rest
  end.

(** The others: the list [dead] of [_broadcast_socket]. *)
Fixpoint casualties (e : Oracle) (n : nat) (clients : list nat) : list nat :=
  match clients with
  | [] => []
  | c :: rest =>
      if sendall e n c then casualties e (S n) rest
      else c :: casualties e (S n) rest
  end.

(** A delivery to a subscriber or to a socket client goes to one of [subs],
    respectively [clients]. *)
Definition addressed (subs clients : list nat) (e : event) : Prop :=
  match what e with
  | ToSubscriber cb _ => cb ∈ subs
  | ToSocket c _ => c ∈ clients
  | _ => True
  end.

(** From [s], [c] leaves the subscribers as they are, connects no client,
    and delivers only to subscribers among [subs] and clients among
    [clients], provided [s] has these subscribers and no other client. *)
Definition confined {A} (subs clients : list nat) (c : M State A) (s : State)
  : Prop :=
  _subscribers s = subs -> _socket_clients s ⊆ clients ->
  _subscribers (final (c s)) = subs /\
  _socket_clients (final (c s)) ⊆ clients /\
  exists new, trace (final (c s)) = (trace s ++ new)%list /\
              Forall (addressed subs clients) new.

(** The subscriber callbacks among a list of deliveries, in order. *)
Definition called (ds : list delivery) : list nat :=
  omap (fun d => match d with ToSubscriber cb _ => Some cb | _ => None end) ds.

(** *** Sample buses *)

(** Surroundings in which every output completes. *)
Definition obliging : Oracle :=
  {| now_isoformat := fun _ => "2026-02-21T18:45:00+00:00";
     file_write := fun _ => true;
     stdout_write := fun _ => true;
     callback_returns := fun _ _ => true;
     sendall := fun _ _ => true;
     requests_post := fun _ => true |}.

(** The same, with standard output closed. *)
Definition stdout_closed : Oracle :=
  {| now_isoformat := fun _ => "2026-02-21T18:45:00+00:00";
     file_write := fun _ => true;
     stdout_write := fun _ => false;
     callback_returns := fun _ _ => true;
     sendall := fun _ _ => true;
     requests_post := fun _ => true |}.

(** A bus as [AlertBus.__init__] leaves it, then given subscribers and
    connected clients. *)
Definition bus (cfg : Config) (e : Oracle) (subs clients : list nat) : State :=
  {| config := cfg; _subscribers := subs; _socket_clients := clients;
     _lock := false; env := e; steps := 0; file_lines := []; logger := [];
     trace := [] |}.

Definition file_only : Config :=
  {| file := true; file_path := "data/alerts.jsonl"; socket_enabled := false;
     socket_path := "/tmp/nonce-guard.sock"; webhook_url := None;
     stdout := false |}.

Definition everything : Config :=
  {| file := true; file_path := "data/alerts.jsonl"; socket_enabled := true;
     socket_path := "/tmp/nonce-guard.sock";
     webhook_url := Some "https://example.org/hook"; stdout := false |}.

Definition with_stdout : Config :=
  {| file := true; file_path := "data/alerts.jsonl"; socket_enabled := true;
     socket_path := "/tmp/nonce-guard.sock";
     webhook_url := Some "https://example.org/hook"; stdout := true |}.

End Signal.

(* ===================================================================== *)
(** ** nonce_monitor.py *)
(* ===================================================================== *)

Module NonceMonitor.

Import Json.

(** *** BTC 5-min window helpers *)

(** [%H], [%M], [%S]: two digits. *)
Definition two_digits (n : Z) : string :=
  if n <? 10 then "0" +:+ pretty n else pretty n.

(** [strftime("%H:%M:%S")] of the instant [secs] seconds after a midnight
    (24:00:00 is 00:00:00 of the next day). *)
Definition hms (secs : Z) : string :=
  two_digits (secs / 3600 mod 24) +:+ ":" +:+ two_digits (secs / 60 mod 60)
  +:+ ":" +:+ two_digits (secs mod 60).

(** The dict [get_btc_window] returns. *)
Record BtcWindow : Type := {
  window_start : string;
  window_end : string;
  remaining_secs : float;
  elapsed_secs : float;
  pct_elapsed : float
}.

(** [get_btc_window(ts)] for an [int] timestamp, which is what
    [poll_blocks] passes (the block's timestamp), so that [dt.microsecond]
    is 0.  [dt.hour * 3600 + dt.minute * 60 + dt.second] of a UTC instant is
    [ts mod 86400]; the two differences are whole seconds, which
    [total_seconds()] returns as floats.  [None]: [datetime] raises,
    the instant or the end of its window lying outside the years 1 to
    9999. *)
Definition get_btc_window (ts : Z) : option BtcWindow :=
  if (-62135596800 <=? ts) && (ts <? 253402300500) then
    let total_seconds := ts mod 86400 in
    let window_start_secs := total_seconds / 300 * 300 in
    let window_end_secs := window_start_secs + 300 in
    let remaining := of_Z (window_end_secs - total_seconds) in
    let elapsed := of_Z (total_seconds - window_start_secs) in
    Some {| window_start := hms window_start_secs;
            window_end := hms window_end_secs;
            remaining_secs := round remaining 1;
            elapsed_secs := round elapsed 1;
            pct_elapsed := round (mul (quot elapsed (of_Z 300)) (of_Z 100)) 1 |}
  else None.

(** *** Statistics tracker *)

(** The event dict [poll_blocks] builds. *)
Record Event : Type := {
  timestamp : string;
  caller : string;
  tx_hash : string;
  block : Z;
  gas_price_gwei : float;
  window : BtcWindow;
  source : string
}.

(** [NonceStats].  The two [defaultdict]s are kept as their items in
    insertion order, which is the order [print_summary] walks them in. *)
Record NonceStats : Type := {
  events : list Event;
  by_address : list (string * list Event);
  hourly_counts : list (string * Z);
  window_timing : list float
}.

(** [NonceStats.__init__]. *)
Definition empty_stats : NonceStats :=
  {| events := []; by_address := []; hourly_counts := []; window_timing := [] |}.

(** [d.get(k)]. *)
Fixpoint get {V} (k : string) (d : list (string * V)) : option V :=
  match d with
  | [] => None
  | (k', v) :: rest => if String.eqb k' k then Some v else get k rest
  end.

(** [d[k].append(x)] on a [defaultdict(list)]. *)
Fixpoint append_at {V} (k : string) (x : V) (d : list (string * list V))
  : list (string * list V) :=
  match d with
  | [] => [(k, [x])]
  | (k', v) :: rest =>
      if String.eqb k' k then (k', (v ++ [x])%list) :: rest
      else (k', v) :: append_at k x rest
  end.

(** [d[k] += 1] on a [defaultdict(int)]. *)
Fixpoint increment (k : string) (d : list (string * Z)) : list (string * Z) :=
  match d with
  | [] => [(k, 1)]
  | (k', n) :: rest =>
      if String.eqb k' k then (k', n + 1) :: rest
      else (k', n) :: increment k rest
  end.

(** [s[:n]]. *)
Definition str_take (n : nat) (s : string) : string := substring 0 n s.

(** [s[-n:]]. *)
Definition str_tail (n : nat) (s : string) : string :=
  substring (String.length s - n) n s.

(** [NonceStats.add]: the stats object after the call. *)
Definition add (event : Event) (stats : NonceStats) : NonceStats :=
  {| events := (events stats ++ [event])%list;
     by_address := append_at (caller event) event (by_address stats);
     hourly_counts := increment (str_take 13 (timestamp event)) (hourly_counts stats);
     window_timing := (window_timing stats ++ [remaining_secs (window event)])%list |}.

(** [sum(xs)] of floats: from the [int] 0, left to right. *)
Definition py_sum (xs : list float) : float := fold_left Float64.add xs (of_Z 0).

(** [sum(1 for x in xs if p x)]. *)
Definition count_if {A} (p : A -> bool) (xs : list A) : Z :=
  Z.of_nat (length (List.filter p xs)).

(** [sorted(items, key=lambda x: -len(x[1]))]: the sort is stable, so an
    item goes before the first one that has strictly fewer events. *)
Fixpoint insert_by_calls {V} (x : string * list V) (l : list (string * list V))
  : list (string * list V) :=
  match l with
  | [] => [x]
  | y :: rest =>
      if Nat.ltb (length (snd y)) (length (snd x)) then x :: y :: rest
      else y :: insert_by_calls x rest
  end.

Definition sorted_by_calls {V} (l : list (string * list V)) : list (string * list V) :=
  fold_left (fun acc x => insert_by_calls x acc) l [].

(** [sorted(items)] of (hour, count) pairs with distinct hours: by hour. *)
Fixpoint insert_by_hour (x : string * Z) (l : list (string * Z)) : list (string * Z) :=
  match l with
  | [] => [x]
  | y :: rest =>
      if String.ltb (fst x) (fst y) then x :: y :: rest
      else y :: insert_by_hour x rest
  end.

Definition sorted_by_hour (l : list (string * Z)) : list (string * Z) :=
  fold_left (fun acc x => insert_by_hour x acc) l [].

(** [l[-n:]]. *)
Definition last_n {A} (n : nat) (l : list A) : list A := drop (length l - n) l.

(** A line feed. *)
Definition nl : string := String (Ascii.ascii_of_nat 10) "".

(** [print(...)] into the lines of standard output. *)
Definition print_line (line : text) : M (list text) unit :=
  modify (fun out => (out ++ [line])%list).

(** The three counts of the timing distribution. *)
Definition near_expiry (stats : NonceStats) : Z :=
  count_if (fun r => ltb r (of_Z 30)) (window_timing stats).
Definition mid_window (stats : NonceStats) : Z :=
  count_if (fun r => leb (of_Z 30) r && ltb r (of_Z 150)) (window_timing stats).
Definition early_window (stats : NonceStats) : Z :=
  count_if (fun r => geb r (of_Z 150)) (window_timing stats).

(** [x / n] for a number [x] and an [int] [n]: [ZeroDivisionError] exactly
    when [n] is 0 (an [int] other than 0 does not convert to 0.0). *)
Definition div_by_int {S} (x : float) (n : Z) : M S float :=
  if n =? 0 then raise ZeroDivisionError else ret (quot x (of_Z n)).

(** [x / total * 100] for two [int]s. *)
Definition percent (x total : Z) : M (list text) float :=
  q <- div_by_int (of_Z x) total ;;
  ret (mul q (of_Z 100)).

Definition rule : frag := Txt "======================================================================".

Definition print_summary (stats : NonceStats) : M (list text) unit :=
  let total := Z.of_nat (length (events stats)) in
  if total =? 0 then ret tt
  else
    print_line [Txt nl; rule] ;;
    print_line [Txt "📊 NONCE MONITOR STATS — "; Fmt "" (PInt total);
                Txt " events captured"] ;;
    print_line [rule] ;;
    (* Top callers *)
    print_line [Txt nl; Txt "🏆 Top incrementNonce callers:"] ;;
    for_each (take 15 (sorted_by_calls (by_address stats)))
      (fun '(addr, evts) =>
         avg_remaining <-
           div_by_int (py_sum (map (fun e => remaining_secs (window e)) evts))
                      (Z.of_nat (length evts)) ;;
         print_line [Txt "  "; Txt addr; Txt ": ";
                     Fmt "" (PInt (Z.of_nat (length evts))); Txt " calls (avg ";
                     Fmt ".0f" (PFloat avg_remaining); Txt "s before window end)"]) ;;
    (* Timing distribution *)
    print_line [Txt nl; Txt "⏱  Timing distribution:"] ;;
    p1 <- percent (near_expiry stats) total ;;
    print_line [Txt "  Last 30s of window:  "; Fmt "" (PInt (near_expiry stats));
                Txt " ("; Fmt ".0f" (PFloat p1); Txt "%)"] ;;
    p2 <- percent (mid_window stats) total ;;
    print_line [Txt "  Mid window (30-150s): "; Fmt "" (PInt (mid_window stats));
                Txt " ("; Fmt ".0f" (PFloat p2); Txt "%)"] ;;
    p3 <- percent (early_window stats) total ;;
    print_line [Txt "  Early window (150s+): "; Fmt "" (PInt (early_window stats));
                Txt " ("; Fmt ".0f" (PFloat p3); Txt "%)"] ;;
    (* Hourly *)
    match hourly_counts stats with
    | [] => ret tt
    | _ :: _ =>
        print_line [Txt nl; Txt "📅 Hourly counts:"] ;;
        for_each (last_n 12 (sorted_by_hour (hourly_counts stats)))
          (fun '(hour, count) =>
             print_line [Txt "  "; Txt hour; Txt ": "; Fmt "" (PInt count)])
    end ;;
    print_line [rule; Txt nl].

(** *** Event logging *)

(** Text made of ASCII characters only, which is what an address, a
    hash or an ISO timestamp is. *)
Definition is_ascii (s : string) : bool :=
  forallb (fun c => Nat.ltb (Ascii.nat_of_ascii c) 128) (list_ascii_of_string s).

(** [str.lower()] on ASCII text (see [is_ascii]): the letters A to Z are
    moved to a to z, every other character is kept. *)
Definition lower_ascii (c : Ascii.ascii) : Ascii.ascii :=
  let n := Ascii.nat_of_ascii c in
  if (Nat.leb 65 n && Nat.leb n 90)%bool then Ascii.ascii_of_nat (n + 32) else c.

Fixpoint lower (s : string) : string :=
  match s with
  | EmptyString => EmptyString
  | String c rest => String (lower_ascii c) (lower rest)
  end.

(** What the surroundings answer, by interaction count:
    - [print_ok]: whether [print(...)] completes;
    - [append_ok]: whether the [with open(EVENTS_FILE, "a")] block opens
      and writes;
    - [signal_imports]: whether [from signal import emit, ...] finds the
      names (the alert bus is optional);
    - [makedirs_ok]: whether [os.makedirs] in [AlertBus.__init__]
      completes;
    - [bus_env], [alerts_file]: the surroundings of a bus built now, and
      the present contents of its file. *)
Record Oracle : Type := {
  print_ok : nat -> bool;
  append_ok : nat -> bool;
  signal_imports : nat -> bool;
  makedirs_ok : nat -> bool;
  bus_env : Signal.Oracle;
  alerts_file : list json
}.

Record State : Type := {
  stats : NonceStats;                    (* the [stats] argument *)
  stdout_lines : list text;
  events_file : list json;               (* contents of EVENTS_FILE *)
  _default_bus : option Signal.State;    (* the global of signal.py *)
  env : Oracle;
  steps : nat
}.

Definition set_stats (x : NonceStats) (s : State) : State :=
  {| stats := x; stdout_lines := stdout_lines s; events_file := events_file s;
     _default_bus := _default_bus s; env := env s; steps := steps s |}.

Definition set_stdout_lines (x : list text) (s : State) : State :=
  {| stats := stats s; stdout_lines := x; events_file := events_file s;
     _default_bus := _default_bus s; env := env s; steps := steps s |}.

Definition set_events_file (x : list json) (s : State) : State :=
  {| stats := stats s; stdout_lines := stdout_lines s; events_file := x;
     _default_bus := _default_bus s; env := env s; steps := steps s |}.

Definition set_default_bus (x : option Signal.State) (s : State) : State :=
  {| stats := stats s; stdout_lines := stdout_lines s;
     events_file := events_file s; _default_bus := x; env := env s;
     steps := steps s |}.

Definition set_steps (n : nat) (s : State) : State :=
  {| stats := stats s; stdout_lines := stdout_lines s;
     events_file := events_file s; _default_bus := _default_bus s;
     env := env s; steps := n |}.

Definition ask {A} (f : Oracle -> nat -> A) : M State A :=
  fun s => Ok (f (env s) (steps s)) (set_steps (S (steps s)) s).

(** The dict an event is, and the dict of its window. *)
Definition window_dict (w : BtcWindow) : pyval :=
  PDict [(KStr "window_start", PStr (window_start w));
         (KStr "window_end", PStr (window_end w));
         (KStr "remaining_secs", PFloat (remaining_secs w));
         (KStr "elapsed_secs", PFloat (elapsed_secs w));
         (KStr "pct_elapsed", PFloat (pct_elapsed w))].

Definition event_dict (e : Event) : pyval :=
  PDict [(KStr "timestamp", PStr (timestamp e));
         (KStr "caller", PStr (caller e));
         (KStr "tx_hash", PStr (tx_hash e));
         (KStr "block", PInt (block e));
         (KStr "gas_price_gwei", PFloat (gas_price_gwei e));
         (KStr "window", window_dict (window e));
         (KStr "source", PStr (source e))].

(** [AlertBus()]: the default arguments (file output only), no subscriber,
    no client, the lock free. *)
Definition new_bus (e : Oracle) : Signal.State :=
  {| Signal.config := Signal.file_only; Signal._subscribers := [];
     Signal._socket_clients := []; Signal._lock := false;
     Signal.env := bus_env e; Signal.steps := 0;
     Signal.file_lines := alerts_file e; Signal.logger := [];
     Signal.trace := [] |}.

(** [signal.get_bus()] with no argument: the module's bus, built on first
    use. *)
Definition get_bus : M State Signal.State :=
  existing <- gets _default_bus ;;
  match existing with
  | Some b => ret b
  | None =>
      ok <- ask makedirs_ok ;;
      if ok : bool then
        e <- gets env ;;
        modify (set_default_bus (Some (new_bus e))) ;;
        ret (new_bus e)
      else raise OSError
  end.

(** [signal.emit(code, severity, source, data)]: [emit] of the default
    bus, which is the object the global holds. *)
Definition signal_emit (code severity source : string)
    (data : list (pykey * pyval)) : M State pyval :=
  b <- get_bus ;;
  fun s => match Signal.emit code severity source data b with
           | Ok alert b' => Ok alert (set_default_bus (Some b') s)
           | Raise e b' => Raise e (set_default_bus (Some b') s)
           end.

(** The three choices [log_event] makes from [is_late] and [is_new]. *)
Definition alert_code (is_late is_new : bool) : string :=
  if is_late then "SUSPICIOUS_TIMING"
  else if is_new then "NEW_EXPLOITER" else "NONCE_INCREMENT".

Definition alert_severity (is_late : bool) : string :=
  if is_late then "warning" else "info".

Definition alert_action (is_late : bool) : string :=
  if is_late then "CANCEL" else "HOLD".

(** The [data] of the alert. *)
Definition alert_data (event : Event) (is_late : bool) : list (pykey * pyval) :=
  let w := window event in
  [(KStr "caller", PStr (caller event));
   (KStr "tx_hash", PStr (tx_hash event));
   (KStr "block", PInt (block event));
   (KStr "market_window",
    PDict [(KStr "window_id", PStr ("btc-updown-5m-" +:+ window_start w));
           (KStr "seconds_remaining", PFloat (remaining_secs w));
           (KStr "pct_elapsed", PFloat (pct_elapsed w))]);
   (KStr "action", PStr (alert_action is_late))].

(** The last part of [log_event]: emit universal alert signal.  Whatever
    is raised inside, a failed import included, is swallowed
    ([except Exception: pass]). *)
Definition emit_alert (event : Event) : M State unit :=
  try_except
    (found <- ask signal_imports ;;
     if found : bool then
       let is_late := ltb (remaining_secs (window event)) (of_Z 30) in
       seen <- gets (fun s => default [] (get (lower (caller event))
                                            (by_address (stats s)))) ;;
       let is_new := Nat.leb (length seen) 1 in
       signal_emit (alert_code is_late is_new) (alert_severity is_late)
         "nonce_monitor" (alert_data event is_late) ;;
       ret tt
     else ret tt (* ImportError, which the handler swallows *))
    (fun _ => ret tt).

(** The console line of an event. *)
Definition console_line (event : Event) : text :=
  let w := window event in
  let caller_short :=
    str_take 8 (caller event) +:+ "..." +:+ str_tail 4 (caller event) in
  let symbol :=
    if ltb (remaining_secs w) (of_Z 30) then "🔴"
    else if ltb (remaining_secs w) (of_Z 60) then "🟡" else "🟢" in
  [Txt symbol; Txt " incrementNonce | "; Txt (timestamp event);
   Txt " | "; Txt caller_short; Txt " | window ";
   Txt (window_start w); Txt "-"; Txt (window_end w); Txt " | ";
   Fmt "" (PFloat (remaining_secs w)); Txt "s left | ";
   Fmt "" (PFloat (gas_price_gwei event)); Txt " gwei | tx: ";
   Txt (str_take 18 (tx_hash event)); Txt "..."].

(** Log a nonce event to console, file, and emit universal alert signal.
    The [stats] argument is the [stats] of the state. *)
Definition log_event (event : Event) : M State unit :=
  modify (fun s => set_stats (add event (stats s)) s) ;;
  printed <- ask print_ok ;;
  (if printed : bool then
     modify (fun s => set_stdout_lines (stdout_lines s ++ [console_line event])%list s)
   else raise OSError) ;;
  appended <- ask append_ok ;;
  (if appended : bool then
     match to_json (event_dict event) with
     | Some doc => modify (fun s => set_events_file (events_file s ++ [doc])%list s)
     | None => raise TypeError
     end
   else raise OSError) ;;
  emit_alert event.

(** *** Notions used to state the properties *)

(** Two floats are the same datum. *)
Definition same (x y : float) : bool :=
  match x, y with
  | S754_zero a, S754_zero b => Bool.eqb a b
  | S754_infinity a, S754_infinity b => Bool.eqb a b
  | S754_nan, S754_nan => true
  | S754_finite a m e, S754_finite b n f =>
      Bool.eqb a b && Pos.eqb m n && Z.eqb e f
  | _, _ => false
  end.

(** [data[k]] for a string key. *)
Definition field_of (k : string) (d : list (pykey * pyval)) : option pyval :=
  dict_get (KStr k) d.

(** The statistics after a run of events. *)
Definition record_all (evs : list Event) (stats : NonceStats) : NonceStats :=
  fold_left (fun st e => add e st) evs stats.

(** The events of one caller, in order. *)
Definition events_of (addr : string) (evs : list Event) : list Event :=
  List.filter (fun e => String.eqb (caller e) addr) evs.

(** The events of one hour. *)
Definition events_in_hour (hour : string) (evs : list Event) : list Event :=
  List.filter (fun e => String.eqb (str_take 13 (timestamp e)) hour) evs.

(** *** Sample surroundings and inputs *)

Definition willing : Oracle :=
  {| print_ok := fun _ => true; append_ok := fun _ => true;
     signal_imports := fun _ => true; makedirs_ok := fun _ => true;
     bus_env := Signal.obliging; alerts_file := [] |}.

Definition start (e : Oracle) : State :=
  {| stats := empty_stats; stdout_lines := []; events_file := [];
     _default_bus := None; env := e; steps := 0 |}.

(** An [incrementNonce] call seen at [ts] (an instant [get_btc_window]
    accepts). *)
Definition seen_at (ts : Z) (who : string) : Event :=
  {| timestamp := "2023-11-14T22:16:40+00:00"; caller := who;
     tx_hash := "0xabc"; block := 50000000; gas_price_gwei := of_Z 30;
     window := default {| window_start := ""; window_end := "";
                          remaining_secs := zero; elapsed_secs := zero;
                          pct_elapsed := zero |} (get_btc_window ts);
     source := "confirmed" |}.

End NonceMonitor.

(* ===================================================================== *)
(** ** blacklist.py *)
(* ===================================================================== *)

Module Blacklist.

Import Json.

Definition NONCE_EVENTS_FILE : string := "data/nonce_events.jsonl".
Definition MANUAL_BLACKLIST_FILE : string := "data/blacklist_manual.txt".
Definition REFRESH_INTERVAL : float := of_Z 60.

(** *** The [str] methods used *)

(** The ASCII characters [str.isspace] holds of: tab to carriage return,
    the separators 28 to 31, and the space. *)
Definition is_space (c : Ascii.ascii) : bool :=
  let n := Ascii.nat_of_ascii c in
  (Nat.leb 9 n && Nat.leb n 13) || (Nat.leb 28 n && Nat.leb n 32).

Fixpoint lstrip (s : string) : string :=
  match s with
  | EmptyString => EmptyString
  | String c rest => if is_space c then lstrip rest else s
  end.

Fixpoint rstrip (s : string) : string :=
  match s with
  | EmptyString => EmptyString
  | String c rest =>
      match rstrip rest with
      | EmptyString => if is_space c then EmptyString else String c EmptyString
      | kept => String c kept
      end
  end.

(** [s.strip()] on ASCII text. *)
Definition strip (s : string) : string := rstrip (lstrip s).

(** [s.lower()] on ASCII text. *)
Definition lower : string -> string := NonceMonitor.lower.

(** [s.startswith(p)]. *)
Definition startswith (s p : string) : bool := String.prefix p s.

(** The truth value of a [str]. *)
Definition nonempty (s : string) : bool := negb (String.eqb s "").

(** *** The two files *)

(** A line of [nonce_events.jsonl] as [refresh] meets it: nothing but
    white space, text [json.loads] rejects with [JSONDecodeError], the
    spelling of a document [json.loads] returns, or text on which
    [json.loads] raises another exception: [RecursionError] when it is
    nested too deep, [ValueError] when it holds an integer of more digits
    than [int] converts. *)
Inductive line : Type :=
| Blank
| Garbage
| Spells (doc : json)
| TooDeep
| TooLong.

(** What [with open(path) as f: for line in f] delivers: the lines read,
    and whether an exception then ended the reading ([open] itself raising
    is no line and an exception). *)
Record Reading (A : Type) : Type := {
  got : list A;
  cut : bool
}.
Arguments got {A} _.
Arguments cut {A} _.

(** What ends a [try] block of [refresh]. *)
Inductive error : Type :=
| JSONDecodeError
| RecursionError
| DigitLimitError
| AttributeError
| ReadError.

Definition error_name (e : error) : string :=
  match e with
  | JSONDecodeError => "JSONDecodeError"
  | RecursionError => "RecursionError"
  | DigitLimitError => "ValueError"
  | AttributeError => "AttributeError"
  | ReadError => "OSError"
  end.

(** What the surroundings answer, by interaction count:
    [os.path.exists] and the reading of each file, and the clock. *)
Record Oracle : Type := {
  events_exists : nat -> bool;
  events_read : nat -> Reading line;
  manual_exists : nat -> bool;
  manual_read : nat -> Reading string;
  time_time : nat -> float
}.

(** The [Blacklist] object together with what it acts on. *)
Record State : Type := {
  _addresses : gset string;
  _lock : bool;
  _last_refresh : float;
  env : Oracle;
  steps : nat;
  logger : list (string * text)
}.

Definition set_addresses (x : gset string) (s : State) : State :=
  {| _addresses := x; _lock := _lock s; _last_refresh := _last_refresh s;
     env := env s; steps := steps s; logger := logger s |}.

Definition set_lock (x : bool) (s : State) : State :=
  {| _addresses := _addresses s; _lock := x; _last_refresh := _last_refresh s;
     env := env s; steps := steps s; logger := logger s |}.

Definition set_last_refresh (x : float) (s : State) : State :=
  {| _addresses := _addresses s; _lock := _lock s; _last_refresh := x;
     env := env s; steps := steps s; logger := logger s |}.

Definition set_steps (x : nat) (s : State) : State :=
  {| _addresses := _addresses s; _lock := _lock s;
     _last_refresh := _last_refresh s; env := env s; steps := x;
     logger := logger s |}.

Definition set_logger (x : list (string * text)) (s : State) : State :=
  {| _addresses := _addresses s; _lock := _lock s;
     _last_refresh := _last_refresh s; env := env s; steps := steps s;
     logger := x |}.

Definition ask {A} (f : Oracle -> nat -> A) : M State A :=
  fun s => Ok (f (env s) (steps s)) (set_steps (S (steps s)) s).

Definition log (level : string) (msg : text) : M State unit :=
  modify (fun s => set_logger (logger s ++ [(level, msg)])%list s).

(** [with self._lock: c]. *)
Definition with_lock {A} (c : M State A) : M State A :=
  fun s => match c (set_lock true s) with
           | Ok a s' => Ok a (set_lock false s')
           | Raise e s' => Raise e (set_lock false s')
           end.

(** *** refresh *)

(** [json.loads(line)]. *)
Definition loads (l : line) : error + pyval :=
  match l with
  | Spells doc => inr (of_json doc)
  | TooDeep => inl RecursionError
  | TooLong => inl DigitLimitError
  | Blank | Garbage => inl JSONDecodeError
  end.

(** [v.get("caller", "").strip().lower()]: only a dict has [get], only a
    [str] has [strip]. *)
Definition caller_of (v : pyval) : error + string :=
  match v with
  | PDict kv =>
      match default (PStr "") (dict_get (KStr "caller") kv) with
      | PStr c => inr (lower (strip c))
      | _ => inl AttributeError
      end
  | _ => inl AttributeError
  end.

(** The body of the loop over the lines of the events file; [addrs] is
    the set being built. *)
Definition events_line (l : line) (addrs : gset string) : error + gset string :=
  match l with
  | Blank => inr addrs                                   (* continue *)
  | _ =>
      match
        (match loads l with
         | inr v =>
             match caller_of v with
             | inr caller =>
                 inr (if nonempty caller then {[ caller ]} ∪ addrs else addrs)
             | inl e => inl e
             end
         | inl e => inl e
         end)
      with
      | inl JSONDecodeError => inr addrs                 (* pass *)
      | r => r
      end
  end.

(** The body of the loop over the lines of the manual file. *)
Definition manual_line (l : string) (addrs : gset string) : error + gset string :=
  let addr := lower (strip l) in
  inr (if nonempty addr && negb (startswith addr "#")
       then {[ addr ]} ∪ addrs else addrs).

(** [for line in f: body], inside [try]: the set as the loop left it, and
    the exception that ended it, if one did. *)
Fixpoint scan {A} (body : A -> gset string -> error + gset string)
    (lines : list A) (cut : bool) (addrs : gset string)
  : gset string * option error :=
  match lines with
  | [] => (addrs, if cut then Some ReadError else None)
  | l :: rest =>
      match body l addrs with
      | inr addrs' => scan body rest cut addrs'
      | inl e => (addrs, Some e)
      end
  end.

(** One of the two [if os.path.exists(path): try: ... except Exception]
    blocks. *)
Definition read_file {A} (path : string) (present : Oracle -> nat -> bool)
    (reading : Oracle -> nat -> Reading A)
    (body : A -> gset string -> error + gset string) (addrs : gset string)
  : M State (gset string) :=
  there <- ask present ;;
  if there : bool then
    r <- ask reading ;;
    match scan body (got r) (cut r) addrs with
    | (addrs', Some e) =>
        log "WARNING" [Txt "Failed to read "; Txt path; Txt ": ";
                       Txt (error_name e)] ;;
        ret addrs'
    | (addrs', None) => ret addrs'
    end
  else ret addrs.

Definition refresh : M State unit :=
  addrs <- read_file NONCE_EVENTS_FILE events_exists events_read events_line ∅ ;;
  addrs <- read_file MANUAL_BLACKLIST_FILE manual_exists manual_read manual_line addrs ;;
  with_lock
    (old_count <- gets (fun s => size (_addresses s)) ;;
     modify (set_addresses addrs) ;;
     now <- ask time_time ;;
     modify (set_last_refresh now) ;;
     if negb (Nat.eqb (size addrs) old_count) then
       log "INFO" [Txt "Blacklist refreshed: ";
                   Fmt "" (PInt (Z.of_nat (size addrs)));
                   Txt " addresses (was "; Fmt "" (PInt (Z.of_nat old_count));
                   Txt ")"]
     else ret tt).

(** [Blacklist()]: an empty set, then a first [refresh]. *)
Definition new (e : Oracle) : State :=
  {| _addresses := ∅; _lock := false; _last_refresh := zero; env := e;
     steps := 0; logger := [] |}.

Definition init (e : Oracle) : outcome State unit := refresh (new e).

Definition _maybe_refresh : M State unit :=
  now <- ask time_time ;;
  last <- gets _last_refresh ;;
  if geb (sub now last) REFRESH_INTERVAL then refresh else ret tt.

Definition is_blacklisted (address : string) : M State bool :=
  _maybe_refresh ;;
  with_lock
    (addrs <- gets _addresses ;;
     ret (bool_decide (lower (strip address) ∈ addrs))).

(** The [count] property. *)
Definition count : M State nat :=
  with_lock (gets (fun s => size (_addresses s))).

(** *** Notions used to state the properties *)

(** The line ends the reading of the events file: [json.loads] raises on
    it something other than [JSONDecodeError], or it spells a document
    that is not an object, or an object whose [caller] is not a
    string. *)
Definition stops (l : line) : bool :=
  match l with
  | Spells doc =>
      match of_json doc with
      | PDict kv =>
          match dict_get (KStr "caller") kv with
          | None | Some (PStr _) => false
          | Some _ => true
          end
      | _ => true
      end
  | TooDeep | TooLong => true
  | Blank | Garbage => false
  end.

(** The caller a line names. *)
Definition named (l : line) : option string :=
  match l with
  | Spells doc =>
      match of_json doc with
      | PDict kv =>
          match dict_get (KStr "caller") kv with
          | Some (PStr c) => Some c
          | _ => None
          end
      | _ => None
      end
  | _ => None
  end.

(** The lines in front of the first one that stops the reading. *)
Fixpoint before_stop (ls : list line) : list line :=
  match ls with
  | [] => []
  | l :: rest => if stops l then [] else l :: before_stop rest
  end.

(** The files this [refresh] finds: the events file is asked for first,
    and read if it is there; then the manual file. *)
Definition events_found (s : State) : option (Reading line) :=
  if events_exists (env s) (steps s)
  then Some (events_read (env s) (S (steps s))) else None.

Definition manual_step (s : State) : nat :=
  if events_exists (env s) (steps s) then S (S (steps s)) else S (steps s).

Definition manual_found (s : State) : option (Reading string) :=
  if manual_exists (env s) (manual_step s)
  then Some (manual_read (env s) (S (manual_step s))) else None.

(** The moment the clock is read by this [refresh]. *)
Definition clock_step (s : State) : nat :=
  if manual_exists (env s) (manual_step s)
  then S (S (manual_step s)) else S (manual_step s).

(** Every caller named and every manual line is ASCII text, on which
    [strip] and [lower] are the methods of [str]. *)
Definition ascii_lines (ev : option (Reading line)) (mn : option (Reading string))
  : bool :=
  forallb (fun l => from_option NonceMonitor.is_ascii true (named l))
          (from_option got [] ev) &&
  forallb NonceMonitor.is_ascii (from_option got [] mn).

(** The addresses a reading of the events file gives, and those a reading
    of the manual file gives. *)
Definition event_addresses (lines : list line) : gset string :=
  list_to_set
    (List.filter nonempty
       (map (fun c => lower (strip c)) (omap named (before_stop lines)))).

Definition manual_addresses (lines : list string) : gset string :=
  list_to_set
    (List.filter (fun a => nonempty a && negb (startswith a "#"))
       (map (fun l => lower (strip l)) lines)).



(** *** Sample surroundings *)

(** Three event lines, the second of which is an array, and a manual
    file with a comment. *)
Definition sample : Oracle :=
  {| events_exists := fun _ => true;
     events_read := fun _ =>
       {| got := [Spells (JObj [("caller", JStr " 0xAb ")]);
                  Spells (JArr []);
                  Spells (JObj [("caller", JStr "0xcd")])];
          cut := false |};
     manual_exists := fun _ => true;
     manual_read := fun _ =>
       {| got := ["# known exploiters"; "0xEF "]; cut := false |};
     time_time := fun n => of_Z (Z.of_nat n) |}.



End Blacklist.

(* ===================================================================== *)
(** ** blacklist_watchdog.py: the emergency sell *)
(* ===================================================================== *)

Module Watchdog.

Import Json.

Definition SELL_AGGRESSION : float := decimal 95 100.

(** What the [try] block at the head of [emergency_sell] ends in: an
    exception (with its message), a book with no bid, or the price of the
    last bid as [float()] read it. *)
Inductive BookAnswer : Type :=
| BookFails (msg : string)
| NoBids
| BestBid (price : float).

(** What [client.get_order_fill] and the reading of its [size_matched]
    give: a falsy record, the size as [float()] read it (0.0 when the
    member is missing), or a value [float()] refuses. *)
Inductive FillAnswer : Type :=
| NoFill
| Matched (size : float)
| Unreadable.

(** What the venue client answers, by interaction count.  [market.py] is
    not part of the sources; its methods are taken to return. *)
Record Oracle : Type := {
  get_order_book : nat -> BookAnswer;
  place_limit_sell : nat -> option string;
  get_order_fill : nat -> FillAnswer
}.

(** A [place_limit_sell(token_id, price, size)] call and its answer. *)
Record Sell : Type := {
  sell_token : string;
  sell_price : float;
  sell_size : float;
  sell_answer : option string
}.

Record State : Type := {
  _clob_client : bool;                 (* the global is set *)
  env : Oracle;
  steps : nat;
  logger : list (string * text);
  sells : list Sell;
  cancels : list string;               (* [cancel_order(order_id)] calls *)
  sleeps : list float
}.

Definition set_clob_client (x : bool) (s : State) : State :=
  {| _clob_client := x; env := env s; steps := steps s; logger := logger s;
     sells := sells s; cancels := cancels s; sleeps := sleeps s |}.

Definition set_steps (x : nat) (s : State) : State :=
  {| _clob_client := _clob_client s; env := env s; steps := x;
     logger := logger s; sells := sells s; cancels := cancels s;
     sleeps := sleeps s |}.

Definition set_logger (x : list (string * text)) (s : State) : State :=
  {| _clob_client := _clob_client s; env := env s; steps := steps s;
     logger := x; sells := sells s; cancels := cancels s; sleeps := sleeps s |}.

Definition set_sells (x : list Sell) (s : State) : State :=
  {| _clob_client := _clob_client s; env := env s; steps := steps s;
     logger := logger s; sells := x; cancels := cancels s; sleeps := sleeps s |}.

Definition set_cancels (x : list string) (s : State) : State :=
  {| _clob_client := _clob_client s; env := env s; steps := steps s;
     logger := logger s; sells := sells s; cancels := x; sleeps := sleeps s |}.

Definition set_sleeps (x : list float) (s : State) : State :=
  {| _clob_client := _clob_client s; env := env s; steps := steps s;
     logger := logger s; sells := sells s; cancels := cancels s; sleeps := x |}.

Definition ask {A} (f : Oracle -> nat -> A) : M State A :=
  fun s => Ok (f (env s) (steps s)) (set_steps (S (steps s)) s).

Definition log (level : string) (msg : text) : M State unit :=
  modify (fun s => set_logger (logger s ++ [(level, msg)])%list s).

(** [time.sleep(d)]. *)
Definition sleep (d : float) : M State unit :=
  modify (fun s => set_sleeps (sleeps s ++ [d])%list s).

(** Lazy-init a PolymarketClient for selling. *)
Definition _get_clob_client : M State unit :=
  ready <- gets _clob_client ;;
  if ready : bool then ret tt
  else
    modify (set_clob_client true) ;;
    log "INFO" [Txt "CLOB client initialized for emergency sells"].

(** [client.place_limit_sell(token_id, price, size)]. *)
Definition place (token_id : string) (price size : float) : M State (option string) :=
  answer <- ask place_limit_sell ;;
  modify (fun s =>
    set_sells (sells s ++ [{| sell_token := token_id; sell_price := price;
                              sell_size := size; sell_answer := answer |}])%list s) ;;
  ret answer.

(** [client.cancel_order(order_id)]. *)
Definition cancel_order (order_id : string) : M State unit :=
  modify (fun s => set_cancels (cancels s ++ [order_id])%list s).

(** [fill = client.get_order_fill(order_id)] and
    [float(fill.get("size_matched", 0)) if fill else 0]; [ValueError]
    stands for what [float()] raises on a value it refuses. *)
Definition matched_size : M State pyval :=
  fill <- ask get_order_fill ;;
  match fill with
  | NoFill => ret (PInt 0)
  | Matched x => ret (PFloat x)
  | Unreadable => raise ValueError
  end.

(** [max(a, b)]: the first argument unless the second is greater. *)
Definition py_max (a b : float) : float := if ltb a b then b else a.

(** [round(max(best_bid * factor, 0.01), 2)]. *)
Definition price_at (best_bid factor : float) : float :=
  round (py_max (mul best_bid factor) (decimal 1 100)) 2.

(** Place an aggressive limit sell to exit a position immediately. *)
Definition emergency_sell (token_id : string) (shares : float) (dry_run : bool)
  : M State pyval :=
  _get_clob_client ;;
  book <- ask get_order_book ;;
  match book with
  | BookFails msg =>
      log "ERROR" [Txt "Failed to get orderbook for ";
                   Txt (NonceMonitor.str_take 16 token_id); Txt "...: "; Txt msg] ;;
      ret (PDict [(KStr "success", PBool false); (KStr "error", PStr msg)])
  | _ =>
      let best_bid := match book with BestBid p => PFloat p | _ => PInt 0 end in
      if ltb (Detector.as_float best_bid) (decimal 2 100) then
        log "WARNING" [Txt "No viable bid for ";
                       Txt (NonceMonitor.str_take 16 token_id);
                       Txt "... (best_bid="; Fmt "" best_bid; Txt ")"] ;;
        ret (PDict [(KStr "success", PBool false); (KStr "error", PStr "no_bid");
                    (KStr "best_bid", best_bid)])
      else
        let sell_price := price_at (Detector.as_float best_bid) SELL_AGGRESSION in
        let sell_size := round shares 1 in
        if ltb sell_size (decimal 1 10) then
          ret (PDict [(KStr "success", PBool false);
                      (KStr "error", PStr "size_too_small");
                      (KStr "shares", PFloat shares)])
        else if dry_run then
          log "INFO" [Txt "  [DRY RUN] Would sell "; Fmt "" (PFloat sell_size);
                      Txt " @ "; Fmt "" (PFloat sell_price); Txt " (bid=";
                      Fmt "" best_bid; Txt ")"] ;;
          ret (PDict [(KStr "success", PBool true); (KStr "dry_run", PBool true);
                      (KStr "price", PFloat sell_price);
                      (KStr "size", PFloat sell_size)])
        else
          log "INFO" [Txt "  🚨 EMERGENCY SELL: "; Fmt "" (PFloat sell_size);
                      Txt " shares @ "; Fmt "" (PFloat sell_price); Txt " (bid=";
                      Fmt "" best_bid; Txt ")"] ;;
          order_id <- place token_id sell_price sell_size ;;
          order_id <-
            (if negb (Detector.accepted order_id) then
               (* Retry more aggressively *)
               let sell_price2 :=
                 price_at (Detector.as_float best_bid) (decimal 85 100) in
               log "INFO" [Txt "  🚨 RETRY SELL @ "; Fmt "" (PFloat sell_price2)] ;;
               place token_id sell_price2 sell_size
             else ret order_id) ;;
          match order_id with
          | Some (String c rest) =>
              let order_id := String c rest in
              (* Wait for fill *)
              sleep (of_Z 3) ;;
              filled <- matched_size ;;
              filled <-
                (if ltb (Detector.as_float filled) (decimal 1 10) then
                   (* Cancel and try panic price *)
                   cancel_order order_id ;;
                   let panic_price :=
                     price_at (Detector.as_float best_bid) (decimal 75 100) in
                   log "INFO" [Txt "  🚨 PANIC SELL @ "; Fmt "" (PFloat panic_price)] ;;
                   order_id2 <- place token_id panic_price sell_size ;;
                   match order_id2 with
                   | Some (String c2 rest2) =>
                       sleep (of_Z 3) ;;
                       filled <- matched_size ;;
                       (if ltb (Detector.as_float filled) (decimal 1 10)
                        then cancel_order (String c2 rest2) else ret tt) ;;
                       ret filled
                   | _ => ret filled
                   end
                 else ret filled) ;;
              ret (PDict [(KStr "success",
                           PBool (geb (Detector.as_float filled) (decimal 1 10)));
                          (KStr "order_id", PStr order_id);
                          (KStr "price", PFloat sell_price);
                          (KStr "size", PFloat sell_size);
                          (KStr "filled", filled)])
          | _ =>
              ret (PDict [(KStr "success", PBool false);
                          (KStr "error", PStr "order_failed")])
          end
  end.

(** *** Notions used to state the properties *)

(** The ids the venue gave for the orders it accepted. *)
Definition accepted_ids (l : list Sell) : list string :=
  omap (fun o => match sell_answer o with
                 | Some (String c rest) => Some (String c rest)
                 | _ => None
                 end) l.

(** All but the last. *)
Definition but_last {A} (l : list A) : list A := take (length l - 1) l.

(** [result[k]]. *)
Definition result_field (k : string) (result : pyval) : option pyval :=
  match result with
  | PDict kv => dict_get (KStr k) kv
  | _ => None
  end.

(** Nothing stands in the way of a sale: the book was fetched, its best
    bid is not below 0.02, and the size does not round below 0.1. *)
Definition sellable (book : BookAnswer) (shares : float) : bool :=
  match book with
  | BestBid p => negb (ltb p (decimal 2 100)) && negb (ltb (round shares 1) (decimal 1 10))
  | _ => false
  end.

(** *** Sample surroundings *)

(** A venue with a bid at 0.50 that accepts every order and fills
    none. *)
Definition stubborn : Oracle :=
  {| get_order_book := fun _ => BestBid (decimal 50 100);
     place_limit_sell := fun n => Some ("order-" +:+ pretty n);
     get_order_fill := fun _ => Matched zero |}.

Definition idle (e : Oracle) : State :=
  {| _clob_client := false; env := e; steps := 0; logger := []; sells := [];
     cancels := []; sleeps := [] |}.

End Watchdog.

(* ===================================================================== *)
(** ** Properties of the detector *)
(* ===================================================================== *)

Module DetectorFacts.

Import Detector.
Local Open Scope nat_scope.

(** *** Snapshot history *)




Lemma deque_append_length {A} (n : nat) (x : A) (d : list A) :
  length d <= n -> length (deque_append n x d) <= n.
Proof.
  intros H. unfold deque_append.
  destruct (Nat.ltb_spec n (length (d ++ [x]))) as [Hlt|Hge].
  - rewrite length_drop, length_app. simpl. lia.
  - exact Hge.
Qed.

(** *** The cooldown gate *)

Lemma can_alert_eq (T : string) (s : State) :
  _can_alert T s
  = Ok (geb (sub (time_time (env s) (steps s))
                 (default zero (last_alert_time s !! T))) ALERT_COOLDOWN)
       (set_steps (S (steps s)) s).
Proof. reflexivity. Qed.

Lemma sub_zero (x : float) : sub x zero = x.
Proof. destruct x as [[]|[]| |[] m e]; reflexivity. Qed.

Lemma fire_alert_suppressed (s : State) (alert : Alert) :
  geb (sub (time_time (env s) (steps s))
           (default zero (last_alert_time s !! alert_type alert)))
      ALERT_COOLDOWN = false ->
  _fire_alert alert s
  = Ok tt (set_candidates (candidates s ++ [alert]) (set_steps (S (steps s)) s)).
Proof.
  intros Hgate. unfold _fire_alert, bind, modify. rewrite can_alert_eq.
  cbn [steps last_alert_time set_candidates env].
  rewrite Hgate. reflexivity.
Qed.

(** C10.  If the gate answers no for the candidate's type, [_fire_alert]
    returns having changed nothing but the count of clock reads (and the
    record that the candidate was seen): the last-fired map, the alert
    counter, the alert list, the alert log file, the logger output, the
    orders and the history are as they were. *)
Theorem suppressed_fire_is_noop (s s1 : State) (alert : Alert) :
  _can_alert (alert_type alert) s = Ok false s1 ->
  exists s',
    _fire_alert alert s = Ok tt s' /\
    s' = set_candidates (candidates s ++ [alert]) (set_steps (S (steps s)) s) /\
    last_alert_time s' = last_alert_time s /\
    alert_count s' = alert_count s /\
    alerts s' = alerts s /\
    alert_log s' = alert_log s /\
    logger s' = logger s /\
    orders s' = orders s /\
    trade_count s' = trade_count s /\
    history s' = history s.
Proof.
  intros H. rewrite can_alert_eq in H. injection H as Hgate _.
  eexists. split; [now apply fire_alert_suppressed|].
  repeat split; reflexivity.
Qed.

(** A second DEPTH_DROP five seconds after the first is suppressed. *)
Lemma suppressed_fire_is_noop_witness :
  let s := set_last_alert_time {["DEPTH_DROP" := of_Z 1000]}
             (init (quiet (fun _ => of_Z 1005)) false) in
  exists s',
    _fire_alert (bare_alert "DEPTH_DROP" (of_Z 1005)) s = Ok tt s' /\
    s' = set_candidates (candidates s ++ [bare_alert "DEPTH_DROP" (of_Z 1005)])
           (set_steps (S (steps s)) s) /\
    last_alert_time s' = last_alert_time s /\
    alert_count s' = alert_count s /\
    alerts s' = alerts s /\
    alert_log s' = alert_log s /\
    logger s' = logger s /\
    orders s' = orders s /\
    trade_count s' = trade_count s /\
    history s' = history s.
Proof.
  cbn zeta.
  apply (suppressed_fire_is_noop _
           (set_steps 1 (set_last_alert_time {["DEPTH_DROP" := of_Z 1000]}
                           (init (quiet (fun _ => of_Z 1005)) false)))).
  vm_compute. reflexivity.
Defined.

Lemma fire_alert_let_through (s : State) (alert : Alert) :
  geb (sub (time_time (env s) (steps s))
           (default zero (last_alert_time s !! alert_type alert)))
      ALERT_COOLDOWN = true ->
  let s' := final (_fire_alert alert s) in
  last_alert_time s' = <[alert_type alert := alert_ts alert]> (last_alert_time s) /\
  alert_count s' = S (alert_count s) /\
  alerts s' = (alerts s ++ [alert])%list.
Proof.
  intros Hg. unfold _fire_alert, bind, modify. rewrite can_alert_eq.
  cbn [steps last_alert_time set_candidates env].
  rewrite Hg. cbn [negb]. unfold log, modify, append_alert_log, bind, ask.
  destruct (data alert) as [|d ds].
  - cbn. destruct (alert_log_write _ _); cbn; repeat split; reflexivity.
  - destruct (Json.to_json_default_str _); cbn.
    + destruct (alert_log_write _ _); cbn; repeat split; reflexivity.
    + repeat split; reflexivity.
Qed.

(** C2, as the code has it.  With [now] the clock read at the gate, a
    candidate of type T is let through exactly when
    [now - last_alert_time.get(T, 0) >= 15]: for a type on record, when
    [now - last >= 15]; for a type never recorded, when [now >= 15].  A
    suppressed candidate records nothing.  A candidate let through is
    appended to the alerts, counted, and T's entry of the map (and no
    other) is written. *)
Theorem gate_decision (s : State) (alert : Alert) :
  exists (fires : bool) (s1 : State),
    _can_alert (alert_type alert) s = Ok fires s1 /\
    (fires = true <->
       (last_alert_time s !! alert_type alert = None /\
        geb (time_time (env s) (steps s)) ALERT_COOLDOWN = true) \/
       (exists last,
          last_alert_time s !! alert_type alert = Some last /\
          geb (sub (time_time (env s) (steps s)) last) ALERT_COOLDOWN = true)) /\
    (fires = false ->
       last_alert_time (final (_fire_alert alert s)) = last_alert_time s /\
       alerts (final (_fire_alert alert s)) = alerts s /\
       alert_count (final (_fire_alert alert s)) = alert_count s) /\
    (fires = true ->
       is_Some (last_alert_time (final (_fire_alert alert s)) !! alert_type alert) /\
       (forall T', T' <> alert_type alert ->
          last_alert_time (final (_fire_alert alert s)) !! T'
          = last_alert_time s !! T') /\
       alerts (final (_fire_alert alert s)) = (alerts s ++ [alert])%list /\
       alert_count (final (_fire_alert alert s)) = S (alert_count s)).
Proof.
  do 2 eexists. split; [apply can_alert_eq|]. split; [|split].
  - destruct (last_alert_time s !! alert_type alert) as [last|] eqn:E; cbn [default].
    + split.
      * intros H. right. eauto.
      * intros [[? _]|(l & Hl & H)]; [discriminate|]. now inversion Hl; subst.
    + rewrite sub_zero. split.
      * intros H. left. auto.
      * intros [[_ H]|(l & Hl & _)]; [exact H|discriminate].
  - intros Hg. rewrite (fire_alert_suppressed s alert Hg). cbn. auto.
  - intros Hg. destruct (fire_alert_let_through s alert Hg) as (H1 & H2 & H3).
    rewrite H1, H2, H3. split; [|split; [|split]]; try reflexivity.
    + rewrite lookup_insert_eq. eauto.
    + intros T' Hne. now rewrite lookup_insert_ne.
Qed.

(** C2 does not hold as stated.  With the clock at 10 s and nothing on
    record the candidate is suppressed; and a candidate stamped 1000 that
    is let through at clock 1001 leaves 1000, not 1001, on record. *)
Lemma gate_is_not_the_stated_rule :
  (last_alert_time (init (quiet (fun _ => of_Z 10)) false) !! "DEPTH_DROP" = None /\
   _can_alert "DEPTH_DROP" (init (quiet (fun _ => of_Z 10)) false)
   = Ok false (set_steps 1 (init (quiet (fun _ => of_Z 10)) false))) /\
  (time_time (quiet (fun _ => of_Z 1001)) 0 = of_Z 1001 /\
   alerts (final (_fire_alert (bare_alert "DEPTH_DROP" (of_Z 1000))
                    (init (quiet (fun _ => of_Z 1001)) false)))
   = [bare_alert "DEPTH_DROP" (of_Z 1000)] /\
   last_alert_time (final (_fire_alert (bare_alert "DEPTH_DROP" (of_Z 1000))
                             (init (quiet (fun _ => of_Z 1001)) false)))
     !! "DEPTH_DROP" = Some (of_Z 1000) /\
   Float64.eqb (of_Z 1000) (of_Z 1001) = false).
Proof. repeat split; vm_compute; reflexivity. Qed.

(** C3 fails on the code.  A DEPTH_DROP stamped 1000 is gated at clock
    1000 + 2^-10 and fires; a second one stamped 1015 - 2^-10 is gated at
    clock 1015, where [1015 - 1000 >= 15], and fires too.  Their timestamps
    are 15 - 2^-10 seconds apart.  (Each timestamp is no later than the
    clock at its gate, as in [run].) *)
Theorem two_alerts_closer_than_cooldown :
  let first := bare_alert "DEPTH_DROP" (of_Z 1000) in
  let second := bare_alert "DEPTH_DROP" (sub (of_Z 1015) lag) in
  let clock := two_readings (add (of_Z 1000) lag) (of_Z 1015) in
  let s := final ((_fire_alert first ;; _fire_alert second)
                    (init (quiet clock) false)) in
  alerts s = [first; second] /\
  ltb (sub (alert_ts second) (alert_ts first)) ALERT_COOLDOWN = true /\
  leb (alert_ts first) (clock 0%nat) = true /\
  leb (alert_ts second) (clock 2%nat) = true.
Proof. cbn zeta; repeat split; vm_compute; reflexivity. Qed.

(** *** Guards that protect a division *)

Lemma truthy_nonzero (x : float) : truthy x = true -> Float64.eqb x zero = false.
Proof. unfold truthy. now destruct (Float64.eqb x zero). Qed.

(** A float compares equal to zero only if it is a zero. *)
Lemma nonzero_cases (x : float) :
  (forall b, x <> S754_zero b) -> Float64.eqb x zero = false.
Proof.
  intros H. destruct x as [b|[]| |[] m e]; try reflexivity.
  now destruct (H b).
Qed.

Lemma ge_one_nonzero (x : float) :
  ltb x (of_Z 1) = false -> Float64.eqb x zero = false.
Proof.
  intros H. apply nonzero_cases. intros b ->.
  destruct b; vm_compute in H; discriminate.
Qed.

Lemma positive_nonzero (x : float) :
  gtb x zero = true -> Float64.eqb x zero = false.
Proof.
  intros H. apply nonzero_cases. intros b ->.
  destruct b; vm_compute in H; discriminate.
Qed.

Lemma above_cent_nonzero (x : float) :
  leb x (decimal 1 100) = false -> Float64.eqb x zero = false.
Proof.
  intros H. apply nonzero_cases. intros b ->.
  destruct b; vm_compute in H; discriminate.
Qed.

Lemma truediv_ok (a b : float) (s : State) :
  Float64.eqb b zero = false -> truediv a b s = Ok (quot a b) s.
Proof. intros H. unfold truediv. now rewrite H. Qed.

(** *** Detectors return *)

Lemma extends_refl (s : State) : extends s s [].
Proof. unfold extends. rewrite app_nil_r. repeat split; auto. Qed.

Lemma extends_trans (s s1 s2 : State) (l1 l2 : list Alert) :
  extends s s1 l1 -> extends s1 s2 l2 -> extends s s2 (l1 ++ l2).
Proof.
  unfold extends.
  intros (H1 & H2 & H3 & H4 & H5 & H6 & H7) (K1 & K2 & K3 & K4 & K5 & K6 & K7).
  rewrite K1, H1, K2, K3, K4, K5, K6, <- app_assoc. repeat split; auto. lia.
Qed.

Lemma plain_data_dumps (d : list (string * pyval)) :
  forallb (fun kv => plain (snd kv)) d = true ->
  is_Some (Json.to_json_default_str (as_dict d)).
Proof.
  unfold Json.to_json_default_str, as_dict. cbn [Json.encode].
  induction d as [|[k v] d IH]; cbn; intros H; [eauto|].
  apply andb_true_iff in H as [Hv Hd]. destruct (IH Hd) as [j Hj].
  destruct v; try discriminate; cbn in *;
  match type of Hj with
  | context [fmap _ ?x] => destruct x; [|discriminate]
  end; cbn; eauto.
Qed.

Lemma fire_alert_ok (alert : Alert) (s : State) :
  forallb (fun kv => plain (snd kv)) (data alert) = true ->
  exists s', _fire_alert alert s = Ok tt s' /\ extends s s' [alert].
Proof.
  intros Hd. apply plain_data_dumps in Hd as [j Hj].
  unfold _fire_alert, bind, modify. rewrite can_alert_eq.
  cbn [steps last_alert_time set_candidates env].
  destruct (geb _ _); cbn [negb].
  - unfold log, modify, append_alert_log, bind, ask. rewrite Hj.
    destruct (data alert); cbn;
      destruct (alert_log_write _ _); cbn; eexists; (split; [reflexivity|]);
      unfold extends; cbn; repeat split; auto; lia.
  - eexists. split; [reflexivity|]. unfold extends; cbn; repeat split; auto; lia.
Qed.

Lemma place_order_ok (token_id : string) (price size : float) (s : State) :
  exists s', place_order token_id price size s = Ok tt s' /\ extends s s' [].
Proof.
  unfold place_order, bind, modify, ask, log. cbn [env steps set_orders].
  destruct (place_limit_buy _ _) as [[|c id]|]; cbn;
    eexists; (split; [reflexivity|]); unfold extends; cbn;
    rewrite app_nil_r; repeat split; auto; lia.
Qed.

Lemma log_ok (level : string) (msg : text) (s : State) :
  exists s', log level msg s = Ok tt s' /\ extends s s' [].
Proof.
  eexists. split; [reflexivity|]. unfold extends; cbn. rewrite app_nil_r.
  repeat split; auto.
Qed.

Lemma extends_logged (s : State) (l : list (string * text)) :
  extends s (set_logger l s) [].
Proof. unfold extends; cbn. rewrite app_nil_r. repeat split; auto. Qed.

Ltac returns_unchanged :=
  eexists; split; [reflexivity | apply extends_refl].

(** Both branches of [_counter_trade] end alike: the price guard, the
    division it protects, the size guard, the order. *)
Ltac buy_tail :=
  let Hle := fresh "Hle" in
  match goal with
  | |- context [leb ?p (decimal 1 100) || _] =>
      destruct (leb p (decimal 1 100)) eqn:Hle; cbn [orb];
      [ returns_unchanged | ];
      destruct (geb p (decimal 99 100)); [ returns_unchanged | ];
      unfold bind at 1;
      rewrite truediv_ok by (apply above_cent_nonzero; exact Hle);
      cbn zeta;
      match goal with
      | |- context [ltb ?z (of_Z 1)] =>
          destruct (ltb z (of_Z 1)); [ returns_unchanged | ]
      end;
      unfold bind, log, modify;
      match goal with
      | |- context [place_order ?t ?q ?z ?st] =>
          let s2 := fresh "s2" in
          let E2 := fresh "E2" in
          let H2 := fresh "H2" in
          destruct (place_order_ok t q z st) as (s2 & E2 & H2);
          rewrite E2; eexists; split; [ reflexivity | ];
          exact (extends_trans _ _ _ [] [] (extends_logged _ _) H2)
      end
  end.

Lemma counter_trade_ok (snap : BookSnapshot) (label : string)
    (mid_now mid_prev : float) (s : State) :
  exists s', _counter_trade snap label mid_now mid_prev s = Ok tt s' /\
             extends s s' [].
Proof.
  unfold _counter_trade. unfold bind at 1. unfold gets.
  destruct (window s) as [w|]; [|returns_unchanged].
  destruct (ltb mid_now mid_prev); destruct (String.eqb label "UP");
    cbn zeta iota beta; buy_tail.
Qed.

Lemma bind_ok {A B} (c : M State A) (k : A -> M State B) (s s1 : State) (a : A) :
  c s = Ok a s1 -> bind c k s = k a s1.
Proof. intros H. unfold bind. now rewrite H. Qed.

(** Run the first statement of a sequence with a known result. *)
Ltac step E := eapply eq_trans; [ eapply bind_ok; exact E | cbv beta ].

Lemma gets_eq {A} (f : State -> A) (s : State) : gets f s = Ok (f s) s.
Proof. reflexivity. Qed.

Lemma btc_pct_move_ok (snap prev : BookSnapshot) (s : State) :
  btc_pct_move snap prev s = Ok (btc_pct_value snap prev) s.
Proof.
  unfold btc_pct_move, btc_pct_value.
  destruct (truthy (btc_price prev)) eqn:Ht; [|reflexivity].
  step (truediv_ok (abs (sub (btc_price snap) (btc_price prev))) (btc_price prev) s
          (truthy_nonzero _ Ht)).
  reflexivity.
Qed.

(** One turn of the loop of [_check_price_jump]. *)
Lemma price_jump_turn_ok (snap : BookSnapshot) (btc_pct : pyval)
    (label : string) (mid_now mid_prev : float) (s : State) :
  plain btc_pct = true ->
  exists s',
    (if negb (truthy mid_now) || negb (truthy mid_prev) then ret tt
     else
       let delta := abs (sub mid_now mid_prev) in
       if price_jump_fires delta btc_pct then
         _fire_alert (price_jump_alert snap label mid_now mid_prev btc_pct) ;;
         enabled <- gets trade_enabled ;;
         if enabled && geb delta COUNTER_TRADE_EDGE
         then _counter_trade snap label mid_now mid_prev
         else ret tt
       else ret tt) s = Ok tt s' /\
    extends s s' (price_jump_candidate snap btc_pct label mid_now mid_prev).
Proof.
  intros Hp. unfold price_jump_candidate.
  destruct (truthy mid_now); cbn [negb orb andb]; [|returns_unchanged].
  destruct (truthy mid_prev); cbn [negb orb andb]; [|returns_unchanged].
  cbn zeta. destruct (price_jump_fires _ _); [|returns_unchanged].
  destruct (fire_alert_ok (price_jump_alert snap label mid_now mid_prev btc_pct) s)
    as (s1 & E1 & H1).
  { cbn. now rewrite Hp. }
  destruct (trade_enabled s1 && geb (abs (sub mid_now mid_prev)) COUNTER_TRADE_EDGE)
    eqn:Ht.
  - destruct (counter_trade_ok snap label mid_now mid_prev s1) as (s2 & E2 & H2).
    exists s2. split; [|exact (extends_trans _ _ _ [_] [] H1 H2)].
    step E1. step (gets_eq trade_enabled s1). rewrite Ht. exact E2.
  - exists s1. split; [|exact H1].
    step E1. step (gets_eq trade_enabled s1). rewrite Ht. reflexivity.
Qed.

Lemma btc_pct_plain (snap prev : BookSnapshot) :
  plain (btc_pct_value snap prev) = true.
Proof. unfold btc_pct_value. now destruct (truthy _). Qed.

Lemma check_price_jump_ok (snap prev : BookSnapshot) (s : State) :
  exists s', _check_price_jump snap prev s = Ok tt s' /\
             extends s s' (price_jump_candidates snap prev).
Proof.
  destruct (price_jump_turn_ok snap (btc_pct_value snap prev) "UP"
              (mid_up snap) (mid_up prev) s (btc_pct_plain _ _)) as (s1 & E1 & H1).
  destruct (price_jump_turn_ok snap (btc_pct_value snap prev) "DOWN"
              (mid_down snap) (mid_down prev) s1 (btc_pct_plain _ _)) as (s2 & E2 & H2).
  exists s2. split; [|exact (extends_trans _ _ _ _ _ H1 H2)].
  unfold _check_price_jump. step (btc_pct_move_ok snap prev s).
  cbn [for_each]. step E1. step E2. reflexivity.
Qed.

Lemma index_from_end_ok {A} (l : list A) (k : nat) (s : State) :
  1 <= k <= length l ->
  exists x, index_from_end l k s = Ok x s /\ l !! (length l - k) = Some x.
Proof.
  intros [H1 H2]. unfold index_from_end.
  destruct (Nat.leb_spec 1 k); [|lia]. destruct (Nat.leb_spec k (length l)); [|lia].
  cbn [andb]. destruct (lookup_lt_is_Some_2 l (length l - k)) as [x Hx]; [lia|].
  rewrite Hx. eauto.
Qed.

Lemma check_depth_drop_ok (snap : BookSnapshot) (s : State) :
  exists s' new, _check_depth_drop snap s = Ok tt s' /\ extends s s' new.
Proof.
  unfold _check_depth_drop.
  destruct (Nat.ltb (length (history s)) DEPTH_DROP_WINDOW) eqn:Hlen.
  { exists s, []. split; [|apply extends_refl].
    step (gets_eq history s). now rewrite Hlen. }
  apply Nat.ltb_ge in Hlen as Hge.
  destruct (index_from_end_ok (history s) DEPTH_DROP_WINDOW s) as (ref & E & _).
  { unfold DEPTH_DROP_WINDOW in *. lia. }
  destruct (ltb (total_depth ref) (of_Z 1)) eqn:Hd.
  { exists s, []. split; [|apply extends_refl].
    step (gets_eq history s). rewrite Hlen. step E. now rewrite Hd. }
  pose proof (truediv_ok (sub (total_depth ref) (total_depth snap)) (total_depth ref) s
                (ge_one_nonzero _ Hd)) as Eq.
  destruct (geb (quot (sub (total_depth ref) (total_depth snap)) (total_depth ref))
              DEPTH_DROP_PCT) eqn:Hg.
  - destruct (fire_alert_ok (depth_drop_alert snap ref
      (quot (sub (total_depth ref) (total_depth snap)) (total_depth ref))) s)
      as (s1 & E1 & H1); [reflexivity|].
    exists s1; eexists; split; [|exact H1].
    step (gets_eq history s). rewrite Hlen. step E. rewrite Hd. step Eq.
    rewrite Hg. exact E1.
  - exists s, []. split; [|apply extends_refl].
    step (gets_eq history s). rewrite Hlen. step E. rewrite Hd. step Eq.
    now rewrite Hg.
Qed.

Lemma volume_vanish_turn_ok (snap : BookSnapshot) (label : string)
    (now_v prev_v : float) (s : State) :
  exists s' new,
    (let vanished := sub prev_v now_v in
     if geb vanished VOLUME_VANISH_THRESHOLD
     then _fire_alert (volume_vanish_alert snap label now_v prev_v)
     else ret tt) s = Ok tt s' /\ extends s s' new.
Proof.
  cbn zeta. destruct (geb _ _).
  - destruct (fire_alert_ok (volume_vanish_alert snap label now_v prev_v) s)
      as (s1 & E1 & H1); [reflexivity|]. eauto.
  - exists s, []. split; [reflexivity|apply extends_refl].
Qed.

Lemma check_volume_vanish_ok (snap prev : BookSnapshot) (s : State) :
  exists s' new, _check_volume_vanish snap prev s = Ok tt s' /\ extends s s' new.
Proof.
  destruct (volume_vanish_turn_ok snap "UP_BIDS" (depth_up_bids snap)
              (depth_up_bids prev) s) as (s1 & n1 & E1 & H1).
  destruct (volume_vanish_turn_ok snap "UP_ASKS" (depth_up_asks snap)
              (depth_up_asks prev) s1) as (s2 & n2 & E2 & H2).
  destruct (volume_vanish_turn_ok snap "DOWN_BIDS" (depth_down_bids snap)
              (depth_down_bids prev) s2) as (s3 & n3 & E3 & H3).
  destruct (volume_vanish_turn_ok snap "DOWN_ASKS" (depth_down_asks snap)
              (depth_down_asks prev) s3) as (s4 & n4 & E4 & H4).
  exists s4, (((n1 ++ n2) ++ n3) ++ n4)%list. split.
  - unfold _check_volume_vanish. cbn [for_each].
    step E1. step E2. step E3. step E4. reflexivity.
  - eapply extends_trans; [|eassumption].
    eapply extends_trans; [|eassumption].
    eapply extends_trans; eassumption.
Qed.

Lemma check_divergence_ok (snap : BookSnapshot) (s : State) :
  exists s' new, _check_divergence snap s = Ok tt s' /\ extends s s' new.
Proof.
  unfold _check_divergence.
  destruct (start_price s) as [p0|] eqn:Hs.
  2:{ exists s, []. split; [|apply extends_refl].
      step (gets_eq start_price s). now rewrite Hs. }
  destruct (truthy p0) eqn:Hp.
  2:{ exists s, []. split; [|apply extends_refl].
      step (gets_eq start_price s). rewrite Hs, Hp. reflexivity. }
  destruct (truthy (btc_price snap)) eqn:Hb.
  2:{ exists s, []. split; [|apply extends_refl].
      step (gets_eq start_price s). rewrite Hs, Hp. reflexivity. }
  pose proof (truediv_ok (sub (btc_price snap) p0) p0 s (truthy_nonzero _ Hp)) as Eq.
  set (pct := mul (quot (sub (btc_price snap) p0) p0) (of_Z 100)).
  set (cheap := sub (decimal 50 100) DIVERGENCE_THRESHOLD).
  destruct (gtb pct (decimal 3 100) && truthy (mid_up snap) && ltb (mid_up snap) cheap)
    eqn:Hup.
  { destruct (fire_alert_ok (divergence_alert snap true pct) s)
      as (s1 & E1 & H1); [reflexivity|].
    exists s1; eexists; split; [|exact H1].
    step (gets_eq start_price s). rewrite Hs, Hp. cbn [negb orb].
    step Eq. cbn zeta. fold pct cheap. rewrite Hup. exact E1. }
  destruct (ltb pct (SFopp (decimal 3 100)) && truthy (mid_down snap)
            && ltb (mid_down snap) cheap) eqn:Hdown.
  { destruct (fire_alert_ok (divergence_alert snap false pct) s)
      as (s1 & E1 & H1); [reflexivity|].
    exists s1; eexists; split; [|exact H1].
    step (gets_eq start_price s). rewrite Hs, Hp. cbn [negb orb].
    step Eq. cbn zeta. fold pct cheap. rewrite Hup, Hdown. exact E1. }
  exists s, []. split; [|apply extends_refl].
  step (gets_eq start_price s). rewrite Hs, Hp. cbn [negb orb].
  step Eq. cbn zeta. fold pct cheap. now rewrite Hup, Hdown.
Qed.

Lemma spread_turn_ok (snap : BookSnapshot) (label : string)
    (bid ask prev_bid prev_ask : float) (s : State) :
  exists s' new,
    (if negb (truthy bid && truthy ask && truthy prev_bid && truthy prev_ask)
     then ret tt
     else
       let spread_now := sub ask bid in
       let spread_prev := sub prev_ask prev_bid in
       if gtb spread_prev zero then
         spread_expansion <- truediv spread_now spread_prev ;;
         if geb spread_expansion (of_Z 3) && geb spread_now (decimal 10 100)
         then _fire_alert (spread_alert snap label spread_prev spread_now
                             spread_expansion)
         else ret tt
       else ret tt) s = Ok tt s' /\ extends s s' new.
Proof.
  destruct (negb _); [exists s, []; split; [reflexivity|apply extends_refl]|].
  cbn zeta. destruct (gtb (sub prev_ask prev_bid) zero) eqn:Hpos.
  2:{ exists s, []. split; [reflexivity|apply extends_refl]. }
  pose proof (truediv_ok (sub ask bid) (sub prev_ask prev_bid) s
                (positive_nonzero _ Hpos)) as Eq.
  destruct (geb (quot (sub ask bid) (sub prev_ask prev_bid)) (of_Z 3)
            && geb (sub ask bid) (decimal 10 100)) eqn:Hf.
  - destruct (fire_alert_ok (spread_alert snap label (sub prev_ask prev_bid)
       (sub ask bid) (quot (sub ask bid) (sub prev_ask prev_bid))) s)
      as (s1 & E1 & H1); [reflexivity|].
    exists s1; eexists; split; [|exact H1]. step Eq. rewrite Hf. exact E1.
  - exists s, []. split; [|apply extends_refl]. step Eq. now rewrite Hf.
Qed.

Lemma check_spread_ok (snap prev : BookSnapshot) (s : State) :
  exists s' new, _check_spread snap prev s = Ok tt s' /\ extends s s' new.
Proof.
  destruct (spread_turn_ok snap "UP" (bid_up snap) (ask_up snap)
              (bid_up prev) (ask_up prev) s) as (s1 & n1 & E1 & H1).
  destruct (spread_turn_ok snap "DOWN" (bid_down snap) (ask_down snap)
              (bid_down prev) (ask_down prev) s1) as (s2 & n2 & E2 & H2).
  exists s2, (n1 ++ n2)%list. split; [|exact (extends_trans _ _ _ _ _ H1 H2)].
  unfold _check_spread. cbn [for_each]. step E1. step E2. reflexivity.
Qed.

Lemma analyze_ok (snap : BookSnapshot) (s : State) :
  exists s' new, analyze snap s = Ok tt s' /\ extends s s' new.
Proof.
  unfold analyze.
  destruct (Nat.ltb (length (history s)) 2) eqn:Hlen.
  { exists s, []. split; [|apply extends_refl].
    step (gets_eq history s). now rewrite Hlen. }
  apply Nat.ltb_ge in Hlen as Hge.
  destruct (index_from_end_ok (history s) 1 s) as (prev & E & _); [lia|].
  destruct (check_price_jump_ok snap prev s) as (s1 & E1 & H1).
  destruct (check_depth_drop_ok snap s1) as (s2 & n2 & E2 & H2).
  destruct (check_volume_vanish_ok snap prev s2) as (s3 & n3 & E3 & H3).
  destruct (check_divergence_ok snap s3) as (s4 & n4 & E4 & H4).
  destruct (check_spread_ok snap prev s4) as (s5 & n5 & E5 & H5).
  exists s5, ((((price_jump_candidates snap prev ++ n2) ++ n3) ++ n4) ++ n5)%list.
  split.
  - step (gets_eq history s). rewrite Hlen. step E.
    step E1. step E2. step E3. step E4. exact E5.
  - eapply extends_trans; [|eassumption].
    eapply extends_trans; [|eassumption].
    eapply extends_trans; [|eassumption].
    eapply extends_trans; eassumption.
Qed.

(** *** Float facts used by the price-jump example *)

Lemma sub_self (x : float) :
  is_finite x = true -> sub x x = zero.
Proof.
  destruct x as [[]|[]| |s m e]; try discriminate; intros _; try reflexivity.
  unfold sub, SFsub. rewrite Z.sub_diag. reflexivity.
Qed.

Lemma sub_self_below_threshold (x : float) :
  geb (abs (sub x x)) PRICE_JUMP_THRESHOLD = false.
Proof.
  destruct (is_finite x) eqn:Hf.
  - rewrite sub_self by exact Hf. vm_compute. reflexivity.
  - destruct x as [[]|[]| |s m e]; try discriminate; vm_compute; reflexivity.
Qed.

Lemma hundred_finite : exists m e, of_Z 100 = S754_finite false m e.
Proof. vm_compute. eauto. Qed.

Lemma unchanged_reference_is_still (snap prev : BookSnapshot) :
  btc_price snap = btc_price prev ->
  is_finite (btc_price prev) = true ->
  ltb (as_float (btc_pct_value snap prev)) BTC_MOVE_THRESHOLD_PCT = true.
Proof.
  intros Heq Hfin. unfold btc_pct_value. rewrite Heq.
  destruct (truthy (btc_price prev)) eqn:Ht; [|vm_compute; reflexivity].
  rewrite sub_self by exact Hfin. cbn [as_float].
  destruct hundred_finite as (m100 & e100 & ->).
  destruct (btc_price prev) as [[]|[]| |[] m e]; try discriminate;
    vm_compute; reflexivity.
Qed.

Lemma delta_example :
  abs (sub (decimal 55 100) (decimal 40 100)) = delta_0_55_0_40.
Proof. vm_compute. reflexivity. Qed.

(** C4, as the code has it.  [_check_price_jump] never raises and hands on
    exactly [price_jump_candidates].  For an instrument whose mid is
    nonzero in both snapshots there is a candidate exactly when
    delta = |mid_now - mid_prev| >= 0.10 and the reference move (in percent,
    taken as 0 when the previous reference price is 0) is < 0.05; its
    severity is CRITICAL from 0.20, HIGH from 0.15, else MEDIUM, and its
    [delta] field is delta.  With UP mids 0.40 -> 0.55, DOWN mids and a
    finite reference price unchanged, there is exactly one candidate,
    PRICE_JUMP_UP, HIGH, and its [delta] is the double
    0.15000000000000002 = abs(0.55 - 0.40), which is greater than, and not
    equal to, the double 0.15. *)
Theorem price_jump_rule (s : State) (snap prev : BookSnapshot) :
  let btc_pct := btc_pct_value snap prev in
  (* the detector returns, having handed exactly these candidates on *)
  (exists s', _check_price_jump snap prev s = Ok tt s' /\
              candidates s' = (candidates s ++ price_jump_candidates snap prev)%list) /\
  (* the reference move, in percent *)
  as_float btc_pct
  = (if truthy (btc_price prev)
     then mul (quot (abs (sub (btc_price snap) (btc_price prev))) (btc_price prev))
              (of_Z 100)
     else zero) /\
  (* one instrument whose mid is nonzero in both snapshots *)
  (forall (label : string) (mid_now mid_prev : float),
     truthy mid_now = true -> truthy mid_prev = true ->
     let delta := abs (sub mid_now mid_prev) in
     let found := price_jump_candidate snap btc_pct label mid_now mid_prev in
     (found <> [] <->
        geb delta (decimal 10 100) = true /\
        ltb (as_float btc_pct) (decimal 5 100) = true) /\
     (found = [] \/ found = [price_jump_alert snap label mid_now mid_prev btc_pct]) /\
     severity (price_jump_alert snap label mid_now mid_prev btc_pct)
     = (if geb delta (decimal 20 100) then "CRITICAL"
        else if geb delta (decimal 15 100) then "HIGH" else "MEDIUM") /\
     field "delta" (data (price_jump_alert snap label mid_now mid_prev btc_pct))
     = Some (PFloat delta)) /\
  (* mids 0.40 -> 0.55 on UP, DOWN and the reference price unchanged *)
  (mid_up prev = decimal 40 100 -> mid_up snap = decimal 55 100 ->
   mid_down snap = mid_down prev ->
   btc_price snap = btc_price prev -> is_finite (btc_price prev) = true ->
   exists a,
     price_jump_candidates snap prev = [a] /\
     alert_type a = "PRICE_JUMP_UP" /\
     severity a = "HIGH" /\
     field "delta" (data a) = Some (PFloat delta_0_55_0_40) /\
     delta_0_55_0_40 = abs (sub (decimal 55 100) (decimal 40 100)) /\
     Float64.eqb delta_0_55_0_40 (decimal 15 100) = false /\
     gtb delta_0_55_0_40 (decimal 15 100) = true).
Proof.
  cbn zeta. split; [|split; [|split]].
  - destruct (check_price_jump_ok snap prev s) as (s' & E & H & _). eauto.
  - unfold btc_pct_value. destruct (truthy (btc_price prev)); reflexivity.
  - intros label mid_now mid_prev Hn Hp. unfold price_jump_candidate.
    rewrite Hn, Hp. cbn [andb]. unfold price_jump_fires.
    change PRICE_JUMP_THRESHOLD with (decimal 10 100).
    change BTC_MOVE_THRESHOLD_PCT with (decimal 5 100).
    split; [|split; [|split]]; try reflexivity.
    + destruct (geb _ _); destruct (ltb _ _); cbn [andb]; split;
        try (intros [? ?]; discriminate); try (intros H; now destruct H); auto.
    + destruct (_ && _); auto.
  - intros Hprev Hnow Hdown Hbtc Hfin.
    pose proof (unchanged_reference_is_still snap prev Hbtc Hfin) as Hstill.
    unfold price_jump_candidates, price_jump_candidate.
    rewrite Hprev, Hnow, Hdown.
    replace (price_jump_fires (abs (sub (mid_down prev) (mid_down prev))) _)
      with false
      by (unfold price_jump_fires; now rewrite sub_self_below_threshold).
    rewrite andb_false_r. rewrite app_nil_r.
    unfold price_jump_fires. rewrite Hstill.
    eexists. split; [vm_compute (truthy _); vm_compute (geb _ _); reflexivity|].
    cbn [alert_type severity data price_jump_alert field String.eqb Ascii.eqb Bool.eqb].
    rewrite delta_example.
    repeat split; vm_compute; reflexivity.
Qed.

Lemma analyze_short_history (snap : BookSnapshot) (s : State) :
  length (history s) < 2 -> analyze snap s = Ok tt s.
Proof.
  intros H. unfold analyze. step (gets_eq history s).
  apply Nat.ltb_lt in H. now rewrite H.
Qed.

(** C7.  For every detector state and every snapshot, [analyze] returns;
    so does each of the five detectors, whatever snapshot it is given as
    the previous one.  With fewer than 2 snapshots in the history [analyze]
    returns at once, leaving the state (so also the candidates) as it was;
    with fewer than [DEPTH_DROP_WINDOW] (3) the depth-drop detector does
    the same. *)
Theorem analyze_never_raises (s : State) (snap : BookSnapshot) :
  (exists s', analyze snap s = Ok tt s') /\
  (forall prev : BookSnapshot,
     (exists s', _check_price_jump snap prev s = Ok tt s') /\
     (exists s', _check_depth_drop snap s = Ok tt s') /\
     (exists s', _check_volume_vanish snap prev s = Ok tt s') /\
     (exists s', _check_divergence snap s = Ok tt s') /\
     (exists s', _check_spread snap prev s = Ok tt s')) /\
  (length (history s) < 2 -> analyze snap s = Ok tt s) /\
  (length (history s) < DEPTH_DROP_WINDOW -> _check_depth_drop snap s = Ok tt s).
Proof.
  split; [|split; [|split]].
  - destruct (analyze_ok snap s) as (s' & new & E & _). eauto.
  - intros prev. repeat split.
    + destruct (check_price_jump_ok snap prev s) as (s' & E & _). eauto.
    + destruct (check_depth_drop_ok snap s) as (s' & new & E & _). eauto.
    + destruct (check_volume_vanish_ok snap prev s) as (s' & new & E & _). eauto.
    + destruct (check_divergence_ok snap s) as (s' & new & E & _). eauto.
    + destruct (check_spread_ok snap prev s) as (s' & new & E & _). eauto.
  - apply analyze_short_history.
  - intros H. unfold _check_depth_drop. step (gets_eq history s).
    apply Nat.ltb_lt in H. now rewrite H.
Qed.

(** *** Window rollover *)

Lemma ask_eq {A} (f : Oracle -> nat -> A) (s : State) :
  ask f s = Ok (f (env s) (steps s)) (set_steps (S (steps s)) s).
Proof. reflexivity. Qed.

Lemma refresh_window_replaces (l : Locals) (s : State) (w : Window) :
  stale l s = true ->
  fetch_window (env s) (fetch_step l s) = Some w ->
  is_active (env s) (S (fetch_step l s)) = true ->
  exists s',
    (refresh_window l s = Raise TypeError s' \/
     refresh_window l s
     = Ok (Replaced w, {| loop_window := Some w; last_status := last_status l |}) s') /\
    history s' = [] /\ window s' = Some w /\
    candidates s' = candidates s /\ alerts s' = alerts s /\ env s' = env s /\
    steps s <= steps s'.
Proof.
  unfold stale, fetch_step. intros Hst Hf Ha.
  unfold refresh_window, bind, ask, modify, history_clear, log, modify, ret.
  destruct (loop_window l) as [w0|];
    repeat (progress (cbn [env steps set_steps set_window set_start_price
                           set_history set_logger negb];
                      rewrite ?Hst, ?Hf, ?Ha));
    destruct (get_price _ _); eexists; (split; [auto|]); cbn;
    repeat split; auto; lia.
Qed.

Lemma poll_on_empty_history (verbose : bool) (l : Locals) (s : State) :
  history s = [] ->
  exists l' s',
    poll verbose l s = Ok l' s' /\
    candidates s' = candidates s /\ alerts s' = alerts s /\
    match _get_full_book (env s) (steps s) with
    | Some snap => history s' = [snap]
    | None => history s' = []
    end.
Proof.
  intros Hh. unfold poll.
  destruct (_get_full_book (env s) (steps s)) as [snap|] eqn:Hb.
  - assert (Ha : analyze snap (set_steps (S (steps s)) s)
                 = Ok tt (set_steps (S (steps s)) s)).
    { apply analyze_short_history. cbn. rewrite Hh. cbn. lia. }
    destruct (geb (sub (time_time (env s) (S (steps s))) (last_status l)) (of_Z 30))
      eqn:Hg; destruct verbose;
      (do 2 eexists; split;
       [ step (ask_eq _get_full_book s); rewrite Hb; step Ha;
         unfold bind, history_append, modify, ask, gets, log, modify, sleep, modify;
         cbn [env steps set_steps set_history history];
         rewrite ?Hg; reflexivity
       | cbn; rewrite Hh; auto ]).
  - do 2 eexists. split.
    + step (ask_eq _get_full_book s). rewrite Hb. reflexivity.
    + cbn. auto.
Qed.

(** The history [blank; blank; blank], no start price: every guard is
    exercised on zeros. *)
Lemma analyze_never_raises_witness :
  let s := set_history [blank; blank; blank] (init (quiet (fun _ => zero)) true) in
  (exists s', analyze blank s = Ok tt s') /\
  (length (history (init (quiet (fun _ => zero)) true)) < 2 ->
   analyze blank (init (quiet (fun _ => zero)) true)
   = Ok tt (init (quiet (fun _ => zero)) true)).
Proof.
  cbn zeta. split.
  - apply (analyze_never_raises
             (set_history [blank; blank; blank] (init (quiet (fun _ => zero)) true))
             blank).
  - apply (analyze_never_raises (init (quiet (fun _ => zero)) true) blank).
Defined.

(** C4 does not hold as stated: on snapshots with UP mids 0.40 then 0.55 and
    the reference price unchanged, the detector hands on one HIGH
    PRICE_JUMP_UP candidate whose [delta] field is not equal to 0.15. *)
Lemma price_jump_delta_is_not_0_15 :
  let prev := quoted (of_Z 1000) (decimal 40 100) (of_Z 65000) in
  let snap := quoted (of_Z 1002) (decimal 55 100) (of_Z 65000) in
  let s := final (_check_price_jump snap prev (init (quiet (fun _ => of_Z 1002)) false)) in
  mid_up prev = decimal 40 100 /\ mid_up snap = decimal 55 100 /\
  map alert_type (candidates s) = ["PRICE_JUMP_UP"] /\
  map severity (candidates s) = ["HIGH"] /\
  map (fun a => field "delta" (data a)) (candidates s)
  = [Some (PFloat delta_0_55_0_40)] /\
  Float64.eqb delta_0_55_0_40 (decimal 15 100) = false.
Proof. cbn zeta; repeat split; vm_compute; reflexivity. Qed.

Lemma price_jump_rule_witness :
  exists a,
    price_jump_candidates (quoted (of_Z 1002) (decimal 55 100) (of_Z 65000))
                          (quoted (of_Z 1000) (decimal 40 100) (of_Z 65000)) = [a] /\
    alert_type a = "PRICE_JUMP_UP" /\
    severity a = "HIGH" /\
    field "delta" (data a) = Some (PFloat delta_0_55_0_40) /\
    delta_0_55_0_40 = abs (sub (decimal 55 100) (decimal 40 100)) /\
    Float64.eqb delta_0_55_0_40 (decimal 15 100) = false /\
    gtb delta_0_55_0_40 (decimal 15 100) = true.
Proof.
  apply (proj2 (proj2 (proj2
    (price_jump_rule (init (quiet (fun _ => of_Z 1002)) false)
       (quoted (of_Z 1002) (decimal 55 100) (of_Z 65000))
       (quoted (of_Z 1000) (decimal 40 100) (of_Z 65000))))));
    vm_compute; reflexivity.
Defined.

(** *** The history across iterations *)

Lemma settled_frame (e : Oracle) (n : nat) (s s' : State) :
  settled e n s -> env s' = env s -> steps s <= steps s' ->
  history s' = history s -> settled e n s'.
Proof.
  intros (He & Hn & Hh & Hlen) E1 E2 E3. unfold settled.
  rewrite E1, E3. repeat split; auto. lia.
Qed.

Lemma settled_cleared (e : Oracle) (n : nat) (s s' : State) :
  settled e n s -> env s' = env s -> steps s <= steps s' ->
  history s' = [] -> settled e n s'.
Proof.
  intros (He & Hn & Hh & Hlen) E1 E2 E3. unfold settled.
  rewrite E1, E3. repeat split; auto; cbn; lia.
Qed.

Lemma deque_append_Forall {A} (P : A -> Prop) (maxlen : nat) (x : A) (d : list A) :
  Forall P d -> P x -> Forall P (deque_append maxlen x d).
Proof.
  intros Hd Hx. unfold deque_append.
  assert (Forall P (d ++ [x])) as H by (apply Forall_app; auto).
  destruct (Nat.ltb _ _); [now apply Forall_drop|exact H].
Qed.

Lemma refresh_window_settled (e : Oracle) (n : nat) (l : Locals) (s : State) :
  settled e n s -> settled e n (final (refresh_window l s)).
Proof.
  intros H.
  unfold refresh_window, bind, ask, modify, history_clear, log, modify, ret, raise.
  destruct (loop_window l) as [w0|]; cbn [env steps set_steps];
    repeat match goal with
           | |- context [match ?x with _ => _ end] =>
               lazymatch x with
               | context [match _ with _ => _ end] => fail
               | _ => destruct x eqn:?
               end; cbn [env steps set_steps negb final]
           end;
    first [ eapply settled_frame; [exact H|reflexivity|cbn; lia|reflexivity]
          | eapply settled_cleared; [exact H|reflexivity|cbn; lia|reflexivity] ].
Qed.

Lemma wait_for_next_window_settled (e : Oracle) (n : nat) (l : Locals) (s : State) :
  settled e n s -> settled e n (final (wait_for_next_window l s)).
Proof.
  intros H.
  unfold wait_for_next_window, bind, ask, modify, sleep, log, modify, ret.
  cbn [env steps set_steps].
  repeat match goal with
         | |- context [if ?x then _ else _] =>
             lazymatch x with
             | context [if _ then _ else _] => fail
             | _ => destruct x eqn:?
             end; cbn [env steps set_steps final]
         end;
    (eapply settled_frame; [exact H|reflexivity|cbn; lia|reflexivity]).
Qed.

Lemma final_bind {A B} (c : M State A) (k : A -> M State B) (s : State)
    (P : State -> Prop) :
  P (final (c s)) -> (forall a s', P s' -> P (final (k a s'))) ->
  P (final (bind c k s)).
Proof.
  intros Hc Hk. unfold bind. destruct (c s) as [a s'|e s']; cbn [final] in *;
    [now apply Hk|exact Hc].
Qed.

Lemma analyze_settled (e : Oracle) (n : nat) (snap : BookSnapshot) (s : State) :
  settled e n s -> settled e n (final (analyze snap s)).
Proof.
  intros H. destruct (analyze_ok snap s) as (s1 & new & -> & _ & Hh & _ & _ & _ & He & Hs).
  cbn [final]. now apply (settled_frame e n s).
Qed.

Lemma poll_settled (e : Oracle) (n : nat) (verbose : bool) (l : Locals) (s : State) :
  settled e n s -> settled e n (final (poll verbose l s)).
Proof.
  intros H. pose proof H as (He & Hn & Hh & Hlen). unfold poll.
  unfold bind at 1. rewrite ask_eq.
  assert (H0 : settled e n (set_steps (S (steps s)) s)).
  { eapply settled_frame; [exact H|reflexivity|cbn; lia|reflexivity]. }
  destruct (_get_full_book (env s) (steps s)) as [snap|] eqn:Hb.
  - assert (Hp : polled_since e n snap).
    { exists (steps s). split; [exact Hn|]. now rewrite <- He. }
    apply final_bind; [now apply analyze_settled|]. intros _ s1 H1.
    apply final_bind.
    { destruct H1 as (He1 & Hn1 & Hh1 & Hlen1).
      unfold history_append, modify, settled. cbn. repeat split; auto.
      - now apply deque_append_Forall.
      - now apply deque_append_length. }
    intros _ s2 H2.
    unfold bind, ask, gets, log, modify, sleep, modify, ret.
    cbn [env steps set_steps].
    destruct (geb _ _); destruct verbose; cbn [final env steps set_steps];
      (eapply settled_frame; [exact H2|reflexivity|cbn; lia|reflexivity]).
  - cbn. eapply settled_frame; [exact H0|reflexivity|cbn; lia|reflexivity].
Qed.

Lemma iteration_settled (e : Oracle) (n : nat) (verbose : bool) (l : Locals)
    (s : State) :
  settled e n s -> settled e n (final (iteration verbose l s)).
Proof.
  intros H. unfold iteration. apply final_bind.
  - now apply refresh_window_settled.
  - intros [[|w|] l'] s' Hs'.
    + now apply poll_settled.
    + now apply poll_settled.
    + now apply wait_for_next_window_settled.
Qed.

Lemma iterations_settled (e : Oracle) (n : nat) (verbose : bool) (k : nat)
    (l : Locals) (s : State) :
  settled e n s -> settled e n (final (iterations verbose k l s)).
Proof.
  revert l s. induction k as [|k IH]; intros l s H; cbn [iterations].
  - exact H.
  - apply final_bind; [now apply iteration_settled|]. intros l' s' Hs'. now apply IH.
Qed.


(** C5.  When no window is loaded or the loaded one has expired, and the
    window fetched is active, the window check installs it and leaves the
    history empty (length 0), also if it then fails on a missing price.
    The rest of that iteration runs its detector pass on the empty history:
    no candidate and no alert comes out of it, and the history afterwards
    holds at most the snapshot polled in this iteration.  However many
    iterations follow, the history only ever holds snapshots polled since
    the iteration of the transition began: none from before it. *)
Theorem rollover_clears_history (verbose : bool) (l : Locals) (s : State)
    (w : Window) :
  stale l s = true ->
  fetch_window (env s) (fetch_step l s) = Some w ->
  is_active (env s) (S (fetch_step l s)) = true ->
  exists s1,
    let l1 := {| loop_window := Some w; last_status := last_status l |} in
    (refresh_window l s = Raise TypeError s1 \/
     refresh_window l s = Ok (Replaced w, l1) s1) /\
    length (history s1) = 0 /\ history s1 = [] /\ window s1 = Some w /\
    (refresh_window l s = Ok (Replaced w, l1) s1 ->
     exists l2 s2,
       iteration verbose l s = Ok l2 s2 /\
       candidates s2 = candidates s /\ alerts s2 = alerts s /\
       match _get_full_book (env s1) (steps s1) with
       | Some snap => history s2 = [snap]
       | None => history s2 = []
       end) /\
    (forall (k : nat) (l' : Locals),
       Forall (polled_since (env s) (steps s))
              (history (final (iterations verbose k l' s1)))).
Proof.
  intros Hst Hf Ha.
  destruct (refresh_window_replaces l s w Hst Hf Ha)
    as (s1 & Hr & Hh & Hw & Hc & Hal & He & Hs).
  exists s1. cbn zeta. split; [exact Hr|]. rewrite Hh.
  split; [reflexivity|]. split; [reflexivity|]. split; [exact Hw|]. split.
  - intros E.
    destruct (poll_on_empty_history verbose
                {| loop_window := Some w; last_status := last_status l |} s1 Hh)
      as (l2 & s2 & Ep & Hc2 & Ha2 & Hh2).
    exists l2, s2. split; [|rewrite Hc2, Ha2, Hc, Hal; auto].
    unfold iteration. step E. exact Ep.
  - intros k l'.
    apply (iterations_settled (env s) (steps s) verbose k l' s1).
    unfold settled. rewrite Hh. repeat split; auto. cbn. lia.
Qed.

(** A detector with two snapshots in its history, its window expired, the
    next window ready. *)
Lemma rollover_clears_history_witness :
  let s := set_window (Some sample_window)
             (set_history [blank; blank] (init rollover false)) in
  let l := {| loop_window := Some sample_window; last_status := zero |} in
  exists s1,
    let l1 := {| loop_window := Some sample_window; last_status := last_status l |} in
    (refresh_window l s = Raise TypeError s1 \/
     refresh_window l s = Ok (Replaced sample_window, l1) s1) /\
    length (history s1) = 0 /\ history s1 = [] /\ window s1 = Some sample_window /\
    (refresh_window l s = Ok (Replaced sample_window, l1) s1 ->
     exists l2 s2,
       iteration false l s = Ok l2 s2 /\
       candidates s2 = candidates s /\ alerts s2 = alerts s /\
       match _get_full_book (env s1) (steps s1) with
       | Some snap => history s2 = [snap]
       | None => history s2 = []
       end) /\
    (forall (k : nat) (l' : Locals),
       Forall (polled_since (env s) (steps s))
              (history (final (iterations false k l' s1)))).
Proof.
  cbn zeta.
  apply (rollover_clears_history false
           {| loop_window := Some sample_window; last_status := zero |}
           (set_window (Some sample_window)
              (set_history [blank; blank] (init rollover false)))
           sample_window); reflexivity.
Defined.

(** *** Comparisons of floats *)

Lemma compare_antisym (x y : float) (c : comparison) :
  SFcompare x y = Some c -> SFcompare y x = Some (CompOpp c).
Proof.
  destruct x as [[]|[]| |[] m1 e1], y as [[]|[]| |[] m2 e2]; cbn;
    try (intros [= <-]; reflexivity); try discriminate.
  - change (Pos.compare_cont Eq m2 m1) with (m2 ?= m1)%positive.
    change (Pos.compare_cont Eq m1 m2) with (m1 ?= m2)%positive.
    rewrite (Z.compare_antisym e2 e1), (Pos.compare_antisym m2 m1).
    destruct (e2 ?= e1)%Z, (m2 ?= m1)%positive; cbn; intros [= <-]; reflexivity.
  - change (Pos.compare_cont Eq m2 m1) with (m2 ?= m1)%positive.
    change (Pos.compare_cont Eq m1 m2) with (m1 ?= m2)%positive.
    rewrite (Z.compare_antisym e2 e1), (Pos.compare_antisym m2 m1).
    destruct (e2 ?= e1)%Z, (m2 ?= m1)%positive; cbn; intros [= <-]; reflexivity.
Qed.

Lemma compare_nan (x y : float) :
  is_nan x = false -> is_nan y = false -> is_Some (SFcompare x y).
Proof.
  destruct x as [[]|[]| |[] m1 e1], y as [[]|[]| |[] m2 e2]; cbn;
    intros; try discriminate; eexists; reflexivity.
Qed.

(** [not (x <= y)] means [y < x], unless one of them is a NaN. *)
Lemma not_le_gt (x y : float) :
  leb x y = false -> is_nan x = false -> is_nan y = false -> ltb y x = true.
Proof.
  intros Hle Hx Hy. destruct (compare_nan x y Hx Hy) as [c Hc].
  unfold leb, SFleb in Hle. unfold ltb, SFltb.
  rewrite (compare_antisym _ _ _ Hc). rewrite Hc in Hle.
  destruct c; cbn; congruence.
Qed.

(** [not (x >= y)] means [x < y], unless one of them is a NaN. *)
Lemma not_ge_lt (x y : float) :
  geb x y = false -> is_nan x = false -> is_nan y = false -> ltb x y = true.
Proof. intros; apply not_le_gt; assumption. Qed.

(** [min(a, b)] is never greater than [b]. *)
Lemma py_min_not_above (a b : float) :
  is_nan b = false -> gtb (py_min a b) b = false.
Proof.
  intros Hb. unfold py_min, gtb. destruct (ltb b a) eqn:E; [ | exact E ].
  unfold ltb, SFltb in *.
  destruct (SFcompare b b) as [c|] eqn:Hc; [ | reflexivity ].
  pose proof (compare_antisym _ _ _ Hc) as Hc'. rewrite Hc in Hc'.
  destruct c; try reflexivity; discriminate.
Qed.

(** *** Invariants: what every statement of the loop maintains *)

Lemma maintains_bind {A B} (P : State -> Prop) (c : M State A) (k : A -> M State B) :
  maintains P c -> (forall a, maintains P (k a)) -> maintains P (bind c k).
Proof.
  intros Hc Hk s Hs. apply final_bind; [ apply Hc, Hs | intros a s' Hs'; apply Hk, Hs' ].
Qed.

Lemma maintains_ret {A} (P : State -> Prop) (a : A) : maintains P (ret a).
Proof. intros s Hs; exact Hs. Qed.

Lemma maintains_raise {A} (P : State -> Prop) (e : exn) :
  maintains P (raise e : M State A).
Proof. intros s Hs; exact Hs. Qed.

Lemma maintains_gets {A} (P : State -> Prop) (f : State -> A) : maintains P (gets f).
Proof. intros s Hs; exact Hs. Qed.

Lemma maintains_truediv (P : State -> Prop) (a b : float) : maintains P (truediv a b).
Proof. intros s Hs. unfold truediv. destruct (Float64.eqb b zero); exact Hs. Qed.

Lemma maintains_index_from_end {A} (P : State -> Prop) (l : list A) (k : nat) :
  maintains P (index_from_end l k).
Proof.
  intros s Hs. unfold index_from_end.
  destruct (Nat.leb 1 k && Nat.leb k (length l)); [ | exact Hs ].
  destruct (l !! (length l - k)); exact Hs.
Qed.

Lemma maintains_for_each {A} (P : State -> Prop) (xs : list A) (body : A -> M State unit) :
  (forall x, maintains P (body x)) -> maintains P (for_each xs body).
Proof.
  intros Hb. induction xs as [|x rest IH]; [ apply maintains_ret | ].
  cbn [for_each]. apply maintains_bind; [ apply Hb | intros _; exact IH ].
Qed.

Lemma maintains_modify (P : State -> Prop) (f : State -> State) :
  (forall s, P s -> P (f s)) -> maintains P (modify f).
Proof. intros Hf s Hs. exact (Hf s Hs). Qed.

(** A property that none of the assignments of [_fire_alert] disturbs. *)
Lemma fire_alert_maintains (P : State -> Prop) (alert : Alert) :
  (forall l s, P s -> P (set_candidates l s)) ->
  (forall n s, P s -> P (set_steps n s)) ->
  (forall m s, P s -> P (set_last_alert_time m s)) ->
  (forall n s, P s -> P (set_alert_count n s)) ->
  (forall l s, P s -> P (set_alerts l s)) ->
  (forall l s, P s -> P (set_logger l s)) ->
  (forall l s, P s -> P (set_alert_log l s)) ->
  maintains P (_fire_alert alert).
Proof.
  intros Hc Hs Hm Hn Ha Hl Hf. unfold _fire_alert.
  apply maintains_bind; [ apply maintains_modify; solve [auto] | intros _ ].
  apply maintains_bind.
  { unfold _can_alert. apply maintains_bind; [ apply maintains_gets | intros last ].
    apply maintains_bind; [ | intros now; apply maintains_ret ].
    intros s H. apply Hs, H. }
  intros can. destruct (negb can); [ apply maintains_ret | ].
  do 4 (apply maintains_bind; [ apply maintains_modify; solve [auto] | intros _ ]).
  apply maintains_bind.
  { destruct (data alert); [ apply maintains_ret | ].
    destruct (Json.to_json_default_str _); [ | apply maintains_raise ].
    apply maintains_modify; solve [auto]. }
  intros _. unfold append_alert_log.
  apply maintains_bind; [ intros s H; apply Hs, H | intros written ].
  destruct written; [ apply maintains_modify; solve [auto] | apply maintains_ret ].
Qed.

(** A property that neither logging nor placing an order disturbs. *)
Lemma counter_trade_maintains (P : State -> Prop) (snap : BookSnapshot)
    (label : string) (mid_now mid_prev : float) :
  (forall l s, P s -> P (set_logger l s)) ->
  (forall t p z, maintains P (place_order t p z)) ->
  maintains P (_counter_trade snap label mid_now mid_prev).
Proof.
  intros Hl Ho. unfold _counter_trade.
  apply maintains_bind; [ apply maintains_gets | intros [w|]; [ | apply maintains_ret ] ].
  cbv zeta.
  destruct (ltb mid_now mid_prev), (String.eqb label "UP");
    match goal with
    | |- context [leb ?p (decimal 1 100) || geb ?p (decimal 99 100)] =>
        destruct (leb p (decimal 1 100) || geb p (decimal 99 100));
        [ apply maintains_ret | ]
    end;
    (apply maintains_bind; [ apply maintains_truediv | intros q ]);
    match goal with
    | |- context [ltb ?z (of_Z 1)] =>
        destruct (ltb z (of_Z 1)); [ apply maintains_ret | ]
    end;
    (apply maintains_bind; [ apply maintains_modify; solve [auto] | intros _; apply Ho ]).
Qed.

Section Invariant.

Variable P : State -> Prop.

Hypothesis P_steps : forall n s, P s -> P (set_steps n s).
Hypothesis P_logger : forall l s, P s -> P (set_logger l s).
Hypothesis P_fire : forall alert, maintains P (_fire_alert alert).
(* the counter-trade is only reached with trading enabled *)
Hypothesis P_trade :
  forall snap label mid_now mid_prev s,
    P s -> trade_enabled s = true ->
    P (final (_counter_trade snap label mid_now mid_prev s)).

Lemma check_price_jump_maintains (snap prev : BookSnapshot) :
  maintains P (_check_price_jump snap prev).
Proof.
  unfold _check_price_jump. apply maintains_bind.
  { unfold btc_pct_move. destruct (truthy (btc_price prev)); [ | apply maintains_ret ].
    apply maintains_bind; [ apply maintains_truediv | intros q; apply maintains_ret ]. }
  intros btc_pct. apply maintains_for_each. intros [[label mid_now] mid_prev].
  destruct (negb (truthy mid_now) || negb (truthy mid_prev)); [ apply maintains_ret | ].
  cbv zeta. destruct (price_jump_fires _ _); [ | apply maintains_ret ].
  apply maintains_bind; [ apply P_fire | intros _ ].
  intros s Hs. unfold bind, gets.
  destruct (trade_enabled s) eqn:E; cbn [andb]; [ | exact Hs ].
  destruct (geb _ COUNTER_TRADE_EDGE); [ | exact Hs ].
  apply P_trade; assumption.
Qed.

Lemma check_depth_drop_maintains (snap : BookSnapshot) :
  maintains P (_check_depth_drop snap).
Proof.
  unfold _check_depth_drop. apply maintains_bind; [ apply maintains_gets | intros h ].
  destruct (Nat.ltb (length h) DEPTH_DROP_WINDOW); [ apply maintains_ret | ].
  apply maintains_bind; [ apply maintains_index_from_end | intros ref ].
  destruct (ltb (total_depth ref) (of_Z 1)); [ apply maintains_ret | ].
  apply maintains_bind; [ apply maintains_truediv | intros drop_pct ].
  destruct (geb drop_pct DEPTH_DROP_PCT); [ apply P_fire | apply maintains_ret ].
Qed.

Lemma check_volume_vanish_maintains (snap prev : BookSnapshot) :
  maintains P (_check_volume_vanish snap prev).
Proof.
  unfold _check_volume_vanish. apply maintains_for_each. intros [[label now_v] prev_v].
  cbv zeta. destruct (geb _ VOLUME_VANISH_THRESHOLD); [ apply P_fire | apply maintains_ret ].
Qed.

Lemma check_divergence_maintains (snap : BookSnapshot) :
  maintains P (_check_divergence snap).
Proof.
  unfold _check_divergence. apply maintains_bind; [ apply maintains_gets | intros [p|] ];
    [ | apply maintains_ret ].
  destruct (negb (truthy p) || negb (truthy (btc_price snap))); [ apply maintains_ret | ].
  apply maintains_bind; [ apply maintains_truediv | intros q ]. cbv zeta.
  destruct (gtb _ _ && truthy (mid_up snap) && ltb (mid_up snap) _); [ apply P_fire | ].
  destruct (ltb _ _ && truthy (mid_down snap) && ltb (mid_down snap) _);
    [ apply P_fire | apply maintains_ret ].
Qed.

Lemma check_spread_maintains (snap prev : BookSnapshot) :
  maintains P (_check_spread snap prev).
Proof.
  unfold _check_spread. apply maintains_for_each.
  intros [[[[label bid] ask] prev_bid] prev_ask].
  destruct (negb _); [ apply maintains_ret | ]. cbv zeta.
  destruct (gtb _ zero); [ | apply maintains_ret ].
  apply maintains_bind; [ apply maintains_truediv | intros x ].
  destruct (geb x (of_Z 3) && _); [ apply P_fire | apply maintains_ret ].
Qed.

Lemma analyze_maintains (snap : BookSnapshot) : maintains P (analyze snap).
Proof.
  unfold analyze. apply maintains_bind; [ apply maintains_gets | intros h ].
  destruct (Nat.ltb (length h) 2); [ apply maintains_ret | ].
  apply maintains_bind; [ apply maintains_index_from_end | intros prev ].
  apply maintains_bind; [ apply check_price_jump_maintains | intros _ ].
  apply maintains_bind; [ apply check_depth_drop_maintains | intros _ ].
  apply maintains_bind; [ apply check_volume_vanish_maintains | intros _ ].
  apply maintains_bind; [ apply check_divergence_maintains | intros _ ].
  apply check_spread_maintains.
Qed.

Hypothesis P_sleeps : forall l s, P s -> P (set_sleeps l s).
Hypothesis P_history : forall h s, P s -> P (set_history h s).
Hypothesis P_window : forall w s, P s -> P (set_window w s).
Hypothesis P_start_price : forall p s, P s -> P (set_start_price p s).

Lemma maintains_ask {A} (f : Oracle -> nat -> A) : maintains P (ask f).
Proof. intros s Hs. apply P_steps, Hs. Qed.

Lemma maintains_log (level : string) (msg : text) : maintains P (log level msg).
Proof. apply maintains_modify; solve [auto]. Qed.

Lemma maintains_sleep (d : float) : maintains P (sleep d).
Proof. apply maintains_modify; solve [auto]. Qed.

Lemma refresh_window_maintains (l : Locals) : maintains P (refresh_window l).
Proof.
  unfold refresh_window. apply maintains_bind.
  { destruct (loop_window l); [ apply maintains_ask | apply maintains_ret ]. }
  intros stale. destruct (negb stale); [ apply maintains_ret | ].
  apply maintains_bind; [ apply maintains_ask | intros w ].
  apply maintains_bind.
  { destruct w; [ apply maintains_ask | apply maintains_ret ]. }
  intros active. destruct w as [w|]; [ | apply maintains_ret ].
  destruct active; [ | apply maintains_ret ].
  apply maintains_bind; [ apply maintains_modify; solve [auto] | intros _ ].
  apply maintains_bind; [ apply maintains_ask | intros btc ].
  apply maintains_bind; [ apply maintains_modify; solve [auto] | intros _ ].
  apply maintains_bind; [ apply maintains_modify; solve [auto] | intros _ ].
  destruct btc; [ | apply maintains_raise ].
  apply maintains_bind; [ apply maintains_ask | intros t ].
  apply maintains_bind; [ apply maintains_log | intros _; apply maintains_ret ].
Qed.

Lemma wait_for_next_window_maintains (l : Locals) :
  maintains P (wait_for_next_window l).
Proof.
  unfold wait_for_next_window.
  apply maintains_bind; [ apply maintains_ask | intros nxt ].
  apply maintains_bind; [ apply maintains_ask | intros now ]. cbv zeta.
  destruct (gtb _ zero).
  - apply maintains_bind; [ apply maintains_ask | intros now' ].
    apply maintains_bind.
    { destruct (gtb _ (of_Z 30)); [ | apply maintains_ret ].
      apply maintains_bind; [ apply maintains_log | intros _ ].
      apply maintains_bind; [ apply maintains_ask | intros; apply maintains_ret ]. }
    intros l'. apply maintains_bind; [ apply maintains_sleep | intros _; apply maintains_ret ].
  - apply maintains_bind; [ apply maintains_sleep | intros _; apply maintains_ret ].
Qed.

Lemma poll_maintains (verbose : bool) (l : Locals) : maintains P (poll verbose l).
Proof.
  unfold poll. apply maintains_bind; [ apply maintains_ask | intros [snap|] ].
  - apply maintains_bind; [ apply analyze_maintains | intros _ ].
    apply maintains_bind; [ apply maintains_modify; solve [auto] | intros _ ].
    apply maintains_bind; [ apply maintains_ask | intros now ].
    apply maintains_bind.
    { destruct (geb _ (of_Z 30)); [ | apply maintains_ret ].
      apply maintains_bind; [ apply maintains_ask | intros t ].
      apply maintains_bind; [ apply maintains_gets | intros n1 ].
      apply maintains_bind; [ apply maintains_gets | intros n2 ].
      apply maintains_bind; [ apply maintains_log | intros _; apply maintains_ret ]. }
    intros l'. apply maintains_bind.
    { destruct verbose; [ apply maintains_log | apply maintains_ret ]. }
    intros _. apply maintains_bind; [ apply maintains_sleep | intros _; apply maintains_ret ].
  - apply maintains_bind; [ apply maintains_sleep | intros _; apply maintains_ret ].
Qed.

Lemma iteration_maintains (verbose : bool) (l : Locals) :
  maintains P (iteration verbose l).
Proof.
  unfold iteration. apply maintains_bind; [ apply refresh_window_maintains | ].
  intros [[| w |] l']; [ apply poll_maintains | apply poll_maintains
                        | apply wait_for_next_window_maintains ].
Qed.

Lemma iterations_maintains (verbose : bool) (k : nat) (l : Locals) :
  maintains P (iterations verbose k l).
Proof.
  revert l. induction k as [|k IH]; intros l; [ apply maintains_ret | ].
  cbn [iterations]. apply maintains_bind; [ apply iteration_maintains | intros l'; apply IH ].
Qed.

End Invariant.

(** *** What each detector hands to the gate *)

Lemma depth_drop_hands_on (snap : BookSnapshot) (s : State) :
  exists s', _check_depth_drop snap s = Ok tt s' /\
             extends s s' (depth_drop_candidates (history s) snap).
Proof.
  unfold _check_depth_drop, depth_drop_candidates.
  destruct (Nat.ltb (length (history s)) DEPTH_DROP_WINDOW) eqn:Hlen.
  { exists s. split; [|apply extends_refl].
    step (gets_eq history s). now rewrite Hlen. }
  apply Nat.ltb_ge in Hlen as Hge.
  destruct (index_from_end_ok (history s) DEPTH_DROP_WINDOW s) as (ref & E & Href).
  { unfold DEPTH_DROP_WINDOW in *. lia. }
  rewrite Href. unfold drop_pct_value.
  destruct (ltb (total_depth ref) (of_Z 1)) eqn:Hd.
  { exists s. split; [|apply extends_refl].
    step (gets_eq history s). rewrite Hlen. step E. now rewrite Hd. }
  pose proof (truediv_ok (sub (total_depth ref) (total_depth snap)) (total_depth ref) s
                (ge_one_nonzero _ Hd)) as Eq.
  destruct (geb (quot (sub (total_depth ref) (total_depth snap)) (total_depth ref))
              DEPTH_DROP_PCT) eqn:Hg.
  - destruct (fire_alert_ok (depth_drop_alert snap ref
      (quot (sub (total_depth ref) (total_depth snap)) (total_depth ref))) s)
      as (s1 & E1 & H1); [reflexivity|].
    exists s1; split; [|exact H1].
    step (gets_eq history s). rewrite Hlen. step E. rewrite Hd. step Eq.
    rewrite Hg. exact E1.
  - exists s. split; [|apply extends_refl].
    step (gets_eq history s). rewrite Hlen. step E. rewrite Hd. step Eq.
    now rewrite Hg.
Qed.

Lemma volume_vanish_turn_hands_on (snap : BookSnapshot) (label : string)
    (now_v prev_v : float) (s : State) :
  exists s',
    (let vanished := sub prev_v now_v in
     if geb vanished VOLUME_VANISH_THRESHOLD
     then _fire_alert (volume_vanish_alert snap label now_v prev_v)
     else ret tt) s = Ok tt s' /\
    extends s s' (volume_vanish_candidate snap label now_v prev_v).
Proof.
  unfold volume_vanish_candidate. cbn zeta. destruct (geb _ _).
  - destruct (fire_alert_ok (volume_vanish_alert snap label now_v prev_v) s)
      as (s1 & E1 & H1); [reflexivity|]. eauto.
  - exists s. split; [reflexivity|apply extends_refl].
Qed.

Lemma volume_vanish_hands_on (snap prev : BookSnapshot) (s : State) :
  exists s', _check_volume_vanish snap prev s = Ok tt s' /\
             extends s s' (volume_vanish_candidates snap prev).
Proof.
  destruct (volume_vanish_turn_hands_on snap "UP_BIDS" (depth_up_bids snap)
              (depth_up_bids prev) s) as (s1 & E1 & H1).
  destruct (volume_vanish_turn_hands_on snap "UP_ASKS" (depth_up_asks snap)
              (depth_up_asks prev) s1) as (s2 & E2 & H2).
  destruct (volume_vanish_turn_hands_on snap "DOWN_BIDS" (depth_down_bids snap)
              (depth_down_bids prev) s2) as (s3 & E3 & H3).
  destruct (volume_vanish_turn_hands_on snap "DOWN_ASKS" (depth_down_asks snap)
              (depth_down_asks prev) s3) as (s4 & E4 & H4).
  exists s4. split.
  - unfold _check_volume_vanish. cbn [for_each].
    step E1. step E2. step E3. step E4. reflexivity.
  - unfold volume_vanish_candidates.
    eapply extends_trans; [eassumption|].
    eapply extends_trans; [eassumption|].
    eapply extends_trans; eassumption.
Qed.

Lemma divergence_hands_on (snap : BookSnapshot) (s : State) :
  exists s', _check_divergence snap s = Ok tt s' /\
             extends s s' (divergence_candidates (start_price s) snap).
Proof.
  unfold _check_divergence, divergence_candidates.
  destruct (start_price s) as [p0|] eqn:Hs.
  2:{ exists s. split; [|apply extends_refl].
      step (gets_eq start_price s). now rewrite Hs. }
  destruct (truthy p0) eqn:Hp.
  2:{ exists s. split; [|apply extends_refl].
      step (gets_eq start_price s). rewrite Hs, Hp. reflexivity. }
  destruct (truthy (btc_price snap)) eqn:Hb.
  2:{ exists s. split; [|apply extends_refl].
      step (gets_eq start_price s). rewrite Hs, Hp. reflexivity. }
  pose proof (truediv_ok (sub (btc_price snap) p0) p0 s (truthy_nonzero _ Hp)) as Eq.
  cbn [negb orb]. unfold btc_delta_pct_value, cheap.
  set (pct := mul (quot (sub (btc_price snap) p0) p0) (of_Z 100)).
  set (low := sub (decimal 50 100) DIVERGENCE_THRESHOLD).
  destruct (gtb pct (decimal 3 100) && truthy (mid_up snap) && ltb (mid_up snap) low)
    eqn:Hup.
  { destruct (fire_alert_ok (divergence_alert snap true pct) s)
      as (s1 & E1 & H1); [reflexivity|].
    exists s1; split; [|exact H1].
    step (gets_eq start_price s). rewrite Hs, Hp. cbn [negb orb].
    step Eq. cbn zeta. fold pct low. rewrite Hup. exact E1. }
  destruct (ltb pct (SFopp (decimal 3 100)) && truthy (mid_down snap)
            && ltb (mid_down snap) low) eqn:Hdown.
  { destruct (fire_alert_ok (divergence_alert snap false pct) s)
      as (s1 & E1 & H1); [reflexivity|].
    exists s1; split; [|exact H1].
    step (gets_eq start_price s). rewrite Hs, Hp. cbn [negb orb].
    step Eq. cbn zeta. fold pct low. rewrite Hup, Hdown. exact E1. }
  exists s. split; [|apply extends_refl].
  step (gets_eq start_price s). rewrite Hs, Hp. cbn [negb orb].
  step Eq. cbn zeta. fold pct low. now rewrite Hup, Hdown.
Qed.

Lemma spread_turn_hands_on (snap : BookSnapshot) (label : string)
    (bid ask prev_bid prev_ask : float) (s : State) :
  exists s',
    (if negb (truthy bid && truthy ask && truthy prev_bid && truthy prev_ask)
     then ret tt
     else
       let spread_now := sub ask bid in
       let spread_prev := sub prev_ask prev_bid in
       if gtb spread_prev zero then
         spread_expansion <- truediv spread_now spread_prev ;;
         if geb spread_expansion (of_Z 3) && geb spread_now (decimal 10 100)
         then _fire_alert (spread_alert snap label spread_prev spread_now
                             spread_expansion)
         else ret tt
       else ret tt) s = Ok tt s' /\
    extends s s' (spread_candidate snap label bid ask prev_bid prev_ask).
Proof.
  unfold spread_candidate.
  destruct (truthy bid && truthy ask && truthy prev_bid && truthy prev_ask);
    cbn [negb andb]; [|exists s; split; [reflexivity|apply extends_refl]].
  cbn zeta. destruct (gtb (sub prev_ask prev_bid) zero) eqn:Hpos; cbn [andb].
  2:{ exists s. split; [reflexivity|apply extends_refl]. }
  pose proof (truediv_ok (sub ask bid) (sub prev_ask prev_bid) s
                (positive_nonzero _ Hpos)) as Eq.
  destruct (geb (quot (sub ask bid) (sub prev_ask prev_bid)) (of_Z 3)
            && geb (sub ask bid) (decimal 10 100)) eqn:Hf.
  - destruct (fire_alert_ok (spread_alert snap label (sub prev_ask prev_bid)
       (sub ask bid) (quot (sub ask bid) (sub prev_ask prev_bid))) s)
      as (s1 & E1 & H1); [reflexivity|].
    exists s1; split; [|exact H1]. step Eq. rewrite Hf. exact E1.
  - exists s. split; [|apply extends_refl]. step Eq. now rewrite Hf.
Qed.

Lemma spread_hands_on (snap prev : BookSnapshot) (s : State) :
  exists s', _check_spread snap prev s = Ok tt s' /\
             extends s s' (spread_candidates snap prev).
Proof.
  destruct (spread_turn_hands_on snap "UP" (bid_up snap) (ask_up snap)
              (bid_up prev) (ask_up prev) s) as (s1 & E1 & H1).
  destruct (spread_turn_hands_on snap "DOWN" (bid_down snap) (ask_down snap)
              (bid_down prev) (ask_down prev) s1) as (s2 & E2 & H2).
  exists s2. split; [|exact (extends_trans _ _ _ _ _ H1 H2)].
  unfold _check_spread. cbn [for_each]. step E1. step E2. reflexivity.
Qed.

Lemma analyze_hands_on (snap : BookSnapshot) (s : State) :
  exists s', analyze snap s = Ok tt s' /\
             extends s s' (analyze_candidates (history s) (start_price s) snap).
Proof.
  unfold analyze, analyze_candidates.
  destruct (Nat.ltb (length (history s)) 2) eqn:Hlen.
  { exists s. split; [|apply extends_refl].
    step (gets_eq history s). now rewrite Hlen. }
  apply Nat.ltb_ge in Hlen as Hge.
  destruct (index_from_end_ok (history s) 1 s) as (prev & E & Hprev); [lia|].
  rewrite Hprev.
  destruct (check_price_jump_ok snap prev s) as (s1 & E1 & H1).
  destruct (depth_drop_hands_on snap s1) as (s2 & E2 & H2).
  destruct (volume_vanish_hands_on snap prev s2) as (s3 & E3 & H3).
  destruct (divergence_hands_on snap s3) as (s4 & E4 & H4).
  destruct (spread_hands_on snap prev s4) as (s5 & E5 & H5).
  assert (Hh : history s1 = history s) by apply H1.
  assert (Hp : start_price s3 = start_price s).
  { destruct H1 as (_ & _ & _ & K1 & _), H2 as (_ & _ & _ & K2 & _),
      H3 as (_ & _ & _ & K3 & _). congruence. }
  rewrite Hh in H2. rewrite Hp in H4.
  exists s5. split.
  - step (gets_eq history s). rewrite Hlen. step E.
    step E1. step E2. step E3. step E4. exact E5.
  - eapply extends_trans; [eassumption|].
    eapply extends_trans; [eassumption|].
    eapply extends_trans; [eassumption|].
    eapply extends_trans; eassumption.
Qed.

(** *** The rules of the detectors *)

Lemma price_jump_candidate_short (snap : BookSnapshot) (btc_pct : pyval)
    (label : string) (mid_now mid_prev : float) :
  length (price_jump_candidate snap btc_pct label mid_now mid_prev) <= 1.
Proof. unfold price_jump_candidate. destruct (_ && _); cbn; lia. Qed.

Lemma depth_drop_candidates_short (h : list BookSnapshot) (snap : BookSnapshot) :
  length (depth_drop_candidates h snap) <= 1.
Proof.
  unfold depth_drop_candidates. destruct (Nat.ltb _ _); [ cbn; lia | ].
  destruct (h !! _); [ | cbn; lia ].
  destruct (ltb _ _); [ cbn; lia | ]. destruct (geb _ _); cbn; lia.
Qed.

Lemma volume_vanish_candidate_short (snap : BookSnapshot) (label : string)
    (now_v prev_v : float) :
  length (volume_vanish_candidate snap label now_v prev_v) <= 1.
Proof. unfold volume_vanish_candidate. destruct (geb _ _); cbn; lia. Qed.

Lemma divergence_candidates_short (start : option float) (snap : BookSnapshot) :
  length (divergence_candidates start snap) <= 1.
Proof.
  unfold divergence_candidates. destruct start as [p|]; [ | cbn; lia ].
  destruct (_ || _); [ cbn; lia | ].
  destruct (_ && _ && _); [ cbn; lia | ]. destruct (_ && _ && _); cbn; lia.
Qed.

Lemma spread_candidate_short (snap : BookSnapshot) (label : string)
    (bid ask prev_bid prev_ask : float) :
  length (spread_candidate snap label bid ask prev_bid prev_ask) <= 1.
Proof. unfold spread_candidate. destruct (_ && _); cbn; lia. Qed.

(** X1.  One analysis pass always returns and hands to the gate exactly the
    candidates of the five detectors, in the order price jump, depth drop,
    volume vanish, divergence, spread blow-out, each computed from the new
    snapshot and from the history and start price as the pass found them
    (what an earlier detector handed on or traded does not change what a
    later one sees): at most ten candidates, none with fewer than two
    snapshots in the history.  History, window and start price are left
    alone. *)
Theorem analysis_pass_candidates (s : State) (snap : BookSnapshot) :
  exists s',
    analyze snap s = Ok tt s' /\
    candidates s'
    = (candidates s ++ analyze_candidates (history s) (start_price s) snap)%list /\
    history s' = history s /\ window s' = window s /\
    start_price s' = start_price s /\
    length (analyze_candidates (history s) (start_price s) snap) <= 10 /\
    (length (history s) < 2 ->
     analyze_candidates (history s) (start_price s) snap = []) /\
    (forall prev,
       2 <= length (history s) -> last (history s) = Some prev ->
       analyze_candidates (history s) (start_price s) snap
       = (price_jump_candidates snap prev ++ depth_drop_candidates (history s) snap ++
          volume_vanish_candidates snap prev ++
          divergence_candidates (start_price s) snap ++
          spread_candidates snap prev)%list).
Proof.
  destruct (analyze_hands_on snap s) as (s' & E & Hc & Hh & Hw & Hp & _).
  exists s'. repeat split; auto.
  - unfold analyze_candidates. destruct (Nat.ltb _ _); [ cbn; lia | ].
    destruct (_ !! _) as [prev|]; [ | cbn; lia ].
    unfold price_jump_candidates, volume_vanish_candidates, spread_candidates.
    rewrite !length_app.
    pose proof (price_jump_candidate_short snap (btc_pct_value snap prev) "UP"
                  (mid_up snap) (mid_up prev)).
    pose proof (price_jump_candidate_short snap (btc_pct_value snap prev) "DOWN"
                  (mid_down snap) (mid_down prev)).
    pose proof (depth_drop_candidates_short (history s) snap).
    pose proof (volume_vanish_candidate_short snap "UP_BIDS" (depth_up_bids snap)
                  (depth_up_bids prev)).
    pose proof (volume_vanish_candidate_short snap "UP_ASKS" (depth_up_asks snap)
                  (depth_up_asks prev)).
    pose proof (volume_vanish_candidate_short snap "DOWN_BIDS" (depth_down_bids snap)
                  (depth_down_bids prev)).
    pose proof (volume_vanish_candidate_short snap "DOWN_ASKS" (depth_down_asks snap)
                  (depth_down_asks prev)).
    pose proof (divergence_candidates_short (start_price s) snap).
    pose proof (spread_candidate_short snap "UP" (bid_up snap) (ask_up snap)
                  (bid_up prev) (ask_up prev)).
    pose proof (spread_candidate_short snap "DOWN" (bid_down snap) (ask_down snap)
                  (bid_down prev) (ask_down prev)).
    lia.
  - intros Hlen. unfold analyze_candidates.
    destruct (Nat.ltb_spec (length (history s)) 2); [ reflexivity | lia ].
  - intros prev Hlen Hlast. unfold analyze_candidates.
    destruct (Nat.ltb_spec (length (history s)) 2); [ lia | ].
    rewrite last_lookup in Hlast.
    replace (length (history s) - 1) with (pred (length (history s))) by lia.
    rewrite Hlast. reflexivity.
Qed.

(** X2.  [_check_depth_drop] always returns.  With fewer than three
    snapshots in the history it hands on nothing.  Otherwise the reference
    is the snapshot third from the end, and with
    [drop_pct = (ref.total_depth - snap.total_depth) / ref.total_depth] it
    hands on one [DEPTH_DROP] candidate if and only if the reference depth
    is not below 1 and [drop_pct >= 0.40], and nothing otherwise; the
    candidate is stamped with the snapshot's time, is CRITICAL from 0.70,
    HIGH from 0.55, else MEDIUM, and carries both depths and
    [drop_pct]. *)
Theorem depth_drop_rule (s : State) (snap : BookSnapshot) :
  exists s',
    _check_depth_drop snap s = Ok tt s' /\
    candidates s' = (candidates s ++ depth_drop_candidates (history s) snap)%list /\
    (length (history s) < 3 -> depth_drop_candidates (history s) snap = []) /\
    (forall ref,
       3 <= length (history s) ->
       history s !! (length (history s) - 3) = Some ref ->
       let drop_pct := quot (sub (total_depth ref) (total_depth snap)) (total_depth ref) in
       let alert := depth_drop_alert snap ref drop_pct in
       (depth_drop_candidates (history s) snap = [alert] <->
          ltb (total_depth ref) (of_Z 1) = false /\
          geb drop_pct (decimal 40 100) = true) /\
       (depth_drop_candidates (history s) snap = [] \/
        depth_drop_candidates (history s) snap = [alert]) /\
       alert_type alert = "DEPTH_DROP" /\
       alert_ts alert = ts snap /\
       severity alert
       = (if geb drop_pct (decimal 70 100) then "CRITICAL"
          else if geb drop_pct (decimal 55 100) then "HIGH" else "MEDIUM") /\
       field "drop_pct" (data alert) = Some (PFloat drop_pct) /\
       field "depth_before" (data alert) = Some (PFloat (total_depth ref)) /\
       field "depth_after" (data alert) = Some (PFloat (total_depth snap))).
Proof.
  destruct (depth_drop_hands_on snap s) as (s' & E & Hc & _).
  exists s'. split; [ exact E | ]. split; [ exact Hc | ]. split.
  - intros Hlen. unfold depth_drop_candidates, DEPTH_DROP_WINDOW.
    destruct (Nat.ltb_spec (length (history s)) 3); [ reflexivity | lia ].
  - intros ref Hlen Href. cbv zeta.
    unfold depth_drop_candidates, DEPTH_DROP_WINDOW, drop_pct_value, DEPTH_DROP_PCT.
    destruct (Nat.ltb_spec (length (history s)) 3); [ lia | ].
    rewrite Href.
    destruct (ltb (total_depth ref) (of_Z 1));
      [ | destruct (geb _ (decimal 40 100)) ];
      (split; [ split; [ intros; try discriminate; auto
                       | intros [? ?]; try discriminate; auto ] | ]);
      repeat split; auto.
Qed.

(** X3.  [_check_volume_vanish] always returns and hands on the candidates
    of the four book sides in the order UP_BIDS, UP_ASKS, DOWN_BIDS,
    DOWN_ASKS.  A side yields a candidate if and only if
    [vanished = prev - now >= 50]; its type is [VOLUME_VANISH_<side>], its
    severity HIGH from 100 and MEDIUM below, and it carries
    [vanished]. *)
Theorem volume_vanish_rule (s : State) (snap prev : BookSnapshot) :
  exists s',
    _check_volume_vanish snap prev s = Ok tt s' /\
    candidates s' = (candidates s ++ volume_vanish_candidates snap prev)%list /\
    volume_vanish_candidates snap prev
    = (volume_vanish_candidate snap "UP_BIDS" (depth_up_bids snap) (depth_up_bids prev) ++
       volume_vanish_candidate snap "UP_ASKS" (depth_up_asks snap) (depth_up_asks prev) ++
       volume_vanish_candidate snap "DOWN_BIDS" (depth_down_bids snap)
         (depth_down_bids prev) ++
       volume_vanish_candidate snap "DOWN_ASKS" (depth_down_asks snap)
         (depth_down_asks prev))%list /\
    (forall (label : string) (now_v prev_v : float),
       let vanished := sub prev_v now_v in
       let alert := volume_vanish_alert snap label now_v prev_v in
       (volume_vanish_candidate snap label now_v prev_v = [alert] <->
          geb vanished (of_Z 50) = true) /\
       (volume_vanish_candidate snap label now_v prev_v = [] \/
        volume_vanish_candidate snap label now_v prev_v = [alert]) /\
       alert_type alert = "VOLUME_VANISH_" +:+ label /\
       alert_ts alert = ts snap /\
       severity alert = (if geb vanished (of_Z 100) then "HIGH" else "MEDIUM") /\
       field "vanished" (data alert) = Some (PFloat vanished)).
Proof.
  destruct (volume_vanish_hands_on snap prev s) as (s' & E & Hc & _).
  exists s'. split; [ exact E | ]. split; [ exact Hc | ]. split; [ reflexivity | ].
  intros label now_v prev_v. cbv zeta.
  unfold volume_vanish_candidate, VOLUME_VANISH_THRESHOLD.
  destruct (geb (sub prev_v now_v) (of_Z 50));
    (split; [ split; intros; try discriminate; auto | ]); repeat split; auto.
Qed.

(** X4.  [_check_divergence] always returns and hands on at most one
    candidate, never both an UP_CHEAP and a DOWN_CHEAP one.  With no start
    price, a zero start price or a zero reference price it hands on
    nothing.  A candidate is HIGH, stamped with the snapshot's time, and is
    either DIVERGENCE_UP_CHEAP (the reference price is more than 0.03 %
    above the start price and the UP mid is nonzero and below 0.35) or
    DIVERGENCE_DOWN_CHEAP (more than 0.03 % below, DOWN mid nonzero and
    below 0.35); [0.50 - DIVERGENCE_THRESHOLD] is the double 0.35. *)
Theorem divergence_rule (s : State) (snap : BookSnapshot) :
  exists s',
    _check_divergence snap s = Ok tt s' /\
    candidates s' = (candidates s ++ divergence_candidates (start_price s) snap)%list /\
    length (divergence_candidates (start_price s) snap) <= 1 /\
    (start_price s = None -> divergence_candidates (start_price s) snap = []) /\
    (forall p,
       start_price s = Some p ->
       let pct := mul (quot (sub (btc_price snap) p) p) (of_Z 100) in
       (truthy p = false \/ truthy (btc_price snap) = false ->
        divergence_candidates (start_price s) snap = []) /\
       (forall a,
          a ∈ divergence_candidates (start_price s) snap ->
          truthy p = true /\ truthy (btc_price snap) = true /\
          severity a = "HIGH" /\ alert_ts a = ts snap /\
          field "btc_delta_pct" (data a) = Some (PFloat pct) /\
          ((alert_type a = "DIVERGENCE_UP_CHEAP" /\
            gtb pct (decimal 3 100) = true /\ truthy (mid_up snap) = true /\
            ltb (mid_up snap) cheap = true /\
            field "mid_up" (data a) = Some (PFloat (mid_up snap))) \/
           (alert_type a = "DIVERGENCE_DOWN_CHEAP" /\
            ltb pct (SFopp (decimal 3 100)) = true /\ truthy (mid_down snap) = true /\
            ltb (mid_down snap) cheap = true /\
            field "mid_down" (data a) = Some (PFloat (mid_down snap)))))) /\
    cheap = decimal 35 100.
Proof.
  destruct (divergence_hands_on snap s) as (s' & E & Hc & _).
  exists s'. split; [ exact E | ]. split; [ exact Hc | ].
  split; [ apply divergence_candidates_short | ].
  split; [ intros ->; reflexivity | ].
  split; [ | vm_compute; reflexivity ].
  intros p ->. cbv zeta. unfold divergence_candidates, btc_delta_pct_value. split.
  - intros [-> | ->]; cbn [negb orb]; [ reflexivity | ].
    rewrite orb_true_r. reflexivity.
  - intros a. destruct (truthy p); cbn [negb orb]; [ | intros H; inversion H ].
    destruct (truthy (btc_price snap)); cbn [negb orb]; [ | intros H; inversion H ].
    destruct (gtb _ (decimal 3 100) && truthy (mid_up snap) && ltb (mid_up snap) cheap)
      eqn:Hup.
    { intros Ha. apply list_elem_of_singleton in Ha as ->.
      apply andb_true_iff in Hup as [Hup H3]. apply andb_true_iff in Hup as [H1 H2].
      repeat split; auto. left. repeat split; auto. }
    destruct (ltb _ (SFopp (decimal 3 100)) && truthy (mid_down snap)
              && ltb (mid_down snap) cheap) eqn:Hdown; [ | intros H; inversion H ].
    intros Ha. apply list_elem_of_singleton in Ha as ->.
    apply andb_true_iff in Hdown as [Hdown H3]. apply andb_true_iff in Hdown as [H1 H2].
    repeat split; auto. right. repeat split; auto.
Qed.

(** X5.  [_check_spread] always returns and hands on the candidates of UP,
    then DOWN.  An instrument yields a candidate if and only if its four
    quotes (bid and ask, now and before) are all nonzero, the previous
    spread is positive, the spread is at least 3 times the previous one
    and at least 0.10; the candidate is [SPREAD_BLOWOUT_<label>], HIGH from
    5 times and MEDIUM below, and carries the expansion. *)
Theorem spread_rule (s : State) (snap prev : BookSnapshot) :
  exists s',
    _check_spread snap prev s = Ok tt s' /\
    candidates s' = (candidates s ++ spread_candidates snap prev)%list /\
    spread_candidates snap prev
    = (spread_candidate snap "UP" (bid_up snap) (ask_up snap) (bid_up prev) (ask_up prev) ++
       spread_candidate snap "DOWN" (bid_down snap) (ask_down snap)
         (bid_down prev) (ask_down prev))%list /\
    (forall (label : string) (bid ask prev_bid prev_ask : float),
       let spread_now := sub ask bid in
       let spread_prev := sub prev_ask prev_bid in
       let expansion := quot spread_now spread_prev in
       let alert := spread_alert snap label spread_prev spread_now expansion in
       (spread_candidate snap label bid ask prev_bid prev_ask = [alert] <->
          truthy bid = true /\ truthy ask = true /\
          truthy prev_bid = true /\ truthy prev_ask = true /\
          gtb spread_prev zero = true /\
          geb expansion (of_Z 3) = true /\
          geb spread_now (decimal 10 100) = true) /\
       (spread_candidate snap label bid ask prev_bid prev_ask = [] \/
        spread_candidate snap label bid ask prev_bid prev_ask = [alert]) /\
       alert_type alert = "SPREAD_BLOWOUT_" +:+ label /\
       alert_ts alert = ts snap /\
       severity alert = (if geb expansion (of_Z 5) then "HIGH" else "MEDIUM") /\
       field "expansion" (data alert) = Some (PFloat expansion)).
Proof.
  destruct (spread_hands_on snap prev s) as (s' & E & Hc & _).
  exists s'. split; [ exact E | ]. split; [ exact Hc | ]. split; [ reflexivity | ].
  intros label bid ask prev_bid prev_ask. cbv zeta. unfold spread_candidate.
  split; [ | split ].
  - destruct (_ && _) eqn:H.
    + split; [ intros _ | reflexivity ].
      repeat (apply andb_true_iff in H as [H ?]). repeat split; assumption.
    + split; [ discriminate | ].
      intros (H1 & H2 & H3 & H4 & H5 & H6 & H7).
      rewrite H1, H2, H3, H4, H5, H6, H7 in H. discriminate.
  - destruct (_ && _); auto.
  - repeat split; auto.
Qed.

(** *** The counter-trade *)

Lemma place_order_eq (token_id : string) (price size : float) (s : State) :
  exists s',
    place_order token_id price size s = Ok tt s' /\
    orders s' = (orders s ++ [{| order_token := token_id; order_price := price;
                                 order_size := size |}])%list /\
    trade_count s'
    = (if accepted (place_limit_buy (env s) (steps s))
       then S (trade_count s) else trade_count s) /\
    alerts s' = alerts s /\ history s' = history s /\ window s' = window s.
Proof.
  unfold place_order, bind, modify, ask, log. cbn [env steps set_orders].
  destruct (place_limit_buy _ _) as [[|c id]|]; cbn;
    eexists; (split; [reflexivity|]); cbn; repeat split; auto.
Qed.

(** The common end of both branches of [_counter_trade], with what the
    guards let through. *)
Ltac guarded_buy w :=
  let Hle := fresh "Hle" in
  let Hge := fresh "Hge" in
  let Hlt := fresh "Hlt" in
  match goal with
  | |- context [leb ?p (decimal 1 100) || _] =>
      destruct (leb p (decimal 1 100)) eqn:Hle; cbn [orb];
      [ eexists; split; [ reflexivity | repeat split; auto ] | ];
      destruct (geb p (decimal 99 100)) eqn:Hge;
      [ eexists; split; [ reflexivity | repeat split; auto ] | ];
      unfold bind at 1;
      rewrite truediv_ok by (apply above_cent_nonzero; exact Hle);
      cbn zeta;
      match goal with
      | |- context [ltb ?z (of_Z 1)] =>
          destruct (ltb z (of_Z 1)) eqn:Hlt;
          [ eexists; split; [ reflexivity | repeat split; auto ] | ]
      end;
      unfold bind, log, modify;
      match goal with
      | |- context [place_order ?t ?q ?z ?st] =>
          let s2 := fresh "s2" in
          let E2 := fresh "E2" in
          let Ho := fresh "Ho" in
          let Ht := fresh "Ht" in
          let Ha := fresh "Ha" in
          let Hh := fresh "Hh" in
          let Hw := fresh "Hw" in
          destruct (place_order_eq t q z st) as (s2 & E2 & Ho & Ht & Ha & Hh & Hw);
          rewrite E2; exists s2; split; [ reflexivity | ];
          cbn in Ho, Ht, Ha, Hh, Hw;
          split; [ exact Ha | ]; split; [ exact Hh | ];
          split; [ congruence | ]; split; [ congruence | ];
          right; exists w; eexists; split; [ reflexivity | ];
          split; [ exact Ho | ]; cbn;
          repeat split; auto;
          first [ apply not_le_gt; [ exact Hle | assumption | reflexivity ]
                | apply not_ge_lt; [ exact Hge | assumption | reflexivity ] ]
      end
  end.

(** X6.  [_counter_trade] always returns (the venue client is taken to
    answer an order id or [None]) and places at most one order.  Without
    a loaded window it places none.  An order it places is for one of
    the window's two tokens (the token that got cheaper, or the
    other side of the one that got dearer), at a price that is neither
    <= 0.01 nor >= 0.99 (so strictly between them unless the price is a
    NaN), for the size [round(5 / price, 1)], which is not below 1; the
    trade counter goes up by one exactly when the venue returned a
    non-empty order id.  Alerts, history and window are left alone. *)
Theorem counter_trade_guards (s : State) (snap : BookSnapshot) (label : string)
    (mid_now mid_prev : float) :
  exists s',
    _counter_trade snap label mid_now mid_prev s = Ok tt s' /\
    alerts s' = alerts s /\ history s' = history s /\ window s' = window s /\
    (window s = None -> orders s' = orders s /\ trade_count s' = trade_count s) /\
    ((orders s' = orders s /\ trade_count s' = trade_count s) \/
     exists w o,
       window s = Some w /\
       orders s' = (orders s ++ [o])%list /\
       order_token o
       = (if Bool.eqb (String.eqb label "UP") (ltb mid_now mid_prev)
          then token_id_up w else token_id_down w) /\
       leb (order_price o) (decimal 1 100) = false /\
       geb (order_price o) (decimal 99 100) = false /\
       (is_nan (order_price o) = false ->
        ltb (decimal 1 100) (order_price o) = true /\
        ltb (order_price o) (decimal 99 100) = true) /\
       order_size o = round (quot COUNTER_TRADE_SIZE (order_price o)) 1 /\
       ltb (order_size o) (of_Z 1) = false /\
       trade_count s'
       = (if accepted (place_limit_buy (env s) (steps s))
          then S (trade_count s) else trade_count s)).
Proof.
  unfold _counter_trade. unfold bind at 1. unfold gets.
  destruct (window s) as [w|] eqn:Hwin.
  2:{ eexists; split; [ reflexivity | repeat split; auto ]. }
  destruct (ltb mid_now mid_prev); destruct (String.eqb label "UP");
    cbn zeta iota beta; guarded_buy w.
Qed.

(** *** Invariants of the loop *)

Lemma place_order_maintains (P : State -> Prop) (token_id : string)
    (price size : float) :
  (forall l s, P s -> P (set_orders l s)) ->
  (forall n s, P s -> P (set_steps n s)) ->
  (forall n s, P s -> P (set_trade_count n s)) ->
  (forall l s, P s -> P (set_logger l s)) ->
  maintains P (place_order token_id price size).
Proof.
  intros Ho Hs Ht Hl. unfold place_order.
  apply maintains_bind; [ apply maintains_modify; solve [auto] | intros _ ].
  apply maintains_bind; [ intros s H; apply Hs, H | intros [[|c id]|] ];
    try apply maintains_ret.
  apply maintains_bind; apply maintains_modify || intros _; try solve [auto].
  apply maintains_modify; solve [auto].
Qed.

(** The counter kept beside the list of alerts. *)
Lemma fire_alert_counts (alert : Alert) :
  maintains (fun s => alert_count s = length (alerts s)) (_fire_alert alert).
Proof.
  intros s Hs. unfold _fire_alert, bind, modify. rewrite can_alert_eq.
  cbn [steps last_alert_time set_candidates env].
  destruct (geb _ _); cbn [negb]; [ | exact Hs ].
  unfold log, modify, append_alert_log, bind, ask.
  destruct (data alert); [ | destruct (Json.to_json_default_str _) ];
    cbn; try destruct (alert_log_write _ _); cbn;
    rewrite length_app; cbn; lia.
Qed.

(** X8.  [alert_count] is the number of alerts kept in [alerts]: if the two
    agree, they still agree after any number of passes through the loop
    body (also one that ends in an exception), after one analysis pass, and
    after one call of [_fire_alert]. *)
Theorem alert_count_is_number_of_alerts (verbose : bool) (k : nat) (l : Locals)
    (s : State) :
  alert_count s = length (alerts s) ->
  alert_count (final (iterations verbose k l s))
  = length (alerts (final (iterations verbose k l s))) /\
  (forall snap,
     alert_count (final (analyze snap s)) = length (alerts (final (analyze snap s)))) /\
  (forall alert,
     alert_count (final (_fire_alert alert s))
     = length (alerts (final (_fire_alert alert s)))).
Proof.
  intros Hs.
  assert (Ht : forall snap label a b s0,
            alert_count s0 = length (alerts s0) -> trade_enabled s0 = true ->
            alert_count (final (_counter_trade snap label a b s0))
            = length (alerts (final (_counter_trade snap label a b s0)))).
  { intros snap label a b s0 H0 _.
    apply (counter_trade_maintains (fun s => alert_count s = length (alerts s)));
      [ auto | | exact H0 ].
    intros; apply place_order_maintains; auto. }
  split; [ | split ].
  - apply (iterations_maintains (fun s => alert_count s = length (alerts s)));
      auto using fire_alert_counts.
  - intros snap.
    apply (analyze_maintains (fun s => alert_count s = length (alerts s)));
      auto using fire_alert_counts.
  - intros alert. apply fire_alert_counts, Hs.
Qed.

(** Three passes into [squeeze] two alerts have fired; the pass in which
    the book falls back fires two more. *)
Lemma alert_count_is_number_of_alerts_witness :
  alert_count (midway true) = length (alerts (midway true)) /\
  alert_count (final (iterations false 1 (watching true) (midway true)))
  = length (alerts (final (iterations false 1 (watching true) (midway true)))) /\
  length (alerts (midway true)) = 2%nat /\
  length (alerts (final (iterations false 1 (watching true) (midway true)))) = 4%nat.
Proof.
  assert (H : alert_count (midway true) = length (alerts (midway true)))
    by (vm_compute; reflexivity).
  split; [ exact H | ].
  split; [ exact (proj1 (alert_count_is_number_of_alerts false 1 (watching true)
                           (midway true) H)) | ].
  split; vm_compute; reflexivity.
Defined.

(** X7.  With [trade_enabled] false (no [--trade]) the loop never places an
    order: after any number of passes the orders sent to the venue and the
    trade counter are what they were, and trading is still off. *)
Theorem no_orders_when_trading_is_off (verbose : bool) (k : nat) (l : Locals)
    (s : State) :
  trade_enabled s = false ->
  orders (final (iterations verbose k l s)) = orders s /\
  trade_count (final (iterations verbose k l s)) = trade_count s /\
  trade_enabled (final (iterations verbose k l s)) = false.
Proof.
  intros Hs.
  set (P := fun s' => trade_enabled s' = false /\ orders s' = orders s /\
                      trade_count s' = trade_count s).
  assert (H : P (final (iterations verbose k l s))).
  { apply (iterations_maintains P);
      [ unfold P; cbn; solve [auto] | unfold P; cbn; solve [auto]
      | intros alert; apply fire_alert_maintains; unfold P; cbn; solve [auto]
      | intros snap label a b s0 (H0 & _) H1; congruence
      | unfold P; cbn; solve [auto] .. | unfold P; auto ]. }
  destruct H as (H1 & H2 & H3). auto.
Qed.

(** Without [--trade], the pass of [squeeze] in which the book falls back
    fires two alerts and sends no order; with it, the same pass brings
    the orders sent from two to four. *)
Lemma no_orders_when_trading_is_off_witness :
  trade_enabled (midway false) = false /\
  orders (final (iterations true 1 (watching false) (midway false)))
  = orders (midway false) /\
  length (alerts (midway false)) = 2%nat /\
  length (alerts (final (iterations true 1 (watching false) (midway false)))) = 4%nat /\
  length (orders (midway true)) = 2%nat /\
  length (orders (final (iterations true 1 (watching true) (midway true)))) = 4%nat.
Proof.
  assert (H : trade_enabled (midway false) = false) by (vm_compute; reflexivity).
  split; [ exact H | ].
  split; [ exact (proj1 (no_orders_when_trading_is_off true 1 (watching false)
                           (midway false) H)) | ].
  repeat split; vm_compute; reflexivity.
Defined.

(** X9.  Every counted counter-trade is an order that was placed: if
    [trade_count] does not exceed the number of orders sent, it still does
    not after any number of passes through the loop body, and no order
    sent is ever taken back. *)
Theorem orders_cover_trade_count (verbose : bool) (k : nat) (l : Locals) (s : State) :
  trade_count s <= length (orders s) ->
  trade_count (final (iterations verbose k l s))
  <= length (orders (final (iterations verbose k l s))) /\
  length (orders s) <= length (orders (final (iterations verbose k l s))).
Proof.
  intros Hs.
  set (P := fun s' => trade_count s' <= length (orders s') /\
                      length (orders s) <= length (orders s')).
  assert (Ho : forall t p z, maintains P (place_order t p z)).
  { intros t p z s0 (H0 & H1). unfold P, place_order, bind, modify, ask, log.
    cbn [env steps set_orders].
    destruct (place_limit_buy _ _) as [[|c id]|]; cbn; rewrite length_app; cbn; lia. }
  assert (H : P (final (iterations verbose k l s))).
  { apply (iterations_maintains P);
      [ unfold P; cbn; solve [auto] | unfold P; cbn; solve [auto]
      | intros alert; apply fire_alert_maintains; unfold P; cbn; solve [auto]
      | intros snap label a b s0 H0 _;
        apply (counter_trade_maintains P); [ unfold P; cbn; auto | exact Ho | exact H0 ]
      | unfold P; cbn; solve [auto] .. | unfold P; cbn; lia ]. }
  exact H.
Qed.

(** Three passes into [squeeze] two orders have been sent, one of which
    the venue refused; the pass in which the book falls back sends two
    more, one of them refused. *)
Lemma orders_cover_trade_count_witness :
  trade_count (midway true) <= length (orders (midway true)) /\
  trade_count (final (iterations false 1 (watching true) (midway true)))
  <= length (orders (final (iterations false 1 (watching true) (midway true)))) /\
  (trade_count (midway true), length (orders (midway true))) = (1%nat, 2%nat) /\
  (trade_count (final (iterations false 1 (watching true) (midway true))),
   length (orders (final (iterations false 1 (watching true) (midway true)))))
  = (2%nat, 4%nat).
Proof.
  assert (H : trade_count (midway true) <= length (orders (midway true)))
    by (vm_compute; repeat constructor).
  split; [ exact H | ].
  split; [ exact (proj1 (orders_cover_trade_count false 1 (watching true)
                           (midway true) H)) | ].
  split; vm_compute; reflexivity.
Defined.

(** X10.  The alert log holds only alerts that fired, in the order they
    fired: if the lines of [ALERT_LOG] are a subsequence of the lines of
    the alerts in [alerts], they still are after any number of passes
    through the loop body.  (A suppressed candidate is never logged; a
    fired alert is missing from the file when the write failed.) *)
Theorem alert_log_holds_only_fired_alerts (verbose : bool) (k : nat) (l : Locals)
    (s : State) :
  alert_log s `sublist_of` map log_line (alerts s) ->
  alert_log (final (iterations verbose k l s))
    `sublist_of` map log_line (alerts (final (iterations verbose k l s))).
Proof.
  intros Hs.
  set (P := fun s' => alert_log s' `sublist_of` map log_line (alerts s')).
  assert (Hf : forall alert, maintains P (_fire_alert alert)).
  { intros alert s0 H0. unfold P in *. unfold _fire_alert, bind, modify.
    rewrite can_alert_eq. cbn [steps last_alert_time set_candidates env].
    destruct (geb _ _); cbn [negb]; [ | exact H0 ].
    unfold log, modify, append_alert_log, bind, ask.
    destruct (data alert) eqn:Hd; [ | destruct (Json.to_json_default_str _) ];
      cbn; try destruct (alert_log_write _ _); cbn;
      rewrite map_app; cbn; unfold log_line in *; rewrite ?Hd;
      first [ apply sublist_app; [ exact H0 | reflexivity ]
            | apply sublist_inserts_r; exact H0 ]. }
  apply (iterations_maintains P);
    [ unfold P; cbn; solve [auto] | unfold P; cbn; solve [auto]
    | exact Hf
    | intros snap label a b s0 H0 _;
      apply (counter_trade_maintains P); [ unfold P; cbn; auto | | exact H0 ];
      intros; apply place_order_maintains; unfold P; cbn; solve [auto]
    | unfold P; cbn; solve [auto] .. | exact Hs ].
Qed.

(** Three passes into [squeeze] two alerts have fired, one of which could
    not be logged; the pass in which the book falls back fires two more,
    one of which is logged. *)
Lemma alert_log_holds_only_fired_alerts_witness :
  alert_log (midway true) `sublist_of` map log_line (alerts (midway true)) /\
  alert_log (final (iterations false 1 (watching true) (midway true)))
    `sublist_of`
    map log_line (alerts (final (iterations false 1 (watching true) (midway true)))) /\
  (length (alert_log (midway true)), length (alerts (midway true))) = (1%nat, 2%nat) /\
  (length (alert_log (final (iterations false 1 (watching true) (midway true)))),
   length (alerts (final (iterations false 1 (watching true) (midway true)))))
  = (2%nat, 4%nat).
Proof.
  assert (H : alert_log (midway true) `sublist_of` map log_line (alerts (midway true))).
  { vm_compute.
    repeat first [ apply sublist_nil | apply sublist_skip | apply sublist_cons ]. }
  split; [ exact H | ].
  split; [ exact (alert_log_holds_only_fired_alerts false 1 (watching true)
                    (midway true) H) | ].
  split; vm_compute; reflexivity.
Defined.

(** *** One pass through the loop body *)

Lemma analyze_keeps_sleeps (snap : BookSnapshot) (s : State) :
  sleeps (final (analyze snap s)) = sleeps s.
Proof.
  apply (analyze_maintains (fun x => sleeps x = sleeps s));
    [ intros alert; apply fire_alert_maintains; cbn; solve [auto]
    | intros sn label a b s0 H0 _;
      apply (counter_trade_maintains (fun x => sleeps x = sleeps s));
      [ cbn; solve [auto]
      | intros; apply place_order_maintains; cbn; solve [auto]
      | exact H0 ]
    | reflexivity ].
Qed.

Lemma wait_for_next_window_ok (l : Locals) (s : State) :
  exists l' s' d,
    wait_for_next_window l s = Ok l' s' /\
    sleeps s' = (sleeps s ++ [d])%list /\
    gtb d (of_Z 10) = false /\
    (d = of_Z 5 \/
     exists wait, gtb wait zero = true /\ d = py_min (add wait (of_Z 1)) (of_Z 10)) /\
    loop_window l' = loop_window l /\
    history s' = history s /\ window s' = window s /\
    start_price s' = start_price s /\ candidates s' = candidates s /\
    alerts s' = alerts s /\ orders s' = orders s /\ env s' = env s.
Proof.
  unfold wait_for_next_window, bind, ask, modify, sleep, log, modify, ret.
  cbn [env steps set_steps].
  destruct (gtb (sub (next_window_timestamp (env s) (steps s))
                     (time_time (env s) (S (steps s)))) zero) eqn:Hw.
  - destruct (gtb _ (of_Z 30)); do 3 eexists; (split; [ reflexivity | ]);
      cbn [sleeps set_sleeps set_steps set_logger loop_window history window
           start_price candidates alerts orders env];
      (split; [ reflexivity | ]);
      (split; [ apply py_min_not_above; reflexivity | ]);
      (split; [ right; eexists; split; [ exact Hw | reflexivity ] | ]);
      repeat split; reflexivity.
  - do 3 eexists. split; [ reflexivity | ].
    cbn [sleeps set_sleeps set_steps set_logger loop_window history window
         start_price candidates alerts orders env].
    split; [ reflexivity | ]. split; [ reflexivity | ].
    split; [ left; reflexivity | ]. repeat split; reflexivity.
Qed.

Lemma poll_ok (verbose : bool) (l : Locals) (s : State) :
  exists l' s',
    poll verbose l s = Ok l' s' /\
    sleeps s' = (sleeps s ++ [POLL_INTERVAL])%list /\
    loop_window l' = loop_window l /\ env s' = env s /\
    window s' = window s /\ start_price s' = start_price s /\
    history s'
    = match _get_full_book (env s) (steps s) with
      | Some snap => deque_append HISTORY_SIZE snap (history s)
      | None => history s
      end /\
    candidates s'
    = (candidates s ++
       match _get_full_book (env s) (steps s) with
       | Some snap => analyze_candidates (history s) (start_price s) snap
       | None => []
       end)%list.
Proof.
  unfold poll.
  destruct (_get_full_book (env s) (steps s)) as [snap|] eqn:Hb.
  - destruct (analyze_hands_on snap (set_steps (S (steps s)) s))
      as (s1 & Ea & Hc & Hh & Hw & Hp & _ & He & _).
    pose proof (analyze_keeps_sleeps snap (set_steps (S (steps s)) s)) as Hs.
    rewrite Ea in Hs. cbn in Hs, Hc, Hh, Hw, Hp, He.
    destruct (geb (sub (time_time (env s1) (steps s1)) (last_status l)) (of_Z 30))
      eqn:Hg; destruct verbose;
      (do 2 eexists; split;
       [ step (ask_eq _get_full_book s); rewrite Hb; step Ea;
         unfold bind, history_append, modify, ask, gets, log, modify, sleep, modify;
         cbn [env steps set_steps set_history history];
         rewrite ?Hg; reflexivity
       | cbn; rewrite ?Hs, ?Hh, ?Hw, ?Hp, ?He, ?Hc; repeat split; reflexivity ]).
  - do 2 eexists. split.
    + step (ask_eq _get_full_book s). rewrite Hb. reflexivity.
    + cbn. rewrite app_nil_r. repeat split; reflexivity.
Qed.

(** What the window check leaves behind, by outcome. *)
Lemma refresh_window_outcome (l : Locals) (s : State) :
  match refresh_window l s with
  | Ok (r, l') s' =>
      sleeps s' = sleeps s /\ env s' = env s /\ candidates s' = candidates s /\
      alerts s' = alerts s /\ orders s' = orders s /\
      match r with
      | Replaced w => history s' = [] /\ window s' = Some w /\ loop_window l' = Some w
      | _ => l' = l /\ history s' = history s /\ window s' = window s /\
             start_price s' = start_price s
      end
  | Raise e s' =>
      e = TypeError /\ sleeps s' = sleeps s /\ history s' = [] /\
      start_price s' = None /\
      exists n, steps s <= n /\ get_price (env s) n = None
  end.
Proof.
  unfold refresh_window, bind, ask, modify, history_clear, log, modify, ret, raise.
  destruct (loop_window l) as [w0|]; cbn [env steps set_steps];
    repeat match goal with
           | |- context [match ?x with _ => _ end] =>
               lazymatch x with
               | context [match _ with _ => _ end] => fail
               | _ => destruct x eqn:?
               end; cbn [env steps set_steps set_window set_start_price set_history
                         set_logger negb]
           end;
    cbn; repeat split; auto;
    eexists; (split; [ | eassumption ]); lia.
Qed.

(** The two outcomes of one pass through the loop body. *)
Lemma iteration_outcome (verbose : bool) (l : Locals) (s : State) :
  match iteration verbose l s with
  | Ok l' s' =>
      exists d,
        sleeps s' = (sleeps s ++ [d])%list /\
        gtb d (of_Z 10) = false /\
        (d = POLL_INTERVAL \/ d = of_Z 5 \/
         exists wait, gtb wait zero = true /\
                      d = py_min (add wait (of_Z 1)) (of_Z 10))
  | Raise e s' =>
      e = TypeError /\ sleeps s' = sleeps s /\ history s' = [] /\
      exists n, steps s <= n /\ get_price (env s) n = None
  end.
Proof.
  unfold iteration, bind. pose proof (refresh_window_outcome l s) as H.
  destruct (refresh_window l s) as [[r l1] s1|e s1].
  - destruct H as (Hs & _).
    assert (Hp : forall l2 s2, poll verbose l1 s1 = Ok l2 s2 ->
              exists d, sleeps s2 = (sleeps s ++ [d])%list /\
                gtb d (of_Z 10) = false /\
                (d = POLL_INTERVAL \/ d = of_Z 5 \/
                 exists wait, gtb wait zero = true /\
                              d = py_min (add wait (of_Z 1)) (of_Z 10))).
    { intros l2 s2 E. destruct (poll_ok verbose l1 s1) as (l3 & s3 & E3 & H3 & _).
      rewrite E in E3. injection E3 as <- <-.
      exists POLL_INTERVAL. rewrite H3, Hs. repeat split; auto. }
    destruct r as [|w|].
    + destruct (poll_ok verbose l1 s1) as (l3 & s3 & E3 & _).
      rewrite E3. apply (Hp _ _ E3).
    + destruct (poll_ok verbose l1 s1) as (l3 & s3 & E3 & _).
      rewrite E3. apply (Hp _ _ E3).
    + destruct (wait_for_next_window_ok l1 s1)
        as (l3 & s3 & d & E3 & H3 & Hd & Hk & _).
      rewrite E3. exists d. rewrite H3, Hs. repeat split; auto.
  - destruct H as (-> & Hs & Hh & _ & Hn). auto.
Qed.

(** X11.  A pass through the body of [while True] that completes has slept
    exactly once, for [POLL_INTERVAL], for 5 seconds, or for
    [min(wait + 1, 10)] with [wait > 0], and never for more than 10
    seconds.  A pass that does not complete raised [TypeError] while
    installing a window for which the feed had no price
    ([f"{btc:.2f}"] of [None]): it has not slept and has cleared the
    history.  Nothing else in the loop body raises, the calls into the
    venue client and the feed being taken to return. *)
Theorem iteration_sleeps_once (verbose : bool) (l : Locals) (s : State) :
  match iteration verbose l s with
  | Ok l' s' =>
      exists d,
        sleeps s' = (sleeps s ++ [d])%list /\
        gtb d (of_Z 10) = false /\
        (d = POLL_INTERVAL \/ d = of_Z 5 \/
         exists wait, gtb wait zero = true /\
                      d = py_min (add wait (of_Z 1)) (of_Z 10))
  | Raise e s' =>
      e = TypeError /\ sleeps s' = sleeps s /\ history s' = [] /\
      exists n, steps s <= n /\ get_price (env s) n = None
  end.
Proof.
  exact (iteration_outcome verbose l s).
Qed.

(** X12.  As long as the feed answers a price whenever asked, any number of
    passes through the loop body complete, each with one sleep. *)
Theorem loop_runs_while_feed_has_price (verbose : bool) (k : nat) (l : Locals)
    (s : State) :
  (forall n, is_Some (get_price (env s) n)) ->
  exists l' s',
    iterations verbose k l s = Ok l' s' /\
    length (sleeps s') = length (sleeps s) + k /\
    env s' = env s.
Proof.
  revert l s. induction k as [|k IH]; intros l s Hp.
  - exists l, s. cbn. repeat split; auto.
  - pose proof (iteration_outcome verbose l s) as H.
    assert (He : env (final (iteration verbose l s)) = env s).
    { apply (iteration_maintains (fun x => env x = env s));
        [ cbn; solve [auto] | cbn; solve [auto]
        | intros alert; apply fire_alert_maintains; cbn; solve [auto]
        | intros sn label a b s0 H0 _;
          apply (counter_trade_maintains (fun x => env x = env s));
          [ cbn; solve [auto]
          | intros; apply place_order_maintains; cbn; solve [auto]
          | exact H0 ]
        | cbn; solve [auto] .. | reflexivity ]. }
    destruct (iteration verbose l s) as [l1 s1|e s1] eqn:E.
    + destruct H as (d & Hd & _). cbn in He.
      destruct (IH l1 s1) as (l2 & s2 & E2 & H2 & He2).
      { intros n. rewrite He. apply Hp. }
      exists l2, s2. split; [ | split ].
      * cbn [iterations]. step E. exact E2.
      * rewrite H2, Hd, length_app. cbn. lia.
      * congruence.
    + destruct H as (_ & _ & _ & n & _ & Hn).
      destruct (Hp n) as [p Hpn]. congruence.
Qed.

(** The feed of [rollover] always has a price. *)
Lemma loop_runs_while_feed_has_price_witness :
  exists l' s',
    iterations false 3 {| loop_window := None; last_status := zero |}
      (init rollover false) = Ok l' s' /\
    length (sleeps s') = length (sleeps (init rollover false)) + 3 /\
    env s' = env (init rollover false).
Proof.
  apply (loop_runs_while_feed_has_price false 3
           {| loop_window := None; last_status := zero |} (init rollover false)).
  intros n. eexists. reflexivity.
Defined.

(** X13.  While no active window can be fetched (the fetch answers nothing, or
    a window that is not active), a pass with no usable window polls no
    order book and changes nothing in the detector: history, window,
    start price, candidates and alerts are as before (the history is not
    cleared until a new window is installed); the pass sleeps once. *)
Theorem waiting_leaves_the_detector_alone (verbose : bool) (l : Locals) (s : State) :
  stale l s = true ->
  fetch_window (env s) (fetch_step l s) = None \/
  is_active (env s) (S (fetch_step l s)) = false ->
  exists l' s',
    iteration verbose l s = Ok l' s' /\
    loop_window l' = loop_window l /\
    history s' = history s /\ window s' = window s /\
    start_price s' = start_price s /\
    candidates s' = candidates s /\ alerts s' = alerts s /\
    length (sleeps s') = S (length (sleeps s)).
Proof.
  unfold stale, fetch_step. intros Hst Hf.
  assert (Er : exists s1, refresh_window l s = Ok (Waiting, l) s1 /\
             history s1 = history s /\ window s1 = window s /\
             start_price s1 = start_price s /\ candidates s1 = candidates s /\
             alerts s1 = alerts s /\ sleeps s1 = sleeps s).
  { unfold refresh_window, bind, ask, modify, history_clear, log, modify, ret.
    destruct (loop_window l) as [w0|];
      cbn [env steps set_steps negb]; rewrite ?Hst; cbn [negb];
      (destruct (fetch_window _ _) as [w|]; cbn [env steps set_steps];
       [ destruct Hf as [Hf|Hf]; [ discriminate | rewrite Hf ] | ]);
      eexists; (split; [ reflexivity | ]); cbn; repeat split; reflexivity. }
  destruct Er as (s1 & E1 & H1 & H2 & H3 & H4 & H5 & H6).
  destruct (wait_for_next_window_ok l s1)
    as (l3 & s3 & d & E3 & K1 & _ & _ & K2 & K3 & K4 & K5 & K6 & K7 & _).
  exists l3, s3. split.
  - unfold iteration. step E1. exact E3.
  - rewrite K1, length_app, H6. cbn. repeat split; try congruence. lia.
Qed.

(** No window loaded and none to fetch, one snapshot left in the history. *)
Lemma waiting_leaves_the_detector_alone_witness :
  let l := {| loop_window := None; last_status := zero |} in
  let s := set_history [blank] (init (quiet (fun _ => zero)) false) in
  exists l' s',
    iteration false l s = Ok l' s' /\
    loop_window l' = loop_window l /\
    history s' = history s /\ window s' = window s /\
    start_price s' = start_price s /\
    candidates s' = candidates s /\ alerts s' = alerts s /\
    length (sleeps s') = S (length (sleeps s)).
Proof.
  apply (waiting_leaves_the_detector_alone false
           {| loop_window := None; last_status := zero |}
           (set_history [blank] (init (quiet (fun _ => zero)) false)));
    [ reflexivity | left; reflexivity ].
Defined.

End DetectorFacts.

(* ===================================================================== *)
(** ** Properties of the alert bus *)
(* ===================================================================== *)

Module SignalFacts.

Import Json Signal.
Local Open Scope nat_scope.

(** *** The lock *)

Lemma keeps_ret {A} (b : bool) (a : A) : keeps b (ret a).
Proof. intros s H. split; [exact H|]. exists []. now rewrite app_nil_r. Qed.

Lemma keeps_raise {A} (b : bool) (e : exn) : keeps b (raise e : M State A).
Proof. intros s H. split; [exact H|]. exists []. now rewrite app_nil_r. Qed.

Lemma keeps_bind {A B} (b : bool) (c : M State A) (k : A -> M State B) :
  keeps b c -> (forall a, keeps b (k a)) -> keeps b (bind c k).
Proof.
  intros Hc Hk s Hs. unfold bind. destruct (Hc s Hs) as (Hl & new & Ht & Hn).
  destruct (c s) as [a s1|e s1]; cbn [final] in *.
  - destruct (Hk a s1 Hl) as (Hl2 & new2 & Ht2 & Hn2). split; [exact Hl2|].
    exists (new ++ new2)%list. rewrite Ht2, Ht, <- app_assoc. split; [reflexivity|].
    rewrite forallb_app, Hn, Hn2. reflexivity.
  - split; [exact Hl|]. eauto.
Qed.

Lemma keeps_try {A} (b : bool) (c : M State A) (h : exn -> M State A) :
  keeps b c -> (forall e, keeps b (h e)) -> keeps b (try_except c h).
Proof.
  intros Hc Hh s Hs. unfold try_except. destruct (Hc s Hs) as (Hl & new & Ht & Hn).
  destruct (c s) as [a s1|e s1]; cbn [final] in *.
  - split; [exact Hl|]. eauto.
  - destruct (Hh e s1 Hl) as (Hl2 & new2 & Ht2 & Hn2). split; [exact Hl2|].
    exists (new ++ new2)%list. rewrite Ht2, Ht, <- app_assoc. split; [reflexivity|].
    rewrite forallb_app, Hn, Hn2. reflexivity.
Qed.

(** A step that touches neither the lock nor the trace. *)
Lemma keeps_silent {A} (b : bool) (c : M State A) :
  (forall s, _lock (final (c s)) = _lock s /\ trace (final (c s)) = trace s) ->
  keeps b c.
Proof.
  intros H s Hs. destruct (H s) as [Hl Ht]. split; [congruence|].
  exists []. now rewrite Ht, app_nil_r.
Qed.

Lemma keeps_gets {A} (b : bool) (f : State -> A) : keeps b (gets f).
Proof. apply keeps_silent. now intros s. Qed.

Lemma keeps_ask {A} (b : bool) (f : Oracle -> nat -> A) : keeps b (ask f).
Proof. apply keeps_silent. now intros s. Qed.

Lemma keeps_log_error (b : bool) (msg : text) : keeps b (log_error msg).
Proof. apply keeps_silent. now intros s. Qed.

Lemma keeps_dumps (b : bool) (v : pyval) : keeps b (dumps v).
Proof. unfold dumps. destruct (to_json v); [apply keeps_ret|apply keeps_raise]. Qed.

Lemma keeps_record (b : bool) (d : delivery) (ok : bool) :
  lock_discipline {| what := d; completed := ok; locked := b |} = true ->
  keeps b (record d ok).
Proof.
  intros H s Hs. cbn. split; [exact Hs|]. eexists. split; [reflexivity|].
  cbn. rewrite Hs, H. reflexivity.
Qed.

Lemma keeps_for_each {A} (b : bool) (xs : list A) (body : A -> M State unit) :
  (forall x, keeps b (body x)) -> keeps b (for_each xs body).
Proof.
  intros H. induction xs as [|x xs IH]; cbn [for_each].
  - apply keeps_ret.
  - apply keeps_bind; [apply H|]. intros _. exact IH.
Qed.

Lemma keeps_with_lock {A} (c : M State A) :
  keeps true c -> keeps false (with_lock c).
Proof.
  intros H s Hs. unfold with_lock.
  destruct (H (set_lock true s) eq_refl) as (Hl & new & Ht & Hn).
  destruct (c (set_lock true s)) as [a s1|e s1]; cbn [final] in *;
    (split; [reflexivity|]); exists new; cbn; auto.
Qed.

Lemma keeps_write_file (alert : pyval) : keeps false (write_file alert).
Proof.
  unfold write_file. apply keeps_bind; [apply keeps_ask|]. intros ok.
  destruct ok; cbn [negb]; [|apply keeps_raise].
  apply keeps_bind; [apply keeps_dumps|]. intros doc.
  apply keeps_bind; [apply keeps_silent; now intros s|]. intros _.
  now apply keeps_record.
Qed.

Lemma keeps_print_alert (alert : pyval) : keeps false (print_alert alert).
Proof.
  unfold print_alert. apply keeps_bind; [apply keeps_dumps|]. intros doc.
  apply keeps_bind; [apply keeps_ask|]. intros ok.
  apply keeps_bind; [now apply keeps_record|]. intros _.
  destruct ok; [apply keeps_ret|apply keeps_raise].
Qed.

Lemma keeps_call_subscriber (alert : pyval) (cb : nat) :
  keeps true (call_subscriber alert cb).
Proof.
  unfold call_subscriber. apply keeps_bind; [apply keeps_ask|]. intros ok.
  apply keeps_bind; [now apply keeps_record|]. intros _.
  destruct ok; [apply keeps_ret|apply keeps_log_error].
Qed.

Lemma keeps_send_to_clients (doc : json) (clients dead : list nat) :
  keeps true (send_to_clients doc clients dead).
Proof.
  revert dead. induction clients as [|c rest IH]; intros dead; cbn [send_to_clients].
  - apply keeps_ret.
  - apply keeps_bind; [apply keeps_ask|]. intros ok.
    apply keeps_bind; [now apply keeps_record|]. intros _. apply IH.
Qed.

Lemma keeps_remove_client (d : nat) : keeps true (remove_client d).
Proof.
  unfold remove_client. apply keeps_bind; [apply keeps_gets|]. intros cs.
  destruct (list_remove d cs); [|apply keeps_raise].
  apply keeps_silent. now intros s.
Qed.

Lemma keeps_broadcast_socket (alert : pyval) : keeps false (_broadcast_socket alert).
Proof.
  unfold _broadcast_socket. apply keeps_bind; [apply keeps_gets|]. intros clients.
  destruct clients; [apply keeps_ret|].
  apply keeps_bind; [apply keeps_dumps|]. intros msg.
  apply keeps_with_lock.
  apply keeps_bind; [apply keeps_gets|]. intros cs.
  apply keeps_bind; [apply keeps_send_to_clients|]. intros dead.
  apply keeps_for_each. apply keeps_remove_client.
Qed.

Lemma keeps_send_webhook (url : string) (alert : pyval) :
  keeps false (_send_webhook url alert).
Proof.
  unfold _send_webhook. apply keeps_try; [|intros; apply keeps_log_error].
  apply keeps_bind; [apply keeps_ask|]. intros ok. cbn zeta.
  apply keeps_bind; [now apply keeps_record|]. intros _.
  destruct (_ && _); [apply keeps_ret|apply keeps_raise].
Qed.

Lemma keeps_emit (code severity source : string) (data : list (pykey * pyval)) :
  keeps false (emit code severity source data).
Proof.
  unfold emit. apply keeps_bind; [apply keeps_bind; [apply keeps_ask|intros; apply keeps_ret]|].
  intros alert. apply keeps_bind; [apply keeps_gets|]. intros cfg.
  apply keeps_bind.
  { destruct (file cfg); [|apply keeps_ret].
    apply keeps_try; [apply keeps_write_file|intros; apply keeps_log_error]. }
  intros _. apply keeps_bind.
  { destruct (stdout cfg); [apply keeps_print_alert|apply keeps_ret]. }
  intros _. apply keeps_bind.
  { apply keeps_with_lock. apply keeps_bind; [apply keeps_gets|]. intros subs.
    apply keeps_for_each. apply keeps_call_subscriber. }
  intros _. apply keeps_bind; [apply keeps_broadcast_socket|].
  intros _. apply keeps_bind.
  { destruct (webhook_url cfg) as [[|c u]|]; try apply keeps_ret.
    apply keeps_send_webhook. }
  intros _. apply keeps_ret.
Qed.

(** *** Serialising and re-reading *)


Lemma dict_get_app_fresh (k : pykey) (v : pyval) (d : list (pykey * pyval)) :
  k ∉ map fst d -> dict_get k (d ++ [(k, v)]) = Some v.
Proof.
  induction d as [|[k' v'] d IH]; cbn; intros H.
  - now destruct (decide (k = k)).
  - apply not_elem_of_cons in H as [Hne Hd].
    destruct (decide (k' = k)); [congruence|]. now apply IH.
Qed.


(** *** What reaches the file *)





















(** *** When [emit] does return *)

Lemma list_remove_perm (x : nat) (l l' : list nat) :
  list_remove x l = Some l' -> l ≡ₚ x :: l'.
Proof.
  revert l'. induction l as [|y l IH]; cbn; intros l' H; [discriminate|].
  destruct (decide (y = x)) as [->|Hne]; [now inversion H|].
  destruct (list_remove x l) as [l0|]; [|discriminate].
  inversion H; subst. rewrite (IH l0 eq_refl). apply Permutation_swap.
Qed.



Lemma bind_eq {A B} (c : M State A) (k : A -> M State B) (s s1 : State) (a : A) :
  c s = Ok a s1 -> bind c k s = k a s1.
Proof. intros H. unfold bind. now rewrite H. Qed.

(** Run the first statement of a sequence with a known result. *)
Ltac run E := eapply eq_trans; [ eapply bind_eq; exact E | cbv beta ].

Lemma send_to_clients_cons (doc : json) (c : nat) (rest dead : list nat)
    (s : State) :
  send_to_clients doc (c :: rest) dead s
  = send_to_clients doc rest
      (if sendall (env s) (steps s) c then dead else dead ++ [c])%list
      (set_trace
         (trace s ++ [{| what := ToSocket c doc;
                         completed := sendall (env s) (steps s) c;
                         locked := _lock s |}])
         (set_steps (S (steps s)) s)).
Proof. reflexivity. Qed.



Lemma call_subscriber_ok (alert : pyval) (cb : nat) (s : State) :
  exists s',
    call_subscriber alert cb s = Ok tt s' /\
    map what (trace s') = (map what (trace s) ++ [ToSubscriber cb alert])%list /\
    _socket_clients s' = _socket_clients s /\ config s' = config s /\
    _lock s' = _lock s /\ env s' = env s.
Proof.
  unfold call_subscriber, bind, ask, record, modify, log_error, modify, ret.
  destruct (callback_returns (env s) (steps s) cb);
    eexists; (split; [reflexivity|]); cbn; rewrite map_app; repeat split; auto.
Qed.

Lemma subscribers_ok (alert : pyval) (subs : list nat) (s : State) :
  exists s',
    for_each subs (call_subscriber alert) s = Ok tt s' /\
    map what (trace s')
    = (map what (trace s) ++ map (fun cb => ToSubscriber cb alert) subs)%list /\
    _socket_clients s' = _socket_clients s /\ config s' = config s /\
    _lock s' = _lock s /\ env s' = env s.
Proof.
  revert s. induction subs as [|cb subs IH]; intros s; cbn [for_each].
  - exists s. rewrite app_nil_r. repeat split; auto.
  - destruct (call_subscriber_ok alert cb s) as (s1 & E1 & Ht1 & Hc1 & Hcf1 & Hl1 & He1).
    destruct (IH s1) as (s2 & E2 & Ht2 & Hc2 & Hcf2 & Hl2 & He2).
    exists s2. split; [run E1; exact E2|].
    rewrite Ht2, Ht1, Hc2, Hc1, Hcf2, Hcf1, Hl2, Hl1, He2, He1, <- app_assoc.
    repeat split; auto.
Qed.



Lemma webhook_ok (alert : pyval) (s : State) :
  exists s',
    match webhook_url (config s) with
    | Some (String c u) => _send_webhook (String c u) alert
    | _ => ret tt
    end s = Ok tt s' /\
    map what (trace s')
    = (map what (trace s) ++
       match webhook_url (config s) with
       | Some (String c u) => [ToWebhook (String c u) alert]
       | _ => []
       end)%list /\
    _lock s' = _lock s.
Proof.
  destruct (webhook_url (config s)) as [[|c u]|];
    try (exists s; rewrite app_nil_r; auto).
  unfold _send_webhook, try_except, bind, ask, record, modify, log_error, modify.
  destruct (requests_post (env s) (steps s) && _);
    eexists; (split; [reflexivity|]); cbn; rewrite map_app; auto.
Qed.


(** *** The lock and the failures, on the whole of [emit] *)

(** C9, as the code has it.  Started with the lock free, [emit] ends with
    the lock free and, of the deliveries it makes, the file append, the
    print and the webhook POST run with the lock free, while every
    subscriber callback and every socket write runs with the lock held:
    the two lists are walked inside [with self._lock], not copied and
    walked outside. *)
Theorem emit_lock_discipline (s : State) (code severity source : string)
    (data : list (pykey * pyval)) :
  _lock s = false ->
  _lock (final (emit code severity source data s)) = false /\
  exists new,
    trace (final (emit code severity source data s)) = (trace s ++ new)%list /\
    Forall (fun e =>
              match what e with
              | ToWebhook _ _ | ToFile _ | ToStdout _ => locked e = false
              | ToSocket _ _ | ToSubscriber _ _ => locked e = true
              end) new.
Proof.
  intros Hs. destruct (keeps_emit code severity source data s Hs)
    as (Hl & new & Ht & Hn).
  split; [exact Hl|]. exists new. split; [exact Ht|].
  apply Forall_forall. intros e He.
  rewrite forallb_forall in Hn. specialize (Hn e (proj1 (list_elem_of_In _ _) He)).
  unfold lock_discipline in Hn. destruct (what e); try exact Hn;
    now apply negb_true_iff in Hn.
Qed.

Lemma emit_lock_discipline_witness :
  let r := emit "NONCE_INCREMENT" "info" "nonce_monitor" []
             (bus everything obliging [1] [7]) in
  _lock (final r) = false /\
  exists new,
    trace (final r) = (trace (bus everything obliging [1] [7]) ++ new)%list /\
    Forall (fun e =>
              match what e with
              | ToWebhook _ _ | ToFile _ | ToStdout _ => locked e = false
              | ToSocket _ _ | ToSubscriber _ _ => locked e = true
              end) new.
Proof.
  cbn zeta.
  apply (emit_lock_discipline (bus everything obliging [1] [7])
           "NONCE_INCREMENT" "info" "nonce_monitor" []).
  reflexivity.
Defined.

(** C9 does not hold as stated: with one client connected, the socket write
    of an [emit] happens while the lock is held. *)
Lemma socket_write_under_lock :
  let r := emit "NONCE_INCREMENT" "info" "nonce_monitor" []
             (bus everything obliging [] [7]) in
  exists doc alert,
    r = Ok alert (final r) /\
    trace (final r)
    = [ {| what := ToFile doc; completed := true; locked := false |};
        {| what := ToSocket 7 doc; completed := true; locked := true |};
        {| what := ToWebhook "https://example.org/hook" alert;
           completed := true; locked := false |} ].
Proof. cbn zeta. do 2 eexists. split; vm_compute; reflexivity. Qed.

(** C1 fails on the code.  (1) File, one subscriber, one socket client and
    a webhook configured; [data] holds a [bytes] value.  The file output
    catches the [TypeError] of [json.dumps] and logs it, the subscriber is
    called, then [_broadcast_socket] serialises the alert outside any [try]:
    [emit] raises [TypeError], nothing is sent to the client and the webhook
    is never tried.  (2) Stdout enabled and closed, [data] empty: [print]
    raises out of [emit] after the file append; subscriber, client and
    webhook are never tried. *)
Theorem emit_raises_past_its_destinations :
  let r1 := emit "NONCE_INCREMENT" "info" "nonce_monitor"
              [(KStr "raw", PBytes "00")] (bus everything obliging [1] [7]) in
  let r2 := emit "NONCE_INCREMENT" "info" "nonce_monitor" []
              (bus with_stdout stdout_closed [1] [7]) in
  (exists alert,
     r1 = Raise TypeError (final r1) /\
     file_lines (final r1) = [] /\
     logger (final r1) = [[Txt "Failed to write alert to file: "]] /\
     map what (trace (final r1)) = [ToSubscriber 1 alert]) /\
  (exists doc,
     r2 = Raise OSError (final r2) /\
     file_lines (final r2) = [doc] /\
     map what (trace (final r2)) = [ToFile doc; ToStdout doc] /\
     map completed (trace (final r2)) = [true; false]).
Proof.
  cbn zeta. split; eexists; repeat split; vm_compute; reflexivity.
Qed.

(** *** Who is delivered to *)

Lemma confined_ret {A} (subs clients : list nat) (a : A) (s : State) :
  confined subs clients (ret a) s.
Proof.
  intros Hs Hc. cbn. repeat split; auto. exists []. rewrite app_nil_r. auto.
Qed.

Lemma confined_quiet {A} (subs clients : list nat) (c : M State A) (s : State) :
  _subscribers (final (c s)) = _subscribers s ->
  _socket_clients (final (c s)) = _socket_clients s ->
  trace (final (c s)) = trace s ->
  confined subs clients c s.
Proof.
  intros H1 H2 H3 Hs Hc. rewrite H1, H2, H3. repeat split; auto.
  exists []. rewrite app_nil_r. auto.
Qed.

Lemma confined_bind {A B} (subs clients : list nat) (c : M State A)
    (k : A -> M State B) (s : State) :
  confined subs clients c s ->
  (forall a s', c s = Ok a s' -> confined subs clients (k a) s') ->
  confined subs clients (bind c k) s.
Proof.
  intros Hc Hk Hs Hcl. destruct (Hc Hs Hcl) as (H1 & H2 & new & H3 & H4).
  unfold bind. destruct (c s) as [a s'|e s'] eqn:E; cbn [final] in *.
  - destruct (Hk a s' eq_refl H1 H2) as (K1 & K2 & new' & K3 & K4).
    repeat split; auto. exists (new ++ new')%list.
    rewrite K3, H3, <- app_assoc. split; [ reflexivity | ].
    apply Forall_app; auto.
  - repeat split; auto. exists new. auto.
Qed.

Lemma confined_try {A} (subs clients : list nat) (c : M State A)
    (h : exn -> M State A) (s : State) :
  confined subs clients c s ->
  (forall e s', c s = Raise e s' -> confined subs clients (h e) s') ->
  confined subs clients (try_except c h) s.
Proof.
  intros Hc Hh Hs Hcl. destruct (Hc Hs Hcl) as (H1 & H2 & new & H3 & H4).
  unfold try_except. destruct (c s) as [a s'|e s'] eqn:E; cbn [final] in *.
  - repeat split; auto. exists new. auto.
  - destruct (Hh e s' eq_refl H1 H2) as (K1 & K2 & new' & K3 & K4).
    repeat split; auto. exists (new ++ new')%list.
    rewrite K3, H3, <- app_assoc. split; [ reflexivity | ].
    apply Forall_app; auto.
Qed.

Lemma confined_for_each {A} (subs clients : list nat) (xs : list A)
    (body : A -> M State unit) (s : State) :
  (forall x s', x ∈ xs -> confined subs clients (body x) s') ->
  confined subs clients (for_each xs body) s.
Proof.
  revert s. induction xs as [|x rest IH]; intros s Hb; [ apply confined_ret | ].
  cbn [for_each]. apply confined_bind.
  - apply Hb. left.
  - intros _ s' _. apply IH. intros y s2 Hy. apply Hb. now right.
Qed.

Lemma confined_with_lock {A} (subs clients : list nat) (c : M State A) (s : State) :
  confined subs clients c (set_lock true s) ->
  confined subs clients (with_lock c) s.
Proof.
  intros Hc Hs Hcl. destruct (Hc Hs Hcl) as (H1 & H2 & new & H3 & H4).
  unfold with_lock. destruct (c (set_lock true s)); cbn in *;
    repeat split; auto; exists new; auto.
Qed.

Lemma confined_record (subs clients : list nat) (d : delivery) (ok : bool)
    (s : State) :
  (forall locked, addressed subs clients
                    {| what := d; completed := ok; locked := locked |}) ->
  confined subs clients (record d ok) s.
Proof.
  intros Hd Hs Hc. cbn. repeat split; auto. eexists. split; [ reflexivity | ].
  constructor; [ apply Hd | constructor ].
Qed.

Lemma confined_dumps (subs clients : list nat) (v : pyval) (s : State) :
  confined subs clients (dumps v) s.
Proof. apply confined_quiet; unfold dumps; destruct (to_json v); reflexivity. Qed.

Lemma confined_log_error (subs clients : list nat) (msg : text) (s : State) :
  confined subs clients (log_error msg) s.
Proof. apply confined_quiet; reflexivity. Qed.

Lemma confined_write_file (subs clients : list nat) (alert : pyval) (s : State) :
  confined subs clients (write_file alert) s.
Proof.
  unfold write_file. apply confined_bind; [ apply confined_quiet; reflexivity | ].
  intros ok s1 _. destruct (negb ok); [ apply confined_quiet; reflexivity | ].
  apply confined_bind; [ apply confined_dumps | intros doc s2 _ ].
  apply confined_bind; [ apply confined_quiet; reflexivity | intros _ s3 _ ].
  apply confined_record. intros; exact I.
Qed.

Lemma confined_print_alert (subs clients : list nat) (alert : pyval) (s : State) :
  confined subs clients (print_alert alert) s.
Proof.
  unfold print_alert. apply confined_bind; [ apply confined_dumps | intros doc s1 _ ].
  apply confined_bind; [ apply confined_quiet; reflexivity | intros ok s2 _ ].
  apply confined_bind; [ apply confined_record; intros; exact I | intros _ s3 _ ].
  destruct ok; apply confined_quiet; reflexivity.
Qed.

Lemma confined_call_subscriber (subs clients : list nat) (alert : pyval) (cb : nat)
    (s : State) :
  cb ∈ subs -> confined subs clients (call_subscriber alert cb) s.
Proof.
  intros Hcb. unfold call_subscriber.
  apply confined_bind; [ apply confined_quiet; reflexivity | intros ok s1 _ ].
  apply confined_bind; [ apply confined_record; intros; exact Hcb | intros _ s2 _ ].
  destruct ok; [ apply confined_ret | apply confined_log_error ].
Qed.

Lemma confined_send_to_clients (subs clients : list nat) (doc : json)
    (cs dead : list nat) (s : State) :
  cs ⊆ clients -> confined subs clients (send_to_clients doc cs dead) s.
Proof.
  revert dead s. induction cs as [|c rest IH]; intros dead s Hcs;
    [ apply confined_ret | ].
  cbn [send_to_clients].
  apply confined_bind; [ apply confined_quiet; reflexivity | intros ok s1 _ ].
  apply confined_bind.
  { apply confined_record. intros; cbn. apply Hcs. left. }
  intros _ s2 _. apply IH. intros x Hx. apply Hcs. now right.
Qed.

Lemma confined_remove_client (subs clients : list nat) (d : nat) (s : State) :
  confined subs clients (remove_client d) s.
Proof.
  intros Hs Hc. unfold remove_client, bind, gets.
  destruct (list_remove d (_socket_clients s)) as [cs'|] eqn:E; cbn.
  - repeat split; auto.
    + intros x Hx. apply Hc. rewrite (list_remove_perm _ _ _ E). now right.
    + exists []. rewrite app_nil_r. auto.
  - repeat split; auto. exists []. rewrite app_nil_r. auto.
Qed.

Lemma confined_gets_bind {A B} (subs clients : list nat) (f : State -> A)
    (k : A -> M State B) (s : State) :
  (_subscribers s = subs -> _socket_clients s ⊆ clients ->
   confined subs clients (k (f s)) s) ->
  confined subs clients (bind (gets f) k) s.
Proof. intros H Hs Hc. exact (H Hs Hc Hs Hc). Qed.

Lemma confined_broadcast_socket (subs clients : list nat) (alert : pyval)
    (s : State) :
  confined subs clients (_broadcast_socket alert) s.
Proof.
  unfold _broadcast_socket. apply confined_gets_bind. intros _ _.
  destruct (_socket_clients s) as [|c0 cs0]; [ apply confined_ret | ].
  apply confined_bind; [ apply confined_dumps | intros msg s2 _ ].
  apply confined_with_lock. apply confined_gets_bind. intros Hs Hc.
  apply confined_bind.
  { apply confined_send_to_clients. exact Hc. }
  intros dead s4 _. apply confined_for_each. intros; apply confined_remove_client.
Qed.

Lemma confined_send_webhook (subs clients : list nat) (url : string)
    (alert : pyval) (s : State) :
  confined subs clients (_send_webhook url alert) s.
Proof.
  unfold _send_webhook. apply confined_try.
  - apply confined_bind; [ apply confined_quiet; reflexivity | intros ok s1 _ ].
    cbv zeta.
    apply confined_bind; [ apply confined_record; intros; exact I | intros _ s2 _ ].
    destruct (ok && _); apply confined_quiet; reflexivity.
  - intros; apply confined_log_error.
Qed.

Lemma confined_emit (code severity source : string) (data : list (pykey * pyval))
    (s : State) :
  confined (_subscribers s) (_socket_clients s) (emit code severity source data) s.
Proof.
  set (subs := _subscribers s). set (clients := _socket_clients s).
  unfold emit.
  apply confined_bind; [ apply confined_quiet; reflexivity | intros alert s1 _ ].
  apply confined_bind; [ apply confined_quiet; reflexivity | intros cfg s2 _ ].
  apply confined_bind.
  { destruct (file cfg); [ | apply confined_ret ].
    apply confined_try; [ apply confined_write_file | intros; apply confined_log_error ]. }
  intros _ s3 _. apply confined_bind.
  { destruct (stdout cfg); [ apply confined_print_alert | apply confined_ret ]. }
  intros _ s4 _. apply confined_bind.
  { apply confined_with_lock. apply confined_gets_bind. intros Hs Hc.
    apply confined_for_each. intros cb s6 Hcb. apply confined_call_subscriber.
    rewrite <- Hs. exact Hcb. }
  intros _ s5 _. apply confined_bind; [ apply confined_broadcast_socket | ].
  intros _ s6 _. apply confined_bind.
  { destruct (webhook_url cfg) as [[|c u]|];
      [ apply confined_ret | apply confined_send_webhook | apply confined_ret ]. }
  intros _ s7 _. apply confined_ret.
Qed.

(** X14.  Take an [emit] that is called with the lock free and runs
    undisturbed: no other thread changes the bus meanwhile (no client
    connects, nobody subscribes), and the callbacks return or raise an
    [Exception] without calling the bus.  Whatever its outcome, it leaves
    the subscriber list as it is, adds no client, and delivers only to
    callbacks of the subscriber list and to clients of the client
    list. *)
Theorem emit_delivers_only_to_registered (s : State)
    (code severity source : string) (data : list (pykey * pyval)) :
  _lock s = false ->
  _subscribers (final (emit code severity source data s)) = _subscribers s /\
  _socket_clients (final (emit code severity source data s)) ⊆ _socket_clients s /\
  exists new,
    trace (final (emit code severity source data s)) = (trace s ++ new)%list /\
    Forall (fun e =>
              match what e with
              | ToSubscriber cb _ => cb ∈ _subscribers s
              | ToSocket c _ => c ∈ _socket_clients s
              | _ => True
              end) new.
Proof.
  intros _.
  exact (confined_emit code severity source data s eq_refl (fun x H => H)).
Qed.

(** Two subscribers, the second of which raises, and three clients, the
    second of which has hung up. *)
Lemma emit_delivers_only_to_registered_witness :
  let e := {| now_isoformat := fun _ => "2026-02-21T18:45:00+00:00";
              file_write := fun _ => true; stdout_write := fun _ => true;
              callback_returns := fun _ cb => negb (Nat.eqb cb 2);
              sendall := fun _ c => negb (Nat.eqb c 8);
              requests_post := fun _ => true |} in
  let s := bus everything e [1; 2] [7; 8; 9] in
  _lock s = false /\
  _subscribers (final (emit "NONCE_INCREMENT" "info" "nonce_monitor" [] s)) = [1; 2] /\
  _socket_clients (final (emit "NONCE_INCREMENT" "info" "nonce_monitor" [] s))
    ⊆ [7; 8; 9] /\
  called (map what (trace (final (emit "NONCE_INCREMENT" "info" "nonce_monitor" [] s))))
  = [1; 2] /\
  _socket_clients (final (emit "NONCE_INCREMENT" "info" "nonce_monitor" [] s)) = [7; 9].
Proof.
  cbv zeta. split; [ reflexivity | ].
  match goal with
  | |- context [emit _ _ _ _ ?s] =>
      destruct (emit_delivers_only_to_registered s "NONCE_INCREMENT" "info"
                  "nonce_monitor" [] eq_refl) as (Hs & Hc & _)
  end.
  split; [ exact Hs | ]. split; [ exact Hc | ].
  split; vm_compute; reflexivity.
Defined.

Lemma filter_ne_absent (cb : nat) (l : list nat) :
  cb ∉ l -> filter (fun c => c <> cb) l = l.
Proof.
  induction l as [|x l IH]; intros H; [ reflexivity | ].
  apply not_elem_of_cons in H as [Hx Hl].
  rewrite filter_cons_True by congruence. now rewrite IH.
Qed.

(** X15.  Called with the lock free (so not from inside a callback, which
    runs under the lock), and with no other thread changing the bus
    meanwhile, [unsubscribe] returns, releases the lock and removes every
    registration of the callback, keeping the other subscribers in their
    order (it changes nothing when the callback is not subscribed, and
    raises nothing then).  A following undisturbed [emit], whatever its
    outcome, does not call that callback, and calls only callbacks that
    were subscribed, as long as these return or raise an [Exception]
    without calling the bus. *)
Theorem unsubscribed_callback_is_not_called (s : State) (cb : nat)
    (code severity source : string) (data : list (pykey * pyval)) :
  _lock s = false ->
  exists s1,
    unsubscribe cb s = Ok tt s1 /\
    _subscribers s1 = filter (fun c => c <> cb) (_subscribers s) /\
    (cb ∉ _subscribers s1) /\
    (cb ∉ _subscribers s -> _subscribers s1 = _subscribers s) /\
    _socket_clients s1 = _socket_clients s /\ trace s1 = trace s /\
    _lock s1 = false /\
    exists new,
      trace (final (emit code severity source data s1)) = (trace s ++ new)%list /\
      Forall (fun e => forall c a,
                what e = ToSubscriber c a -> c <> cb /\ c ∈ _subscribers s) new.
Proof.
  intros _.
  eexists. split; [ reflexivity | ]. cbn [_subscribers set_subscribers set_lock
    _socket_clients trace _lock].
  split; [ reflexivity | ].
  assert (Hcb : cb ∉ filter (fun c => c <> cb) (_subscribers s)).
  { intros H. apply list_elem_of_filter in H as [H _]. congruence. }
  split; [ exact Hcb | ]. split; [ apply filter_ne_absent | ].
  split; [ reflexivity | ]. split; [ reflexivity | ]. split; [ reflexivity | ].
  match goal with
  | |- context [emit code severity source data ?s1] =>
      destruct (confined_emit code severity source data s1 eq_refl (fun x H => H))
        as (_ & _ & new & Ht & Hnew)
  end.
  exists new. split; [ exact Ht | ].
  eapply Forall_impl; [ exact Hnew | ].
  intros e He c a Hw. unfold addressed in He. rewrite Hw in He. cbn in He.
  apply list_elem_of_filter in He as [H1 H2]. auto.
Qed.

(** A callback registered twice, with another between: both registrations
    go, and the next alert reaches the other one only. *)
Lemma unsubscribed_callback_is_not_called_witness :
  let s := bus file_only obliging [1; 2; 1] [] in
  _lock s = false /\
  exists s1,
    unsubscribe 1 s = Ok tt s1 /\
    _subscribers s1 = [2] /\
    called (map what (trace (final (emit "NONCE_INCREMENT" "info" "nonce_monitor"
                                      [] s1)))) = [2].
Proof.
  cbv zeta. split; [ reflexivity | ].
  destruct (unsubscribed_callback_is_not_called (bus file_only obliging [1; 2; 1] [])
              1 "NONCE_INCREMENT" "info" "nonce_monitor" [] eq_refl)
    as (s1 & E & Hs & _).
  exists s1. split; [ exact E | ]. split; [ exact Hs | ].
  injection E as <-. vm_compute. reflexivity.
Defined.

(** *** Subscribers in order *)






(** *** Dead clients *)

Lemma list_remove_middle (x : nat) (pre rest : list nat) :
  x ∉ pre -> list_remove x (pre ++ x :: rest) = Some (pre ++ rest)%list.
Proof.
  induction pre as [|y pre IH]; intros H; cbn.
  - destruct (decide (x = x)); [ reflexivity | congruence ].
  - apply not_elem_of_cons in H as [Hy Hp].
    destruct (decide (y = x)); [ congruence | ]. now rewrite (IH Hp).
Qed.

(** Removing the clients that failed, one by one, leaves the others in
    their order. *)
Lemma remove_casualties (e : Oracle) (n : nat) (cs pre : list nat) (s : State) :
  NoDup (pre ++ cs) -> _socket_clients s = (pre ++ cs)%list ->
  exists s',
    for_each (casualties e n cs) remove_client s = Ok tt s' /\
    _socket_clients s' = (pre ++ survivors e n cs)%list /\
    _subscribers s' = _subscribers s /\ trace s' = trace s /\
    config s' = config s /\ _lock s' = _lock s /\ env s' = env s /\
    steps s' = steps s /\ file_lines s' = file_lines s /\ logger s' = logger s.
Proof.
  revert n pre s. induction cs as [|c rest IH]; intros n pre s Hnd Hcs.
  - exists s. cbn. rewrite Hcs. repeat split; auto.
  - cbn [casualties survivors]. destruct (sendall e n c).
    + destruct (IH (S n) (pre ++ [c])%list s) as (s' & E & H1 & H2);
        [ now rewrite <- app_assoc | now rewrite <- app_assoc | ].
      exists s'. split; [ exact E | ]. split; [ | exact H2 ].
      now rewrite H1, <- app_assoc.
    + assert (Hc : c ∉ pre).
      { apply NoDup_app in Hnd as (_ & Hd & _). intros H. apply (Hd c H). left. }
      destruct (IH (S n) pre (set_socket_clients (pre ++ rest) s)) as (s' & E & H1 & H2).
      { apply NoDup_app in Hnd as (Hp & Hd & Hr). apply NoDup_app.
        split; [ exact Hp | ]. apply NoDup_cons in Hr as [_ Hr].
        split; [ | exact Hr ]. intros x Hx Hx'. apply (Hd x Hx). now right. }
      { reflexivity. }
      exists s'. split; [ | split; [ exact H1 | exact H2 ] ].
      cbn [for_each]. unfold bind at 1. unfold remove_client. unfold bind at 1.
      unfold gets. rewrite Hcs, (list_remove_middle c pre rest Hc). exact E.
Qed.

Lemma send_to_clients_casualties (doc : json) (cs dead : list nat) (s : State) :
  exists s',
    send_to_clients doc cs dead s
    = Ok (dead ++ casualties (env s) (steps s) cs)%list s' /\
    map what (trace s') = (map what (trace s) ++ map (fun c => ToSocket c doc) cs)%list /\
    _socket_clients s' = _socket_clients s /\ _subscribers s' = _subscribers s /\
    config s' = config s /\ _lock s' = _lock s /\ env s' = env s /\
    steps s' = steps s + length cs /\ file_lines s' = file_lines s /\
    logger s' = logger s.
Proof.
  revert dead s. induction cs as [|c rest IH]; intros dead s.
  - exists s. cbn. rewrite !app_nil_r. repeat split; auto.
  - rewrite send_to_clients_cons.
    match goal with
    | |- context [send_to_clients doc rest ?d ?st] =>
        destruct (IH d st) as (s2 & E2 & Ht & H1 & H2 & H3 & H4 & H5 & H6 & H7 & H8)
    end.
    cbn [trace set_trace set_steps _socket_clients _subscribers config _lock env
         steps file_lines logger] in E2, Ht, H1, H2, H3, H4, H5, H6, H7, H8.
    exists s2. cbn [casualties length].
    rewrite E2, Ht, H1, H2, H3, H4, H5, H6, H7, H8, map_app, <- !app_assoc.
    destruct (sendall (env s) (steps s) c); cbn; rewrite <- ?app_assoc;
      repeat split; auto; lia.
Qed.

(** X17.  With the lock free, an alert that serialises and distinct connected
    clients, [_broadcast_socket] returns having written the line once to
    every client, in list order, and leaves connected exactly the clients
    whose write completed, in their order: a client whose [sendall] raised
    is removed and no other is.  The subscribers and the alerts file are
    untouched and the lock is free again. *)
Theorem broadcast_drops_failed_clients (s : State) (alert : pyval) (doc : json) :
  to_json alert = Some doc ->
  _lock s = false ->
  NoDup (_socket_clients s) ->
  exists s',
    _broadcast_socket alert s = Ok tt s' /\
    _socket_clients s' = survivors (env s) (steps s) (_socket_clients s) /\
    map what (trace s')
    = (map what (trace s) ++ map (fun c => ToSocket c doc) (_socket_clients s))%list /\
    (forall c, c ∈ _socket_clients s' -> c ∈ _socket_clients s) /\
    _subscribers s' = _subscribers s /\ file_lines s' = file_lines s /\
    _lock s' = false /\ env s' = env s /\
    steps s' = steps s + length (_socket_clients s).
Proof.
  intros Hd Hl Hnd. unfold _broadcast_socket.
  destruct (_socket_clients s) as [|c cs] eqn:Hcs.
  { exists s. split.
    { run (eq_refl : gets _socket_clients s = Ok _ s). now rewrite Hcs. }
    rewrite app_nil_r, Hcs. cbn. repeat split; auto. }
  destruct (send_to_clients_casualties doc (c :: cs) [] (set_lock true s))
    as (s1 & E & Ht & H1 & H2 & H3 & H4 & H5 & H6 & H7 & H8).
  cbn [trace _socket_clients _subscribers config set_lock env steps file_lines
       logger _lock] in E, Ht, H1, H2, H3, H4, H5, H6, H7, H8.
  destruct (remove_casualties (env s) (steps s) (c :: cs) [] s1)
    as (s2 & E2 & K1 & K2 & K3 & K4 & K5 & K6 & K7 & K8 & K9);
    [ exact Hnd | now rewrite H1, Hcs | ].
  exists (set_lock false s2). split.
  - run (eq_refl : gets _socket_clients s = Ok _ s). rewrite Hcs.
    unfold dumps. rewrite Hd. run (eq_refl : ret doc s = Ok doc s).
    unfold with_lock.
    assert ((clients <- gets _socket_clients ;;
             dead <- send_to_clients doc clients [] ;;
             for_each dead remove_client) (set_lock true s) = Ok tt s2) as ->.
    { run (eq_refl : gets _socket_clients (set_lock true s) = Ok _ (set_lock true s)).
      cbn [_socket_clients set_lock]. rewrite Hcs. run E. exact E2. }
    reflexivity.
  - cbn [_socket_clients set_lock trace _subscribers file_lines _lock env steps].
    rewrite K1, K2, K3, K6, K7, K8, Ht, H2, H5, H6, H7.
    split; [ reflexivity | ]. split; [ reflexivity | ].
    split; [ | repeat split; auto ].
    intros x Hx. cbn [app] in Hx. clear -Hx.
    revert Hx. generalize (steps s). generalize (c :: cs).
    intros l. induction l as [|y l IH]; intros n Hx; [ exact Hx | ].
    cbn in Hx. destruct (sendall (env s) n y).
    + apply elem_of_cons in Hx as [->|Hx]; [ left | right; eapply IH; exact Hx ].
    + right. eapply IH; exact Hx.
Qed.

(** Three clients, the second of which has hung up. *)
Lemma broadcast_drops_failed_clients_witness :
  let e := {| now_isoformat := fun _ => "2026-02-21T18:45:00+00:00";
              file_write := fun _ => true; stdout_write := fun _ => true;
              callback_returns := fun _ _ => true;
              sendall := fun _ c => negb (Nat.eqb c 8);
              requests_post := fun _ => true |} in
  exists s',
    _broadcast_socket (PDict []) (bus everything e [] [7; 8; 9]) = Ok tt s' /\
    _socket_clients s' = [7; 9] /\
    map what (trace s')
    = [ToSocket 7 (JObj []); ToSocket 8 (JObj []); ToSocket 9 (JObj [])].
Proof.
  cbv zeta.
  match goal with
  | |- context [bus everything ?e _ _] =>
      destruct (broadcast_drops_failed_clients (bus everything e [] [7; 8; 9])
                  (PDict []) (JObj []) eq_refl eq_refl)
        as (s' & E & Hc & Ht & _)
  end.
  { apply (bool_decide_unpack _). reflexivity. }
  exists s'. split; [ exact E | ]. split; [ exact Hc | exact Ht ].
Defined.

(** *** When nothing can fail *)

Lemma file_output_returns (alert : pyval) (s : State) :
  exists s',
    (if file (config s)
     then try_except (write_file alert)
            (fun _ => log_error [Txt "Failed to write alert to file: "])
     else ret tt) s = Ok tt s' /\
    map what (trace s')
    = (map what (trace s) ++
       match to_json alert with
       | Some doc =>
           if file (config s) && file_write (env s) (steps s) then [ToFile doc] else []
       | None => []
       end)%list /\
    _subscribers s' = _subscribers s /\ _socket_clients s' = _socket_clients s /\
    config s' = config s /\ _lock s' = _lock s /\ env s' = env s.
Proof.
  destruct (file (config s)); cbn [andb].
  2:{ exists s. destruct (to_json alert); rewrite app_nil_r; repeat split; auto. }
  unfold try_except, write_file, bind, ask, dumps, raise, log_error, modify, record,
    modify, ret.
  destruct (file_write (env s) (steps s)); cbn [negb];
    destruct (to_json alert); eexists; (split; [ reflexivity | ]); cbn;
    rewrite ?map_app, ?app_nil_r; repeat split; auto.
Qed.

(** X18.  Take a bus whose lock is free, with standard output off and no
    socket client connected, that no other thread changes meanwhile, and
    callbacks that return or raise an [Exception] without calling the
    bus.  Then [emit] returns the alert for every [data], serialisable or
    not, whether or not the file write, a callback or the POST fails with
    an [Exception]: it has appended to the file if that is configured and
    possible, called every subscriber in order, and tried the webhook if
    one is configured.  It leaves the lock free and the bus with no client
    and the same configuration, so the same holds for the next [emit]. *)
Theorem emit_returns_without_stdout_and_clients (s : State)
    (code severity source : string) (data : list (pykey * pyval)) :
  _lock s = false ->
  stdout (config s) = false ->
  _socket_clients s = [] ->
  exists s',
    emit code severity source data s
    = Ok (alert_of s code severity source data) s' /\
    _socket_clients s' = [] /\ config s' = config s /\ _lock s' = false /\
    map what (trace s')
    = (map what (trace s) ++
       match to_json (alert_of s code severity source data) with
       | Some doc =>
           if file (config s) && file_write (env s) (S (steps s))
           then [ToFile doc] else []
       | None => []
       end ++
       map (fun cb => ToSubscriber cb (alert_of s code severity source data))
           (_subscribers s) ++
       match webhook_url (config s) with
       | Some (String c u) =>
           [ToWebhook (String c u) (alert_of s code severity source data)]
       | _ => []
       end)%list.
Proof.
  intros _ Hso Hcl. set (alert := alert_of s code severity source data) in *.
  set (s0 := set_steps (S (steps s)) s).
  destruct (file_output_returns alert s0) as (s1 & E1 & Ht1 & Hsu1 & Hc1 & Hcf1 & Hl1 & He1).
  cbn [config trace _subscribers _socket_clients _lock env steps s0 set_steps]
    in E1, Ht1, Hsu1, Hc1, Hcf1, Hl1, He1.
  destruct (subscribers_ok alert (_subscribers s1) (set_lock true s1))
    as (s2 & E2 & Ht2 & Hc2 & Hcf2 & Hl2 & He2).
  cbn [config trace _socket_clients _lock env set_lock] in Ht2, Hc2, Hcf2, Hl2, He2.
  destruct (webhook_ok alert (set_lock false s2)) as (s4 & E4 & Ht4 & Hl4).
  cbn [config trace set_lock] in E4, Ht4.
  assert (Hw : _socket_clients s4 = [] /\ config s4 = config s).
  { revert E4. rewrite Hcf2, Hcf1.
    destruct (webhook_url (config s)) as [[|c u]|];
      try (intros [= <-]; cbn; split; congruence).
    unfold _send_webhook, try_except, bind, ask, record, modify, log_error, modify.
    destruct (requests_post _ _ && _); intros [= <-]; cbn; split; congruence. }
  exists s4. split; [ | split; [ apply Hw | split; [ apply Hw | split; [ exact Hl4 | ] ] ] ].
  - unfold emit.
    run (eq_refl : make_alert code severity source data s = Ok alert s0).
    run (eq_refl : gets config s0 = Ok (config s) s0).
    run E1. rewrite Hso. run (eq_refl : ret tt s1 = Ok tt s1).
    assert (with_lock (subs <- gets _subscribers ;;
                       for_each subs (call_subscriber alert)) s1
            = Ok tt (set_lock false s2)) as Es.
    { unfold with_lock.
      assert ((subs <- gets _subscribers ;; for_each subs (call_subscriber alert))
                (set_lock true s1) = Ok tt s2) as ->; [|reflexivity].
      run (eq_refl : gets _subscribers (set_lock true s1)
                     = Ok (_subscribers s1) (set_lock true s1)).
      exact E2. }
    run Es.
    assert (_broadcast_socket alert (set_lock false s2) = Ok tt (set_lock false s2))
      as Eb.
    { unfold _broadcast_socket.
      run (eq_refl : gets _socket_clients (set_lock false s2)
                     = Ok (_socket_clients s2) (set_lock false s2)).
      rewrite Hc2, Hc1, Hcl. reflexivity. }
    run Eb. rewrite Hcf2, Hcf1 in E4. run E4. reflexivity.
  - rewrite Ht4, Ht2, Ht1, Hcf2, Hcf1, Hsu1.
    rewrite <- !app_assoc. reflexivity.
Qed.

(** The default bus (file only), one subscriber, data that [json] cannot
    write. *)
Lemma emit_returns_without_stdout_and_clients_witness :
  exists s',
    emit "NONCE_INCREMENT" "info" "nonce_monitor" [(KStr "raw", PBytes "00")]
      (bus file_only obliging [1] [])
    = Ok (alert_of (bus file_only obliging [1] []) "NONCE_INCREMENT" "info"
            "nonce_monitor" [(KStr "raw", PBytes "00")]) s' /\
    _socket_clients s' = [] /\ config s' = file_only.
Proof.
  destruct (emit_returns_without_stdout_and_clients (bus file_only obliging [1] [])
              "NONCE_INCREMENT" "info" "nonce_monitor" [(KStr "raw", PBytes "00")]
              eq_refl eq_refl eq_refl) as (s' & E & Hc & Hcf & _).
  exists s'. split; [ exact E | ]. split; [ exact Hc | exact Hcf ].
Defined.

End SignalFacts.

(* ===================================================================== *)
(** ** Properties of the nonce monitor *)
(* ===================================================================== *)

Module NonceMonitorFacts.

Import Float64 Json NonceMonitor.

(** *** The five-minute window *)

(** A check made on each of the 300 seconds of a window holds for all of
    them. *)
Lemma each_second (P : Z -> bool) :
  forallb (fun k => P (Z.of_nat k)) (seq 0 300) = true ->
  forall k, 0 <= k < 300 -> P k = true.
Proof.
  intros H k Hk. rewrite forallb_forall in H.
  rewrite <- (Z2Nat.id k) by lia. apply H. apply in_seq. lia.
Qed.

Lemma same_eq (x y : float) : same x y = true -> x = y.
Proof.
  destruct x as [a|a| |a m e], y as [b|b| |b n f]; cbn; try discriminate;
    try (intros H; apply eqb_prop in H; congruence); try reflexivity.
  intros H. apply andb_true_iff in H as [H He]. apply andb_true_iff in H as [Ha Hm].
  apply eqb_prop in Ha. apply Pos.eqb_eq in Hm. apply Z.eqb_eq in He. congruence.
Qed.

Lemma window_seconds (k : Z) :
  0 <= k < 300 ->
  round (of_Z k) 1 = of_Z k /\
  round (of_Z (300 - k)) 1 = of_Z (300 - k) /\
  gtb (of_Z (300 - k)) zero = true /\
  leb (of_Z (300 - k)) (of_Z 300) = true /\
  ltb (of_Z (300 - k)) (of_Z 30) = (270 <? k) /\
  leb zero (round (mul (quot (of_Z k) (of_Z 300)) (of_Z 100)) 1) = true /\
  leb (round (mul (quot (of_Z k) (of_Z 300)) (of_Z 100)) 1) (decimal 997 10) = true.
Proof.
  intros Hk.
  pose (P := fun k =>
    same (round (of_Z k) 1) (of_Z k) &&
    same (round (of_Z (300 - k)) 1) (of_Z (300 - k)) &&
    gtb (of_Z (300 - k)) zero &&
    leb (of_Z (300 - k)) (of_Z 300) &&
    Bool.eqb (ltb (of_Z (300 - k)) (of_Z 30)) (270 <? k) &&
    leb zero (round (mul (quot (of_Z k) (of_Z 300)) (of_Z 100)) 1) &&
    leb (round (mul (quot (of_Z k) (of_Z 300)) (of_Z 100)) 1) (decimal 997 10)).
  assert (H : P k = true).
  { apply each_second; [ vm_compute; reflexivity | exact Hk ]. }
  unfold P in H.
  repeat (apply andb_true_iff in H as [H ?]).
  repeat split; auto using same_eq. now apply eqb_prop.
Qed.

(** X19.  For a block timestamp [datetime] accepts, [get_btc_window] returns
    the five-minute window that holds it: with [k = ts mod 300],
    [elapsed_secs] is [k] and [remaining_secs] is [300 - k], so the two add
    up to 300, [remaining_secs] is never 0 (a call on a window boundary
    has 300 seconds left, not 0) and never above 300; the window starts at
    the time of day [ts mod 86400 - k] and ends 300 seconds later (the
    last window of a day ends at 00:00:00); [pct_elapsed] lies between 0
    and 99.7; and fewer than 30 seconds remain exactly when [k > 270]. *)
Theorem btc_window_arithmetic (ts : Z) :
  -62135596800 <= ts < 253402300500 ->
  exists w,
    get_btc_window ts = Some w /\
    0 <= ts mod 300 < 300 /\
    elapsed_secs w = of_Z (ts mod 300) /\
    remaining_secs w = of_Z (300 - ts mod 300) /\
    gtb (remaining_secs w) zero = true /\
    leb (remaining_secs w) (of_Z 300) = true /\
    window_start w = hms (ts mod 86400 - ts mod 300) /\
    window_end w = hms (ts mod 86400 - ts mod 300 + 300) /\
    (ts mod 86400 - ts mod 300) mod 300 = 0 /\
    0 <= ts mod 86400 - ts mod 300 <= 86100 /\
    pct_elapsed w = round (mul (quot (of_Z (ts mod 300)) (of_Z 300)) (of_Z 100)) 1 /\
    leb zero (pct_elapsed w) = true /\
    leb (pct_elapsed w) (decimal 997 10) = true /\
    (ltb (remaining_secs w) (of_Z 30) = true <-> 270 < ts mod 300).
Proof.
  intros Hts. unfold get_btc_window.
  destruct (Z.leb_spec (-62135596800) ts); [ | lia ].
  destruct (Z.ltb_spec ts 253402300500); [ | lia ].
  cbn [andb]. cbv zeta. eexists. split; [ reflexivity | ].
  cbn [elapsed_secs remaining_secs window_start window_end pct_elapsed].
  assert (Hk : 0 <= ts mod 300 < 300) by (apply Z.mod_pos_bound; lia).
  assert (Hd : 0 <= ts mod 86400 < 86400) by (apply Z.mod_pos_bound; lia).
  assert (Hm : (ts mod 86400) mod 300 = ts mod 300).
  { replace 86400 with (300 * 288) by reflexivity.
    rewrite Z.rem_mul_r by lia. rewrite Z.mul_comm, Z.mod_add by lia.
    apply Z.mod_mod. lia. }
  assert (Hs : ts mod 86400 / 300 * 300 = ts mod 86400 - ts mod 300).
  { pose proof (Z.div_mod (ts mod 86400) 300 ltac:(lia)). lia. }
  rewrite Hs.
  replace (ts mod 86400 - (ts mod 86400 - ts mod 300)) with (ts mod 300) by lia.
  replace (ts mod 86400 - ts mod 300 + 300 - ts mod 86400) with (300 - ts mod 300)
    by lia.
  destruct (window_seconds (ts mod 300) Hk) as (H1 & H2 & H3 & H4 & H5 & H6 & H7).
  rewrite H1, H2.
  split; [ exact Hk | ]. split; [ reflexivity | ]. split; [ reflexivity | ].
  split; [ exact H3 | ]. split; [ exact H4 | ].
  split; [ reflexivity | ]. split; [ reflexivity | ].
  split. { rewrite <- Hs. rewrite Z.mod_mul; lia. }
  split. { pose proof (Z.div_mod (ts mod 86400) 300 ltac:(lia)).
           assert (0 <= ts mod 86400 / 300) by (apply Z.div_pos; lia).
           assert (ts mod 86400 / 300 < 288) by (apply Z.div_lt_upper_bound; lia).
           lia. }
  split; [ reflexivity | ]. split; [ exact H6 | ]. split; [ exact H7 | ].
  rewrite H5. apply Z.ltb_lt.
Qed.

(** Block time 1700000123: 23 seconds into the window 22:15:00-22:20:00. *)
Lemma btc_window_arithmetic_witness :
  exists w,
    get_btc_window 1700000123 = Some w /\
    elapsed_secs w = of_Z 23 /\ remaining_secs w = of_Z 277 /\
    window_start w = "22:15:00" /\ window_end w = "22:20:00".
Proof.
  destruct (btc_window_arithmetic 1700000123 ltac:(lia))
    as (w & E & _ & H1 & H2 & _ & _ & H3 & H4 & _).
  exists w. split; [ exact E | ]. split; [ exact H1 | ]. split; [ exact H2 | ].
  split; [ exact H3 | exact H4 ].
Defined.

(** *** The statistics *)

Lemma record_all_snoc (evs : list Event) (e : Event) (st : NonceStats) :
  record_all (evs ++ [e]) st = add e (record_all evs st).
Proof. unfold record_all. now rewrite fold_left_app. Qed.

Lemma get_append_at {V} (a k : string) (x : V) (d : list (string * list V)) :
  get a (append_at k x d)
  = if String.eqb k a then Some (default [] (get a d) ++ [x])%list else get a d.
Proof.
  induction d as [|[k' v] d IH]; cbn.
  - destruct (String.eqb_spec k a); reflexivity.
  - destruct (String.eqb_spec k' k) as [->|Hk]; cbn.
    + destruct (String.eqb_spec k a); [ reflexivity | reflexivity ].
    + destruct (String.eqb_spec k' a) as [->|Ha].
      * destruct (String.eqb_spec k a); [ congruence | reflexivity ].
      * exact IH.
Qed.

Lemma get_increment (a k : string) (d : list (string * Z)) :
  get a (increment k d)
  = if String.eqb k a then Some (default 0 (get a d) + 1) else get a d.
Proof.
  induction d as [|[k' v] d IH]; cbn.
  - destruct (String.eqb_spec k a); reflexivity.
  - destruct (String.eqb_spec k' k) as [->|Hk]; cbn.
    + destruct (String.eqb_spec k a); [ reflexivity | reflexivity ].
    + destruct (String.eqb_spec k' a) as [->|Ha].
      * destruct (String.eqb_spec k a); [ congruence | reflexivity ].
      * exact IH.
Qed.

Lemma append_at_total {V} (k : string) (x : V) (d : list (string * list V)) :
  length (concat (map snd (append_at k x d))) = S (length (concat (map snd d))).
Proof.
  induction d as [|[k' v] d IH]; cbn; [ reflexivity | ].
  destruct (String.eqb k' k); cbn; rewrite !length_app; cbn; [ lia | ].
  rewrite IH. lia.
Qed.

Lemma append_at_nonempty {V} (k : string) (x : V) (d : list (string * list V)) :
  Forall (fun kv => snd kv <> []) d ->
  Forall (fun kv => snd kv <> []) (append_at k x d).
Proof.
  induction d as [|[k' v] d IH]; cbn; intros H.
  - constructor; [ discriminate | constructor ].
  - apply Forall_cons in H as [Hv Hd]. destruct (String.eqb k' k).
    + constructor; [ | exact Hd ]. cbn. destruct v; discriminate.
    + constructor; [ exact Hv | exact (IH Hd) ].
Qed.

Lemma increment_total (k : string) (d : list (string * Z)) :
  fold_right Z.add 0 (map snd (increment k d)) = fold_right Z.add 0 (map snd d) + 1.
Proof.
  induction d as [|[k' v] d IH]; cbn; [ reflexivity | ].
  destruct (String.eqb k' k); cbn; [ lia | ]. rewrite IH. lia.
Qed.

Lemma filter_snoc {A} (p : A -> bool) (l : list A) (x : A) :
  List.filter p (l ++ [x]) = (List.filter p l ++ if p x then [x] else [])%list.
Proof. rewrite List.filter_app. cbn. now destruct (p x). Qed.

(** The four collections of a [NonceStats] after a run of events. *)
Lemma stats_agree_with_events_lemma (evs : list Event) :
  events (record_all evs empty_stats) = evs /\
  window_timing (record_all evs empty_stats)
  = map (fun e => remaining_secs (window e)) evs /\
  (forall addr,
     get addr (by_address (record_all evs empty_stats))
     = match events_of addr evs with
       | [] => None
       | l => Some l
       end) /\
  (forall hour,
     get hour (hourly_counts (record_all evs empty_stats))
     = match events_in_hour hour evs with
       | [] => None
       | l => Some (Z.of_nat (length l))
       end) /\
  Forall (fun kv => snd kv <> []) (by_address (record_all evs empty_stats)) /\
  length (concat (map snd (by_address (record_all evs empty_stats)))) = length evs /\
  fold_right Z.add 0 (map snd (hourly_counts (record_all evs empty_stats)))
  = Z.of_nat (length evs).
Proof.
  induction evs as [|e evs IH] using rev_ind.
  - cbn. repeat split; auto.
  - destruct IH as (H1 & H2 & H3 & H4 & H5 & H6 & H7).
    rewrite record_all_snoc. unfold add at 1 2 3 4 5 6 7.
    cbn [events window_timing by_address hourly_counts].
    rewrite H1, H2, map_app, length_app. cbn [map length].
    split; [ reflexivity | ]. split; [ reflexivity | ]. split; [ | split ].
    + intros addr. rewrite get_append_at, H3. unfold events_of.
      rewrite filter_snoc.
      destruct (String.eqb (caller e) addr);
        destruct (List.filter _ evs); cbn; rewrite ?app_nil_r; reflexivity.
    + intros hour. rewrite get_increment, H4. unfold events_in_hour.
      rewrite filter_snoc.
      destruct (String.eqb (str_take 13 (timestamp e)) hour);
        destruct (List.filter _ evs) as [|x l]; cbn [default length app];
        rewrite ?app_nil_r; try reflexivity.
      rewrite length_app. cbn [length]. f_equal. unfold id. lia.
    + split; [ apply append_at_nonempty, H5 | ].
      split; [ rewrite append_at_total, H6; lia | ].
      rewrite increment_total, H7. lia.
Qed.

(** X20.  After any run of events has been added to a new [NonceStats], its
    four collections describe the same run: [events] is the run,
    [window_timing] its remaining seconds in order, [by_address[a]] the
    events of caller [a] in order (with a key for exactly the callers seen,
    spelled as they came, so that no list is empty), [hourly_counts[h]]
    the number of events whose timestamp starts with [h] (13 characters).
    The lists of [by_address] hold as many events as [events], and the
    hourly counts add up to that number. *)
Theorem stats_agree_with_events (evs : list Event) :
  events (record_all evs empty_stats) = evs /\
  window_timing (record_all evs empty_stats)
  = map (fun e => remaining_secs (window e)) evs /\
  (forall addr,
     get addr (by_address (record_all evs empty_stats))
     = match events_of addr evs with
       | [] => None
       | l => Some l
       end) /\
  (forall hour,
     get hour (hourly_counts (record_all evs empty_stats))
     = match events_in_hour hour evs with
       | [] => None
       | l => Some (Z.of_nat (length l))
       end) /\
  Forall (fun kv => snd kv <> []) (by_address (record_all evs empty_stats)) /\
  length (concat (map snd (by_address (record_all evs empty_stats)))) = length evs /\
  fold_right Z.add 0 (map snd (hourly_counts (record_all evs empty_stats)))
  = Z.of_nat (length evs).
Proof. exact (stats_agree_with_events_lemma evs). Qed.

(** *** The summary *)

Lemma bind_Ok {S A B} (c : M S A) (k : A -> M S B) (s s1 : S) (a : A) :
  c s = Ok a s1 -> bind c k s = k a s1.
Proof. intros H. unfold bind. now rewrite H. Qed.

(** Run the first statement of a sequence with a known result. *)
Ltac go E := eapply eq_trans; [ eapply bind_Ok; exact E | cbv beta ].

Lemma seq_returns {S A} (c : M S A) (k : A -> M S unit) (s : S) :
  (exists a s1, c s = Ok a s1 /\ exists s', k a s1 = Ok tt s') ->
  exists s', bind c k s = Ok tt s'.
Proof.
  intros (a & s1 & E & s' & E'). exists s'. unfold bind. now rewrite E.
Qed.

Lemma for_each_returns {S A} (P : A -> Prop) (l : list A) (body : A -> M S unit) :
  Forall P l ->
  (forall x s, P x -> exists s', body x s = Ok tt s') ->
  forall s, exists s', for_each l body s = Ok tt s'.
Proof.
  intros Hl Hb. induction Hl as [|x l Hx Hl IH]; intros s; cbn [for_each].
  - exists s. reflexivity.
  - destruct (Hb x s Hx) as [s1 E1]. destruct (IH s1) as [s2 E2].
    exists s2. go E1. exact E2.
Qed.

Lemma insert_by_calls_nonempty {V} (x : string * list V) (l : list (string * list V)) :
  snd x <> [] -> Forall (fun kv => snd kv <> []) l ->
  Forall (fun kv => snd kv <> []) (insert_by_calls x l).
Proof.
  intros Hx Hl. induction Hl as [|y l Hy Hl IH]; cbn [insert_by_calls].
  - constructor; [ exact Hx | constructor ].
  - destruct (Nat.ltb (length (snd y)) (length (snd x))).
    + apply Forall_cons. split; [ exact Hx | ]. apply Forall_cons. split; assumption.
    + apply Forall_cons. split; assumption.
Qed.

Lemma sorted_by_calls_nonempty {V} (l : list (string * list V)) :
  Forall (fun kv => snd kv <> []) l ->
  Forall (fun kv => snd kv <> []) (sorted_by_calls l).
Proof.
  unfold sorted_by_calls. intros Hl.
  assert (H : forall acc, Forall (fun kv : string * list V => snd kv <> []) acc ->
            Forall (fun kv => snd kv <> [])
              (fold_left (fun acc x => insert_by_calls x acc) l acc)).
  { induction Hl as [|x l Hx Hl IH]; intros acc Hacc; cbn; [ exact Hacc | ].
    apply IH. now apply insert_by_calls_nonempty. }
  apply H. constructor.
Qed.

Lemma percent_returns (x total : Z) (out : list text) :
  total <> 0 -> exists p, percent x total out = Ok p out.
Proof.
  intros H. unfold percent, div_by_int, bind.
  destruct (Z.eqb_spec total 0); [ contradiction | ]. eexists. reflexivity.
Qed.

(** A stats object whose [by_address] has no empty list can be summed
    up. *)
Lemma print_summary_ok (stats : NonceStats) (out : list text) :
  Forall (fun kv => snd kv <> []) (by_address stats) ->
  exists out', print_summary stats out = Ok tt out'.
Proof.
  intros Hb. unfold print_summary. cbv zeta.
  destruct (Z.eqb_spec (Z.of_nat (length (events stats))) 0) as [|Hn];
    [ eexists; reflexivity | ].
  assert (Hc : forall s, exists s',
            for_each (take 15 (sorted_by_calls (by_address stats)))
              (fun '(addr, evts) =>
                 avg_remaining <-
                   div_by_int (py_sum (map (fun e => remaining_secs (window e)) evts))
                              (Z.of_nat (length evts)) ;;
                 print_line [Txt "  "; Txt addr; Txt ": ";
                             Fmt "" (PInt (Z.of_nat (length evts)));
                             Txt " calls (avg ";
                             Fmt ".0f" (PFloat avg_remaining);
                             Txt "s before window end)"]) s = Ok tt s').
  { apply (for_each_returns (fun kv => snd kv <> [])).
    - apply Forall_take. now apply sorted_by_calls_nonempty.
    - intros [addr evts] s Hx. cbn in Hx. unfold div_by_int, bind.
      destruct (Z.eqb_spec (Z.of_nat (length evts)) 0) as [E|_].
      + destruct evts; [ contradiction | discriminate ].
      + eexists. reflexivity. }
  assert (Hh : forall s, exists s',
            for_each (last_n 12 (sorted_by_hour (hourly_counts stats)))
              (fun '(hour, count) =>
                 print_line [Txt "  "; Txt hour; Txt ": "; Fmt "" (PInt count)]) s
            = Ok tt s').
  { apply (for_each_returns (fun _ => True)).
    - apply Forall_forall. auto.
    - intros [hour count] s _. eexists. reflexivity. }
  do 4 (apply seq_returns; eexists _, _; split; [ reflexivity | ]).
  apply seq_returns.
  match goal with |- exists a s1, for_each _ _ ?s = _ /\ _ =>
    destruct (Hc s) as [s1 E1] end.
  exists tt, s1. split; [ exact E1 | ].
  apply seq_returns; eexists _, _; split; [ reflexivity | ].
  do 3 (apply seq_returns;
        match goal with |- exists a s1, percent ?x ?t ?s = _ /\ _ =>
          let p := fresh "p" in let Ep := fresh "Ep" in
          destruct (percent_returns x t s Hn) as [p Ep];
          exists p, s; split; [ exact Ep | ] end;
        apply seq_returns; eexists _, _; split; [ reflexivity | ]).
  apply seq_returns.
  destruct (hourly_counts stats) as [|h0 hs] eqn:Ehc.
  - eexists _, _. split; [ reflexivity | ]. eexists. reflexivity.
  - match goal with |- exists a s1, bind (print_line ?l) _ ?s = _ /\ _ =>
      destruct (Hh (s ++ [l])%list) as [s2 E2] end.
    exists tt, s2. split.
    + match goal with |- bind (print_line ?l) _ ?s = _ =>
        go (eq_refl : print_line l s = Ok tt _) end.
      exact E2.
    + eexists. reflexivity.
Qed.

Lemma below_30_below_150 (r : float) :
  SFcompare r (of_Z 30) = Some Lt -> SFcompare r (of_Z 150) = Some Lt.
Proof.
  let v := eval vm_compute in (of_Z 30) in change (of_Z 30) with v.
  let v := eval vm_compute in (of_Z 150) in change (of_Z 150) with v.
  destruct r as [[]|[]| |[] m e]; cbv beta iota delta [SFcompare];
    try discriminate; try reflexivity.
  destruct (Z.compare_spec e (-48)) as [->|H|H]; try discriminate.
  - intros _. reflexivity.
  - intros _. destruct (Z.compare_spec e (-45)); try lia. reflexivity.
Qed.

(** A remaining time that is a number falls in exactly one of the three
    buckets of the timing distribution. *)
Lemma one_bucket (r : float) :
  Detector.is_nan r = false ->
  (if ltb r (of_Z 30) then 1 else 0)
  + (if leb (of_Z 30) r && ltb r (of_Z 150) then 1 else 0)
  + (if geb r (of_Z 150) then 1 else 0) = 1.
Proof.
  intros Hr.
  destruct (DetectorFacts.compare_nan r (of_Z 30) Hr eq_refl) as [c1 H1].
  destruct (DetectorFacts.compare_nan r (of_Z 150) Hr eq_refl) as [c2 H2].
  pose proof (DetectorFacts.compare_antisym _ _ _ H1) as A1.
  pose proof (DetectorFacts.compare_antisym _ _ _ H2) as A2.
  pose proof (below_30_below_150 r) as T.
  unfold ltb, leb, geb, SFltb, SFleb. rewrite H1, H2, A1, A2.
  rewrite H1, H2 in T.
  destruct c1, c2; cbn; try reflexivity; discriminate (T eq_refl).
Qed.

Lemma count_if_cons {A} (p : A -> bool) (x : A) (l : list A) :
  count_if p (x :: l) = (if p x then 1 else 0) + count_if p l.
Proof. unfold count_if. cbn. destruct (p x); cbn [length]; lia. Qed.

Lemma buckets_cover (rs : list float) :
  Forall (fun r => Detector.is_nan r = false) rs ->
  count_if (fun r => ltb r (of_Z 30)) rs
  + count_if (fun r => leb (of_Z 30) r && ltb r (of_Z 150)) rs
  + count_if (fun r => geb r (of_Z 150)) rs = Z.of_nat (length rs).
Proof.
  induction 1 as [|r rs Hr Hrs IH]; [ reflexivity | ].
  rewrite !count_if_cons. pose proof (one_bucket r Hr). cbn [length]. lia.
Qed.

(** X21.  With [print] itself completing, [print_summary] never raises on
    statistics built by [add]: with no event it prints nothing; otherwise
    every division it makes is by the number of events or by the length
    of a caller's list, neither of which is 0.  When no remaining time is a NaN, the three counts of the timing
    distribution (below 30 s, from 30 s to below 150 s, from 150 s) add
    up to the number of events. *)
Theorem print_summary_returns (evs : list Event) (out : list text) :
  (exists out', print_summary (record_all evs empty_stats) out = Ok tt out') /\
  print_summary empty_stats out = Ok tt out /\
  (Forall (fun e => Detector.is_nan (remaining_secs (window e)) = false) evs ->
   near_expiry (record_all evs empty_stats)
   + mid_window (record_all evs empty_stats)
   + early_window (record_all evs empty_stats) = Z.of_nat (length evs)).
Proof.
  destruct (stats_agree_with_events_lemma evs) as (H1 & H2 & _ & _ & H5 & _).
  split; [ apply print_summary_ok, H5 | ]. split; [ reflexivity | ].
  intros Hn. unfold near_expiry, mid_window, early_window. rewrite H2.
  rewrite buckets_cover; [ now rewrite length_map | ].
  apply Forall_map. exact Hn.
Qed.

(** *** Logging an event *)

Lemma event_dumps (event : Event) : is_Some (to_json (event_dict event)).
Proof. eexists. reflexivity. Qed.

Lemma get_bus_cases (s : State) :
  match _default_bus s with
  | Some b => get_bus s = Ok b s
  | None =>
      if makedirs_ok (env s) (steps s)
      then get_bus s
           = Ok (new_bus (env s))
               (set_default_bus (Some (new_bus (env s))) (set_steps (S (steps s)) s))
      else get_bus s = Raise OSError (set_steps (S (steps s)) s)
  end.
Proof.
  unfold get_bus, bind, gets, ask, modify, ret, raise.
  destruct (_default_bus s); [ reflexivity | ].
  cbn [env steps set_steps]. destruct (makedirs_ok (env s) (steps s)); reflexivity.
Qed.

(** [signal.emit] leaves in the global the bus as its [emit] left it. *)
Lemma signal_emit_cases (code severity source : string)
    (data : list (pykey * pyval)) (s : State) :
  match get_bus s with
  | Ok b s1 =>
      signal_emit code severity source data s
      = match Signal.emit code severity source data b with
        | Ok alert b' => Ok alert (set_default_bus (Some b') s1)
        | Raise e b' => Raise e (set_default_bus (Some b') s1)
        end
  | Raise e s1 => signal_emit code severity source data s = Raise e s1
  end.
Proof. unfold signal_emit, bind. destruct (get_bus s); reflexivity. Qed.

Lemma swallow {S} (c : M S unit) (s : S) :
  try_except c (fun _ => ret tt) s = Ok tt (final (c s)).
Proof. unfold try_except. destruct (c s) as [[] s'|e s']; reflexivity. Qed.

Lemma final_then_ret {S A} (c : M S A) (s : S) :
  final (bind c (fun _ => ret tt) s) = final (c s).
Proof. unfold bind. destruct (c s); reflexivity. Qed.

(** [emit_alert] returns, in the state its [try] block ended in. *)
Lemma emit_alert_final (event : Event) (s : State) :
  emit_alert event s
  = Ok tt
      (if signal_imports (env s) (steps s)
       then final (signal_emit
                     (alert_code (ltb (remaining_secs (window event)) (of_Z 30))
                        (Nat.leb (length (default [] (get (lower (caller event))
                                                        (by_address (stats s))))) 1))
                     (alert_severity (ltb (remaining_secs (window event)) (of_Z 30)))
                     "nonce_monitor"
                     (alert_data event (ltb (remaining_secs (window event)) (of_Z 30)))
                     (set_steps (S (steps s)) s))
       else set_steps (S (steps s)) s).
Proof.
  unfold emit_alert. rewrite swallow. f_equal.
  unfold bind at 1. unfold ask. cbn [env steps].
  destruct (signal_imports (env s) (steps s)); [ | reflexivity ].
  cbv zeta. unfold bind at 1. unfold gets. apply final_then_ret.
Qed.

(** What [signal.emit] leaves behind. *)
Lemma signal_emit_final (code severity source : string)
    (data : list (pykey * pyval)) (s : State) :
  stats (final (signal_emit code severity source data s)) = stats s /\
  stdout_lines (final (signal_emit code severity source data s)) = stdout_lines s /\
  events_file (final (signal_emit code severity source data s)) = events_file s /\
  env (final (signal_emit code severity source data s)) = env s /\
  forall b,
    (_default_bus s = Some b \/
     _default_bus s = None /\ makedirs_ok (env s) (steps s) = true /\
     b = new_bus (env s)) ->
    _default_bus (final (signal_emit code severity source data s))
    = Some (final (Signal.emit code severity source data b)).
Proof.
  pose proof (signal_emit_cases code severity source data s) as Hc.
  pose proof (get_bus_cases s) as Hg.
  destruct (_default_bus s) as [b0|] eqn:Hb.
  - rewrite Hg in Hc. rewrite Hc.
    destruct (Signal.emit code severity source data b0) eqn:E;
      cbn [final stats stdout_lines events_file env _default_bus set_default_bus
           set_steps];
      repeat split; auto;
      intros b [[= <-] | (? & _)]; try discriminate; now rewrite E.
  - destruct (makedirs_ok (env s) (steps s)) eqn:Hm; rewrite Hg in Hc; rewrite Hc.
    + destruct (Signal.emit code severity source data (new_bus (env s))) eqn:E;
      cbn [final stats stdout_lines events_file env _default_bus set_default_bus
           set_steps];
        repeat split; auto;
        intros b [? | (_ & _ & ->)]; try discriminate; now rewrite E.
    + cbn [final stats stdout_lines events_file env _default_bus set_default_bus
           set_steps]. repeat split; auto.
      intros b [? | (_ & ? & _)]; discriminate.
Qed.

(** The alert part of [log_event] always returns and touches nothing but
    the default bus and the count of interactions. *)
Lemma emit_alert_ok (event : Event) (s : State) :
  exists s',
    emit_alert event s = Ok tt s' /\
    stats s' = stats s /\ stdout_lines s' = stdout_lines s /\
    events_file s' = events_file s /\ env s' = env s.
Proof.
  eexists. split; [ apply emit_alert_final | ].
  destruct (signal_imports (env s) (steps s)); [ | repeat split; reflexivity ].
  match goal with
  | |- context [signal_emit ?c ?v ?o ?d ?st] =>
      destruct (signal_emit_final c v o d st) as (H1 & H2 & H3 & H4 & _)
  end.
  rewrite H1, H2, H3, H4. repeat split; reflexivity.
Qed.

(** With the import found and a default bus at hand (or built), the bus
    ends as its own [emit] leaves it. *)
Lemma emit_alert_bus (event : Event) (s : State) (b : Signal.State) :
  signal_imports (env s) (steps s) = true ->
  (_default_bus s = Some b \/
   _default_bus s = None /\ makedirs_ok (env s) (S (steps s)) = true /\
   b = new_bus (env s)) ->
  exists s',
    emit_alert event s = Ok tt s' /\
    _default_bus s'
    = Some (final (Signal.emit
                     (alert_code (ltb (remaining_secs (window event)) (of_Z 30))
                        (Nat.leb (length (default [] (get (lower (caller event))
                                                        (by_address (stats s))))) 1))
                     (alert_severity (ltb (remaining_secs (window event)) (of_Z 30)))
                     "nonce_monitor"
                     (alert_data event (ltb (remaining_secs (window event)) (of_Z 30)))
                     b)).
Proof.
  intros Hi Hb. eexists. split; [ apply emit_alert_final | ]. rewrite Hi.
  match goal with
  | |- context [signal_emit ?c ?v ?o ?d ?st] =>
      destruct (signal_emit_final c v o d st) as (_ & _ & _ & _ & H)
  end.
  apply H. exact Hb.
Qed.

(** [log_event], statement by statement. *)
Lemma log_event_eq (event : Event) (s : State) (doc : json) :
  to_json (event_dict event) = Some doc ->
  log_event event s
  = if print_ok (env s) (steps s) then
      if append_ok (env s) (S (steps s)) then
        emit_alert event
          (set_events_file (events_file s ++ [doc])
             (set_steps (S (S (steps s)))
                (set_stdout_lines (stdout_lines s ++ [console_line event])
                   (set_steps (S (steps s)) (set_stats (add event (stats s)) s)))))
      else
        Raise OSError
          (set_steps (S (S (steps s)))
             (set_stdout_lines (stdout_lines s ++ [console_line event])
                (set_steps (S (steps s)) (set_stats (add event (stats s)) s))))
    else Raise OSError (set_steps (S (steps s)) (set_stats (add event (stats s)) s)).
Proof.
  intros Hdoc. unfold log_event, bind, modify, ask, raise. rewrite Hdoc.
  cbn [env steps set_stats set_steps set_stdout_lines set_events_file stats
       stdout_lines events_file _default_bus].
  destruct (print_ok (env s) (steps s)); [ | reflexivity ].
  cbn [env steps set_stats set_steps set_stdout_lines set_events_file stats
       stdout_lines events_file _default_bus].
  destruct (append_ok (env s) (S (steps s))); reflexivity.
Qed.

(** X22.  [log_event] records the event in the statistics first, whatever
    happens next.  If the console line cannot be printed it raises, with
    nothing written to the events file and the alert bus not touched; if
    the line is printed but the file cannot be appended to, it raises with
    the bus not touched.  Otherwise it returns, with the event's line
    appended to the events file, whatever the alert bus does: a missing
    [signal] module, a bus that cannot be built, or an [emit] that raises
    never make [log_event] raise. *)
Theorem log_event_outcome (event : Event) (s : State) :
  exists doc,
    to_json (event_dict event) = Some doc /\
    stats (final (log_event event s)) = add event (stats s) /\
    match print_ok (env s) (steps s), append_ok (env s) (S (steps s)) with
    | true, true =>
        exists s',
          log_event event s = Ok tt s' /\
          events_file s' = (events_file s ++ [doc])%list /\
          stdout_lines s' = (stdout_lines s ++ [console_line event])%list
    | true, false =>
        exists s',
          log_event event s = Raise OSError s' /\
          events_file s' = events_file s /\
          stdout_lines s' = (stdout_lines s ++ [console_line event])%list /\
          _default_bus s' = _default_bus s
    | false, _ =>
        exists s',
          log_event event s = Raise OSError s' /\
          events_file s' = events_file s /\
          stdout_lines s' = stdout_lines s /\
          _default_bus s' = _default_bus s
    end.
Proof.
  destruct (event_dumps event) as [doc Hdoc]. exists doc. split; [ exact Hdoc | ].
  rewrite (log_event_eq event s doc Hdoc).
  destruct (print_ok (env s) (steps s)).
  2:{ split; [ reflexivity | ]. eexists. split; [ reflexivity | ].
      repeat split; reflexivity. }
  destruct (append_ok (env s) (S (steps s))).
  2:{ split; [ reflexivity | ]. eexists. split; [ reflexivity | ].
      repeat split; reflexivity. }
  match goal with
  | |- context [emit_alert event ?s0] =>
      destruct (emit_alert_ok event s0) as (s' & E & H1 & H2 & H3 & _); rewrite E
  end.
  cbn [final]. split; [ exact H1 | ]. exists s'. split; [ reflexivity | ].
  split; [ exact H3 | exact H2 ].
Qed.

(** What [log_event] emits when all goes well up to the bus. *)
Lemma log_event_emits (event : Event) (s : State) (b : Signal.State) :
  print_ok (env s) (steps s) = true ->
  append_ok (env s) (S (steps s)) = true ->
  signal_imports (env s) (S (S (steps s))) = true ->
  (_default_bus s = Some b \/
   _default_bus s = None /\ makedirs_ok (env s) (S (S (S (steps s)))) = true /\
   b = new_bus (env s)) ->
  exists s',
    log_event event s = Ok tt s' /\
    stats s' = add event (stats s) /\
    _default_bus s'
    = Some (final (Signal.emit
                     (alert_code (ltb (remaining_secs (window event)) (of_Z 30))
                        (Nat.leb (length (default [] (get (lower (caller event))
                                         (by_address (add event (stats s)))))) 1))
                     (alert_severity (ltb (remaining_secs (window event)) (of_Z 30)))
                     "nonce_monitor"
                     (alert_data event (ltb (remaining_secs (window event)) (of_Z 30)))
                     b)).
Proof.
  intros Hp Ha Hi Hb. destruct (event_dumps event) as [doc Hdoc].
  rewrite (log_event_eq event s doc Hdoc), Hp, Ha.
  match goal with
  | |- context [emit_alert event ?s0] =>
      destruct (emit_alert_ok event s0) as (s' & E & H1 & _);
      destruct (emit_alert_bus event s0 b Hi Hb) as (s2 & E2 & Hbus);
      rewrite E in E2; injection E2 as <-; rewrite E
  end.
  exists s'. split; [ reflexivity | ]. split; [ exact H1 | exact Hbus ].
Qed.

(** X23.  When the console line and the file line go through, the [signal]
    module is found and there is a default bus (or one can be built: the
    default, file-only bus), [log_event] hands exactly one alert to that
    bus's [emit], from source "nonce_monitor".  It is a "warning"
    SUSPICIOUS_TIMING with action CANCEL when fewer than 30 seconds
    remain, whether the caller is new or not; otherwise an "info" alert
    with action HOLD, NEW_EXPLOITER if at most one event is on record
    under the lower-cased caller address and NONCE_INCREMENT if more.
    The caller address is ASCII text, on which [lower] is [str.lower]. *)
Theorem log_event_alert (event : Event) (s : State) (b : Signal.State) :
  is_ascii (caller event) = true ->
  print_ok (env s) (steps s) = true ->
  append_ok (env s) (S (steps s)) = true ->
  signal_imports (env s) (S (S (steps s))) = true ->
  (_default_bus s = Some b \/
   _default_bus s = None /\ makedirs_ok (env s) (S (S (S (steps s)))) = true /\
   b = new_bus (env s)) ->
  let is_late := ltb (remaining_secs (window event)) (of_Z 30) in
  let seen := default [] (get (lower (caller event))
                            (by_address (add event (stats s)))) in
  let is_new := Nat.leb (length seen) 1 in
  exists s' code severity action,
    log_event event s = Ok tt s' /\
    _default_bus s'
    = Some (final (Signal.emit code severity "nonce_monitor"
                     (alert_data event is_late) b)) /\
    field_of "action" (alert_data event is_late) = Some (PStr action) /\
    field_of "caller" (alert_data event is_late) = Some (PStr (caller event)) /\
    (is_late = true ->
     code = "SUSPICIOUS_TIMING" /\ severity = "warning" /\ action = "CANCEL") /\
    (is_late = false -> is_new = true ->
     code = "NEW_EXPLOITER" /\ severity = "info" /\ action = "HOLD") /\
    (is_late = false -> is_new = false ->
     code = "NONCE_INCREMENT" /\ severity = "info" /\ action = "HOLD").
Proof.
  intros _ Hp Ha Hi Hb. cbv zeta.
  destruct (log_event_emits event s b Hp Ha Hi Hb) as (s' & E & _ & Hbus).
  exists s'. do 3 eexists. split; [ exact E | ]. split; [ exact Hbus | ].
  split; [ reflexivity | ]. split; [ reflexivity | ].
  destruct (ltb (remaining_secs (window event)) (of_Z 30));
    destruct (Nat.leb _ 1); repeat split; auto; discriminate.
Qed.

(** The first event of a process, on a machine where everything works:
    the default bus is built on the way. *)
Lemma log_event_alert_witness :
  exists s' code severity action,
    log_event (seen_at 1700000123 "0xab") (start willing) = Ok tt s' /\
    _default_bus s'
    = Some (final (Signal.emit code severity "nonce_monitor"
                     (alert_data (seen_at 1700000123 "0xab") false)
                     (new_bus willing))) /\
    code = "NEW_EXPLOITER" /\ severity = "info" /\ action = "HOLD".
Proof.
  destruct (log_event_alert (seen_at 1700000123 "0xab") (start willing)
              (new_bus willing) eq_refl eq_refl eq_refl eq_refl
              (or_intror (conj eq_refl (conj eq_refl eq_refl))))
    as (s' & code & severity & action & E & Hb & _ & _ & _ & Hn & _).
  destruct (Hn eq_refl eq_refl) as (H1 & H2 & H3).
  exists s', code, severity, action.
  split; [ exact E | ]. split; [ exact Hb | ]. split; [ exact H1 | ].
  split; [ exact H2 | exact H3 ].
Defined.

Lemma get_append_other {V} (a k : string) (x : V) (d : list (string * list V)) :
  k <> a -> get a (append_at k x d) = get a d.
Proof.
  intros H. rewrite get_append_at. destruct (String.eqb_spec k a); [ contradiction | ].
  reflexivity.
Qed.

(** X24.  [log_event] looks the caller up under its lower-cased address,
    while [NonceStats.add] files events under the address as it came.  So
    for a caller whose (ASCII) address has an upper-case letter, and with no
    event on record under the lower-cased spelling, an event that is not
    late is emitted as NEW_EXPLOITER however many events of that caller
    are on record, never as NONCE_INCREMENT; and it leaves the
    lower-cased spelling without a record, so the same holds for the
    caller's next event. *)
Theorem mixed_case_caller_is_always_new (event : Event) (s : State)
    (b : Signal.State) :
  is_ascii (caller event) = true ->
  lower (caller event) <> caller event ->
  get (lower (caller event)) (by_address (stats s)) = None ->
  ltb (remaining_secs (window event)) (of_Z 30) = false ->
  print_ok (env s) (steps s) = true ->
  append_ok (env s) (S (steps s)) = true ->
  signal_imports (env s) (S (S (steps s))) = true ->
  (_default_bus s = Some b \/
   _default_bus s = None /\ makedirs_ok (env s) (S (S (S (steps s)))) = true /\
   b = new_bus (env s)) ->
  exists s',
    log_event event s = Ok tt s' /\
    _default_bus s'
    = Some (final (Signal.emit "NEW_EXPLOITER" "info" "nonce_monitor"
                     (alert_data event false) b)) /\
    get (lower (caller event)) (by_address (stats s')) = None /\
    get (caller event) (by_address (stats s'))
    = Some (default [] (get (caller event) (by_address (stats s))) ++ [event])%list.
Proof.
  intros _ Hcase Hnone Hlate Hp Ha Hi Hb.
  destruct (log_event_emits event s b Hp Ha Hi Hb) as (s' & E & Hst & Hbus).
  exists s'. split; [ exact E | ].
  assert (Hl : get (lower (caller event)) (by_address (add event (stats s))) = None).
  { cbn [add by_address]. rewrite get_append_other by congruence. exact Hnone. }
  rewrite Hl, Hlate in Hbus. rewrite Hst.
  split; [ exact Hbus | ]. split; [ exact Hl | ].
  cbn [add by_address]. rewrite get_append_at, String.eqb_refl. reflexivity.
Qed.

(** The fourth event of a caller with a checksummed address. *)
Lemma mixed_case_caller_is_always_new_witness :
  let ev := seen_at 1700000123 "0xAb" in
  let s := set_default_bus (Some (new_bus willing))
             (set_stats (record_all [ev; ev; ev] empty_stats) (start willing)) in
  exists s',
    log_event ev s = Ok tt s' /\
    _default_bus s'
    = Some (final (Signal.emit "NEW_EXPLOITER" "info" "nonce_monitor"
                     (alert_data ev false) (new_bus willing))) /\
    get (lower (caller ev)) (by_address (stats s')) = None /\
    get (caller ev) (by_address (stats s'))
    = Some (default [] (get (caller ev) (by_address (stats s))) ++ [ev])%list.
Proof.
  cbv zeta.
  apply (mixed_case_caller_is_always_new (seen_at 1700000123 "0xAb")
           (set_default_bus (Some (new_bus willing))
              (set_stats (record_all [seen_at 1700000123 "0xAb";
                                      seen_at 1700000123 "0xAb";
                                      seen_at 1700000123 "0xAb"] empty_stats)
                 (start willing)))
           (new_bus willing)).
  - reflexivity.
  - intros H. vm_compute in H. discriminate H.
  - vm_compute. reflexivity.
  - vm_compute. reflexivity.
  - reflexivity.
  - reflexivity.
  - reflexivity.
  - left. reflexivity.
Defined.

End NonceMonitorFacts.

(* ===================================================================== *)
(** ** Properties of the blacklist *)
(* ===================================================================== *)

Module BlacklistFacts.

Import Float64 Json Blacklist.

(** *** strip and lower *)














(** *** The reading of the two files *)

(** Equations between unions of sets of addresses. *)
Ltac unions :=
  apply set_eq; intros ?;
  rewrite ?elem_of_union, ?elem_of_empty; tauto.

(** What the loop body does with an events line. *)
Lemma events_line_cases (l : line) (acc : gset string) :
  if stops l then exists e, events_line l acc = inl e
  else events_line l acc
       = inr (match named l with
              | Some c =>
                  if nonempty (lower (strip c)) then {[ lower (strip c) ]} ∪ acc
                  else acc
              | None => acc
              end).
Proof.
  destruct l as [| |doc| |]; cbn; try reflexivity; eauto.
  destruct (of_json doc) as [| | | | | | |kv|]; cbn; eauto.
  destruct (dict_get (KStr "caller") kv) as [[| | | |c| | | |]|]; cbn; eauto.
Qed.

Lemma scan_events (lines : list line) (cut : bool) (acc : gset string) :
  fst (scan events_line lines cut acc) = event_addresses lines ∪ acc.
Proof.
  revert acc. induction lines as [|l rest IH]; intros acc.
  - cbn. unfold event_addresses. cbn. unions.
  - cbn [scan]. pose proof (events_line_cases l acc) as H.
    unfold event_addresses in *. cbn [before_stop].
    destruct (stops l).
    + destruct H as (e & ->). cbn. unions.
    + rewrite H, IH. destruct (named l) as [c|] eqn:Hn.
      * replace (omap named (l :: before_stop rest))
          with (c :: omap named (before_stop rest))
          by (cbn; rewrite Hn; reflexivity).
        cbn [map List.filter].
        destruct (nonempty (lower (strip c))); cbn [list_to_set]; unions.
      * replace (omap named (l :: before_stop rest))
          with (omap named (before_stop rest))
          by (cbn; rewrite Hn; reflexivity).
        reflexivity.
Qed.

Lemma scan_manual (lines : list string) (cut : bool) (acc : gset string) :
  fst (scan manual_line lines cut acc) = manual_addresses lines ∪ acc.
Proof.
  revert acc. induction lines as [|l rest IH]; intros acc.
  - cbn. unfold manual_addresses. cbn. unions.
  - cbn [scan manual_line]. rewrite IH. unfold manual_addresses.
    cbn [map List.filter].
    destruct (nonempty (lower (strip l)) && negb (startswith (lower (strip l)) "#"));
      cbn [list_to_set]; unions.
Qed.




(** One of the two blocks: it returns, with the addresses of the file
    added if the file is there. *)
Lemma read_file_ok {A} (path : string) (present : Oracle -> nat -> bool)
    (reading : Oracle -> nat -> Reading A)
    (body : A -> gset string -> error + gset string) (acc : gset string)
    (s : State) :
  exists s',
    read_file path present reading body acc s
    = Ok (if present (env s) (steps s)
          then fst (scan body (got (reading (env s) (S (steps s))))
                      (cut (reading (env s) (S (steps s)))) acc)
          else acc) s' /\
    _addresses s' = _addresses s /\ _last_refresh s' = _last_refresh s /\
    _lock s' = _lock s /\ env s' = env s /\
    steps s' = (if present (env s) (steps s) then S (S (steps s)) else S (steps s)).
Proof.
  unfold read_file, bind, ask. cbn.
  destruct (present (env s) (steps s)); cbn; [ | eauto 10 ].
  destruct (scan body _ _ acc) as [addrs [e|]]; cbn; eauto 10.
Qed.

(** The outcome of [refresh]. *)
Lemma refresh_ok (s : State) :
  exists s',
    refresh s = Ok tt s' /\
    _addresses s'
    = from_option (fun r => event_addresses (got r)) ∅ (events_found s) ∪
      from_option (fun r => manual_addresses (got r)) ∅ (manual_found s) /\
    _last_refresh s' = time_time (env s) (clock_step s) /\
    _lock s' = false /\ env s' = env s /\ steps s' = S (clock_step s).
Proof.
  unfold refresh, bind.
  destruct (read_file_ok NONCE_EVENTS_FILE events_exists events_read events_line ∅ s)
    as (s1 & -> & _ & _ & _ & He1 & Hs1).
  destruct (read_file_ok MANUAL_BLACKLIST_FILE manual_exists manual_read manual_line
              (if events_exists (env s) (steps s)
               then fst (scan events_line (got (events_read (env s) (S (steps s))))
                           (cut (events_read (env s) (S (steps s)))) ∅)
               else ∅) s1)
    as (s2 & -> & _ & _ & _ & He2 & Hs2).
  unfold with_lock, gets, modify, ask, log, ret. cbn.
  rewrite He1, Hs1 in *.
  assert (Hm : (if events_exists (env s) (steps s) then S (S (steps s))
                else S (steps s)) = manual_step s) by reflexivity.
  rewrite Hm in *.
  assert (Hc : steps s2 = clock_step s) by (rewrite Hs2; reflexivity).
  set (addrs := if manual_exists (env s) (manual_step s) then _ else _).
  assert (Ha : addrs
               = from_option (fun r => event_addresses (got r)) ∅ (events_found s) ∪
                 from_option (fun r => manual_addresses (got r)) ∅ (manual_found s)).
  { subst addrs. unfold events_found, manual_found.
    destruct (manual_exists (env s) (manual_step s));
      destruct (events_exists (env s) (steps s)); cbn;
      rewrite ?scan_manual, ?scan_events; unions. }
  destruct (negb (Nat.eqb (size addrs) (size (_addresses s2)))); cbn;
    eexists; (split; [ reflexivity | ]); cbn; rewrite ?He2, ?Hc; auto.
Qed.




(** The outcome of a lookup. *)
Lemma is_blacklisted_ok (address : string) (s : State) :
  let now := time_time (env s) (steps s) in
  let due := geb (sub now (_last_refresh s)) REFRESH_INTERVAL in
  let s1 := if due then final (refresh (set_steps (S (steps s)) s))
            else set_steps (S (steps s)) s in
  is_blacklisted address s
  = Ok (bool_decide (lower (strip address) ∈ _addresses s1)) (set_lock false s1).
Proof.
  cbv zeta. unfold is_blacklisted, _maybe_refresh, bind, ask, gets. cbn.
  destruct (geb _ _).
  - destruct (refresh_ok (set_steps (S (steps s)) s)) as (s' & -> & _). reflexivity.
  - reflexivity.
Qed.



(** X27.  [is_blacklisted] never raises and releases the lock.  It reads
    the clock once; if fewer than 60 seconds have passed since the last
    refresh (or the difference is a NaN) it reads no file and leaves set,
    refresh time and log as they are; otherwise it refreshes first.  The
    answer is whether the stripped and lower-cased argument is in the set
    it is left with, so two spellings of an address that differ in case
    or in white space around them get the same answer. *)
Theorem lookup_between_refreshes (address other : string) (s : State) :
  let now := time_time (env s) (steps s) in
  let due := geb (sub now (_last_refresh s)) REFRESH_INTERVAL in
  let s1 := set_steps (S (steps s)) s in
  NonceMonitor.is_ascii address = true ->
  NonceMonitor.is_ascii other = true ->
  (due = true -> ascii_lines (events_found s1) (manual_found s1) = true) ->
  exists b s',
    is_blacklisted address s = Ok b s' /\
    b = bool_decide (lower (strip address) ∈ _addresses s') /\
    _lock s' = false /\ env s' = env s /\
    (due = false ->
     _addresses s' = _addresses s /\ _last_refresh s' = _last_refresh s /\
     logger s' = logger s /\ steps s' = S (steps s)) /\
    (due = true ->
     _addresses s' = _addresses (final (refresh s1)) /\
     _last_refresh s' = time_time (env s) (clock_step s1)) /\
    (lower (strip other) = lower (strip address) ->
     is_blacklisted other s = Ok b s').
Proof.
  cbv zeta. intros _ _ _.
  pose proof (is_blacklisted_ok address s) as H.
  pose proof (is_blacklisted_ok other s) as H'. cbv zeta in H, H'.
  rewrite H. do 2 eexists. split; [ reflexivity | ].
  destruct (geb _ _).
  - destruct (refresh_ok (set_steps (S (steps s)) s)) as (s' & E & _ & Ht & _ & He & _).
    rewrite E in *. cbn [final] in *. cbn [_addresses _lock env set_lock].
    repeat split; auto; try discriminate.
    intros Hsame. rewrite H', Hsame. reflexivity.
  - cbn. repeat split; auto; try discriminate.
    intros Hsame. rewrite H', Hsame. reflexivity.
Qed.

(** A blacklist that holds "0xab": the checksummed spelling with a
    line feed after it is found, and no file is read. *)
Lemma lookup_between_refreshes_witness :
  let s := set_addresses {[ "0xab" ]} (new sample) in
  exists s',
    is_blacklisted "0xAb
" s = Ok true s' /\
    is_blacklisted "0xab" s = Ok true s' /\
    steps s' = 1%nat.
Proof.
  cbv zeta.
  destruct (lookup_between_refreshes "0xAb
" "0xab" (set_addresses {[ "0xab" ]} (new sample)) eq_refl eq_refl)
    as (b & s' & E & Hb & _ & _ & Hkeep & _ & Hsame).
  - intros H. vm_compute in H. discriminate H.
  - destruct (Hkeep eq_refl) as (Ha & _ & _ & Hsteps).
    rewrite Ha in Hb. cbn in Hb.
    rewrite (bool_decide_eq_true_2 _ (proj2 (elem_of_singleton (C:=gset string) _ _) eq_refl)) in Hb.
    subst b. exists s'. split; [ exact E | ]. split; [ exact (Hsame eq_refl) | exact Hsteps ].
Defined.

(** *** The monitor's file, read by the blacklist *)






End BlacklistFacts.

(* ===================================================================== *)
(** ** Properties of the emergency sell *)
(* ===================================================================== *)

Module WatchdogFacts.

Import Float64 Json Watchdog.

(** Getting the client changes neither the venue's answers nor what has
    been sent to it. *)
Lemma get_clob_client_ok (s : State) :
  exists s',
    _get_clob_client s = Ok tt s' /\
    env s' = env s /\ steps s' = steps s /\ sells s' = sells s /\
    cancels s' = cancels s /\ sleeps s' = sleeps s.
Proof.
  unfold _get_clob_client, bind, gets, modify, log.
  destruct (_clob_client s); eexists; (split; [ reflexivity | ]); repeat split.
Qed.

Lemma app_neq_self {A} (l : list A) (x : A) (rest : list A) :
  (l ++ x :: rest)%list <> l.
Proof.
  intros H. apply (f_equal (@length A)) in H. rewrite length_app in H. cbn in H. lia.
Qed.

(** Run the sale case by case. *)
Ltac fields :=
  cbn [final _clob_client env steps logger sells cancels sleeps set_clob_client
       set_steps set_logger set_sells set_cancels set_sleeps Detector.accepted
       Detector.as_float negb].

Ltac fields_in H :=
  cbn [final _clob_client env steps logger sells cancels sleeps set_clob_client
       set_steps set_logger set_sells set_cancels set_sleeps Detector.accepted
       Detector.as_float negb] in H.

Lemma zero_below_tenth : ltb (of_Z 0) (decimal 1 10) = true.
Proof. vm_compute. reflexivity. Qed.

Ltac sale_cases :=
  repeat first
    [ progress fields
    | rewrite zero_below_tenth
    | match goal with
      | |- context [Detector.accepted ?x] => destruct x as [[|? ?]|] eqn:?
      | |- context [match ?x with NoFill => _ | _ => _ end] => destruct x eqn:?
      | |- context [if ?b then _ else _] => destruct b eqn:?
      | |- context [match ?x with Some _ => _ | None => _ end] =>
          destruct x as [[|? ?]|] eqn:?
      end ].

(** X29.  [emergency_sell] sends an order to the venue exactly when the
    book could be fetched, has a best bid that is not below 0.02, the
    size does not round (to one decimal) below 0.1, and the call is not a
    dry run; a NaN bid or size is not below anything and passes.  In
    every other case it returns without an order, a cancellation or a
    sleep, and reports failure, except for a dry run that nothing else
    stood in the way of, which reports success.  The first order sent is for the given token, at
    [round(max(bid * 0.95, 0.01), 2)], for the rounded size. *)
Theorem sale_is_attempted_exactly_when (token_id : string) (shares : float)
    (dry_run : bool) (s : State) :
  let book := get_order_book (env s) (steps s) in
  let go := sellable book shares && negb dry_run in
  let out := emergency_sell token_id shares dry_run s in
  (sells (final out) = sells s <-> go = false) /\
  (go = false ->
   exists result,
     out = Ok result (final out) /\
     cancels (final out) = cancels s /\ sleeps (final out) = sleeps s /\
     result_field "success" result = Some (PBool (sellable book shares && dry_run))) /\
  (go = true ->
   exists p first rest,
     book = BestBid p /\
     sells (final out) = (sells s ++ first :: rest)%list /\
     sell_token first = token_id /\
     sell_price first = price_at p SELL_AGGRESSION /\
     sell_size first = round shares 1).
Proof.
  cbv zeta. set (out := emergency_sell token_id shares dry_run s).
  pose proof (eq_refl out) as Hout. unfold out at 2 in Hout.
  unfold emergency_sell in Hout. unfold bind at 1 in Hout.
  destruct (get_clob_client_ok s) as (s0 & E0 & He & Hs & Hsl & Hc & Hz).
  rewrite E0 in Hout. clearbody out.
  rewrite <- He, <- Hs, <- Hsl, <- Hc, <- Hz. clear E0 He Hs Hsl Hc Hz s.
  unfold bind at 1 in Hout. unfold ask at 1 in Hout.
  destruct (get_order_book (env s0) (steps s0)) as [msg| |p] eqn:Hb; cbn in Hout.
  - subst out. cbn. repeat split; try discriminate; eauto 10.
  - subst out. cbn. repeat split; try discriminate; eauto 10.
  - destruct (ltb p (decimal 2 100)) eqn:Hp; cbn in Hout.
    { subst out. cbn. rewrite Hp. cbn. repeat split; try discriminate; eauto 10. }
    destruct (ltb (round shares 1) (decimal 1 10)) eqn:Hsz; cbn in Hout.
    { subst out. cbn. rewrite Hp, Hsz. cbn. repeat split; try discriminate; eauto 10. }
    destruct dry_run; cbn in Hout.
    { subst out. cbn. rewrite Hp, Hsz. cbn. repeat split; try discriminate; eauto 10. }
    cbn [sellable]. rewrite Hp, Hsz. cbn [negb andb].
    unfold place, log, sleep, matched_size, cancel_order in Hout.
    unfold bind, ask, modify, ret, raise in Hout.
    fields_in Hout.
    split; [ split; [ | discriminate ] | split; [ discriminate | intros _; exists p ] ].
    + subst out.
      sale_cases; intros H; exfalso; revert H; rewrite <- ?app_assoc; apply app_neq_self.
    + subst out.
      sale_cases; rewrite <- ?app_assoc; cbn [app]; do 2 eexists;
        (split; [ reflexivity | ]); (split; [ reflexivity | ]); repeat split.
Qed.

(** *** The orders of a sale *)

Lemma lt_not_ge (x c : float) : ltb x c = true -> geb x c = true -> False.
Proof.
  unfold ltb, geb, SFltb, SFleb. intros H1 H2.
  destruct (SFcompare x c) as [k|] eqn:Hk; [ | discriminate ].
  rewrite (DetectorFacts.compare_antisym _ _ _ Hk) in H2.
  destruct k; cbn in *; discriminate.
Qed.

Lemma neither_is_nan (x : float) :
  ltb x (decimal 1 10) = false -> geb x (decimal 1 10) = false ->
  Detector.is_nan x = false -> False.
Proof.
  intros H1 H2 H3.
  rewrite (DetectorFacts.not_ge_lt x (decimal 1 10) H2 H3 eq_refl) in H1.
  discriminate.
Qed.

Lemma zero_not_tenth : geb (of_Z 0) (decimal 1 10) = false.
Proof. vm_compute. reflexivity. Qed.

Ltac settle :=
  first [ reflexivity
        | exfalso;
          match goal with
          | H1 : ltb ?x ?c = true, H2 : geb ?x ?c = true |- _ =>
              exact (lt_not_ge x c H1 H2)
          | H1 : ltb ?x (decimal 1 10) = false, H2 : geb ?x (decimal 1 10) = false,
            H3 : Detector.is_nan ?x = false |- _ =>
              exact (neither_is_nan x H1 H2 H3)
          | H : geb (of_Z 0) (decimal 1 10) = true |- _ =>
              rewrite zero_not_tenth in H; discriminate H
          end ].

(** X30.  A sale that is attempted (the venue client's methods being taken
    to return) sends at most three orders, all for the same token and the
    same rounded size: at 95 % of the bid, then at 85 % exactly if the
    first was refused, then at 75 % exactly if an order was cancelled (an
    accepted order is cancelled when less than 0.1 of it was matched); at
    most two are accepted, and each accepted one is waited on for 3
    seconds.  Only accepted orders are cancelled, in the order they were
    accepted.  If the venue accepted none, the result is the failure
    "order_failed".  Otherwise the result names the first accepted order
    and the first price, also when the order accepted was the retry or
    the one matched was the panic order; when it reports success the last
    accepted order is left standing and the one before it cancelled; when
    it reports failure with a matched size that is not a NaN every
    accepted order has been cancelled.  The only exception is the one
    [float()] raises on a matched size it cannot read, and then the order
    asked about is left uncancelled. *)
Theorem sale_order_discipline (token_id : string) (shares p : float) (s : State) :
  get_order_book (env s) (steps s) = BestBid p ->
  ltb p (decimal 2 100) = false ->
  ltb (round shares 1) (decimal 1 10) = false ->
  let out := emergency_sell token_id shares false s in
  let p95 := price_at p SELL_AGGRESSION in
  let p85 := price_at p (decimal 85 100) in
  let p75 := price_at p (decimal 75 100) in
  exists new done,
    sells (final out) = (sells s ++ new)%list /\
    cancels (final out) = (cancels s ++ done)%list /\
    sleeps (final out)
    = (sleeps s ++ replicate (length (accepted_ids new)) (of_Z 3))%list /\
    Forall (fun o => sell_token o = token_id /\ sell_size o = round shares 1) new /\
    (exists first,
       head new = Some first /\
       (Detector.accepted (sell_answer first) = true ->
        (done = [] /\ map sell_price new = [p95]) \/
        (done <> [] /\ map sell_price new = [p95; p75])) /\
       (Detector.accepted (sell_answer first) = false ->
        (done = [] /\ map sell_price new = [p95; p85]) \/
        (done <> [] /\ map sell_price new = [p95; p85; p75]))) /\
    (length (accepted_ids new) <= 2)%nat /\
    (done = accepted_ids new \/ done = but_last (accepted_ids new)) /\
    match out with
    | Ok result _ =>
        (accepted_ids new = [] /\ done = [] /\
         result = PDict [(KStr "success", PBool false);
                         (KStr "error", PStr "order_failed")]) \/
        (exists id filled,
           head (accepted_ids new) = Some id /\
           result = PDict [(KStr "success",
                            PBool (geb (Detector.as_float filled) (decimal 1 10)));
                           (KStr "order_id", PStr id);
                           (KStr "price", PFloat p95);
                           (KStr "size", PFloat (round shares 1));
                           (KStr "filled", filled)] /\
           (geb (Detector.as_float filled) (decimal 1 10) = true ->
            done = but_last (accepted_ids new)) /\
           (geb (Detector.as_float filled) (decimal 1 10) = false ->
            Detector.is_nan (Detector.as_float filled) = false ->
            done = accepted_ids new))
    | Raise e _ =>
        e = ValueError /\ accepted_ids new <> [] /\
        done = but_last (accepted_ids new)
    end.
Proof.
  intros Hb Hp Hsz. cbv zeta.
  set (out := emergency_sell token_id shares false s).
  pose proof (eq_refl out) as Hout. unfold out at 2 in Hout.
  unfold emergency_sell in Hout. unfold bind at 1 in Hout.
  destruct (get_clob_client_ok s) as (s0 & E0 & He & Hs & Hsl & Hc & Hz).
  rewrite E0 in Hout. clearbody out.
  rewrite <- He, <- Hs in Hb. rewrite <- Hsl, <- Hc, <- Hz.
  clear E0 He Hs Hsl Hc Hz s.
  unfold bind at 1 in Hout. unfold ask at 1 in Hout. rewrite Hb in Hout.
  cbn [Detector.as_float] in Hout. rewrite Hp, Hsz in Hout.
  unfold place, log, sleep, matched_size, cancel_order in Hout.
  unfold bind, ask, modify, ret, raise in Hout. fields_in Hout.
  subst out. sale_cases.
  all: rewrite <- ?app_assoc; cbn [app].
  all: eexists _, _.
  all: (split; [ first [ reflexivity | symmetry; apply app_nil_r ] | ]).
  all: (split; [ first [ reflexivity | symmetry; apply app_nil_r ] | ]).
  all: cbn [accepted_ids omap list_omap sell_answer length replicate but_last take
            Nat.sub head map sell_price sell_token sell_size].
  all: (split; [ first [ reflexivity | symmetry; apply app_nil_r ] | ]).
  all: (split; [ repeat constructor | ]).
  all: (split;
          [ eexists; split; [ reflexivity | ];
            cbn [Detector.accepted sell_answer]; split; intros Hfirst;
            first [ discriminate Hfirst
                  | left; split; reflexivity
                  | right; split; [ discriminate | reflexivity ] ]
          | ]).
  all: (split; [ lia | ]).
  all: (split; [ first [ left; reflexivity | right; reflexivity ] | ]).
  all: try (left; repeat split; reflexivity).
  all: try (right;
            match goal with
            | |- context [PDict [_; (KStr "order_id", PStr ?i); _; _;
                                 (KStr "filled", ?f)] = _] => exists i, f
            end;
            split; [ reflexivity | ]; split; [ reflexivity | ];
            cbn [Detector.as_float]; split; intros; settle).
  all: try (split; [ reflexivity | split; [ discriminate | reflexivity ] ]).
Qed.

(** A bid at 0.50 on a venue that accepts every order and fills none: the
    first order and the panic order are both accepted and both
    cancelled. *)
Lemma sale_order_discipline_witness :
  exists new done,
    sells (final (emergency_sell "123" (of_Z 10) false (idle stubborn))) = new /\
    cancels (final (emergency_sell "123" (of_Z 10) false (idle stubborn))) = done /\
    (length (accepted_ids new) <= 2)%nat.
Proof.
  destruct (sale_order_discipline "123" (of_Z 10) (decimal 50 100) (idle stubborn)
              eq_refl eq_refl eq_refl)
    as (new & done & Hs & Hc & _ & _ & _ & Hn & _).
  exists new, done. split; [ exact Hs | ]. split; [ exact Hc | exact Hn ].
Defined.

End WatchdogFacts.
